(** * OneNote-to-Markdown exporter: a model of [onenote_export.py]

    The development embeds the exporter's functions ([sanitize_filename],
    [fetch_json], [download_file], [process_page_content] and the walker in
    [main]) as functions of Rocq and proves the properties its specification
    states about them.

    Python values are modelled as follows.
    - A [str] is a sequence of Unicode code points: [pystr := list N].
      Literals of the source are written [py "..."].
    - Code that performs input and output runs in a state and exception monad
      over a [world]: the local file system, the answers the remote service
      will give to the next requests, and the trace of what was done.
    - The libraries the script calls (requests, BeautifulSoup, markdownify,
      os, time) are modelled at their interface. *)

From stdpp Require Import gmap list strings.
From Stdlib Require Import ZArith NArith Lia.

Local Open Scope Z_scope.
Local Open Scope list_scope.

(** ** Python strings *)

Module PyStr.

Abbreviation pystr := (list N).

(** [py "abc"]: the Python literal ['abc'] (code points of its characters). *)
Definition py (s : string) : pystr :=
  map (fun a : Ascii.ascii => N.of_nat (Ascii.nat_of_ascii a))
      (String.list_ascii_of_string s).
Arguments py s%_string.

Fixpoint eqb (a b : pystr) : bool :=
  match a, b with
  | [], [] => true
  | x :: a', y :: b' => N.eqb x y && eqb a' b'
  | _, _ => false
  end.

(** [s.startswith(p)] *)
Fixpoint startswith (s p : pystr) : bool :=
  match p, s with
  | [], _ => true
  | c :: p', d :: s' => N.eqb c d && startswith s' p'
  | _ :: _, [] => false
  end.

(** [needle in hay] *)
Fixpoint contains (needle hay : pystr) : bool :=
  startswith hay needle ||
  match hay with
  | [] => false
  | _ :: hay' => contains needle hay'
  end.

(** The declarative reading of [needle in hay]. *)
Definition substring (needle hay : pystr) : Prop :=
  exists pre post, hay = pre ++ needle ++ post.

(** [str.isspace] on one character: the code points Python's [str.strip()]
    removes (Unicode White_Space together with the separators 0x1C-0x1F). *)
Definition isspace (c : N) : bool :=
  ((9 <=? c) && (c <=? 13) || (28 <=? c) && (c <=? 32) ||
   (c =? 133) || (c =? 160) || (c =? 5760) ||
   (8192 <=? c) && (c <=? 8202) || (c =? 8232) || (c =? 8233) ||
   (c =? 8239) || (c =? 8287) || (c =? 12288))%N.

Fixpoint lstrip (s : pystr) : pystr :=
  match s with
  | [] => []
  | c :: s' => if isspace c then lstrip s' else s
  end.

Definition rstrip (s : pystr) : pystr := rev (lstrip (rev s)).

(** [s.strip()] *)
Definition strip (s : pystr) : pystr := rstrip (lstrip s).

(** Decimal rendering of a natural number, as an f-string prints an [int]. *)
Definition digit (n : nat) : N := (48 + N.of_nat n)%N.

Fixpoint of_nat_fuel (fuel n : nat) (acc : pystr) : pystr :=
  match fuel with
  | O => acc
  | S fuel' =>
      let acc' := digit (Nat.modulo n 10) :: acc in
      if Nat.ltb n 10 then acc' else of_nat_fuel fuel' (Nat.div n 10) acc'
  end.

Definition of_nat (n : nat) : pystr := of_nat_fuel (S n) n [].

End PyStr.

Import PyStr.

(** ** [sanitize_filename] (source lines 80-82) *)

(** The character class of the regular expression: backslash, slash, star,
    question mark, colon, double quote, less-than, greater-than and bar. *)
Definition reserved_chars : list N := [92; 47; 42; 63; 58; 34; 60; 62; 124]%N.

Definition is_reserved (c : N) : bool := existsb (N.eqb c) reserved_chars.

Definition underscore : N := 95%N.

(** [re.sub(pattern, '_', name)] for the one-character class above: every
    match is replaced by an underscore. *)
Definition re_sub_reserved (name : pystr) : pystr :=
  map (fun c => if is_reserved c then underscore else c) name.

Definition sanitize_filename (name : pystr) : pystr :=
  strip (re_sub_reserved name).

(** ** Python's [int] on a string

    [int(s)] for a [str]: surrounding white space is ignored, then an
    optional sign, then decimal digits in which single underscores may
    separate digits.  Anything else raises [ValueError] ([None] here).

    The white space [int] ignores is not that of [str.strip]: the
    separators 0x1C-0x1F are white space for [str.strip], and for [int]
    they are characters that are no digits.  A literal of more than 4300
    digits is refused as well (the interpreter's limit on the conversion of
    a string to an [int]).  Header values are Latin-1 text, where the only
    decimal digits are 0-9. *)

Definition digit_val (c : N) : option Z :=
  if ((48 <=? c) && (c <=? 57))%N then Some (Z.of_N c - 48) else None.

Fixpoint py_digits (acc : Z) (after_digit : bool) (s : pystr) : option Z :=
  match s with
  | [] => if after_digit then Some acc else None
  | c :: s' =>
      if N.eqb c underscore then
        if after_digit then py_digits acc false s' else None
      else
        match digit_val c with
        | Some d => py_digits (10 * acc + d) true s'
        | None => None
        end
  end.

(** The white space that [int] ignores around the literal. *)
Definition int_isspace (c : N) : bool :=
  isspace c && negb ((28 <=? c) && (c <=? 31))%N.

Fixpoint int_lstrip (s : pystr) : pystr :=
  match s with
  | [] => []
  | c :: s' => if int_isspace c then int_lstrip s' else s
  end.

Definition int_strip (s : pystr) : pystr :=
  rev (int_lstrip (rev (int_lstrip s))).

Fixpoint count_digits (s : pystr) : nat :=
  match s with
  | [] => O
  | c :: s' =>
      (match digit_val c with Some _ => 1 | None => 0 end + count_digits s')%nat
  end.

(** [sys.int_info.default_max_str_digits] *)
Definition int_max_str_digits : nat := 4300.

Definition py_int (s : pystr) : option Z :=
  let literal := int_strip s in
  if Nat.ltb int_max_str_digits (count_digits literal) then None
  else
    match literal with
    | [] => None
    | c :: r =>
        if N.eqb c 45 then Z.opp <$> py_digits 0 false r
        else if N.eqb c 43 then py_digits 0 false r
        else py_digits 0 false (c :: r)
    end.

(** ** The remote service *)

(** An entry of a listing: a notebook, a section or a page.  [item_name] is
    its [displayName] (notebooks, sections) or its [title] (pages).  The
    listings are taken to be well formed: every entry has both fields and
    they are strings. *)
Record item := Item { item_id : pystr; item_name : pystr }.

(** A decoded JSON body: a listing envelope ([value] and, optionally,
    [@odata.nextLink]) or an object without a [value] key.  These are the
    bodies the service documents; a body of another shape (a [value] that
    is no list, a scalar) is outside the model. *)
Inductive payload :=
| Listing (value : list item) (next_link : option pystr)
| Resource (fields : list (pystr * pystr)).

(** A response of [requests.get]: its status, its [Retry-After] header when
    there is one, and its body as [response.json()], [response.text] and the
    bytes of [response.iter_content] show it. *)
Record response := Response {
  status_code : Z;
  retry_after : option pystr;
  json : payload;
  text : pystr;
  content : list N
}.

(** What one call of [requests.get] meets: an answer, or a transport error
    ([requests.exceptions.RequestException]). *)
Inductive net_event :=
| Answer (r : response)
| Unreachable.

(** ** The local file system *)

Inductive file_data :=
| Text (s : pystr)       (* a file that reads back as [s] in UTF-8 text mode *)
| Binary (b : list N).   (* a file written in binary mode, a media file; it
                            is taken not to decode as UTF-8 text *)

Record filesystem := FileSystem {
  dirs : gset pystr;
  files : gmap pystr file_data
}.

(** ** Worlds, traces and the monad of effects *)

(** Of the messages the script prints, the trace keeps those of the walker
    about a page. *)
Inductive message :=
| MsgSkip (page_title : pystr)          (* the page is complete, skipped *)
| MsgRepair (page_title : pystr)        (* the page has remote links left *)
| MsgDownloadPage (page_title : pystr)  (* the page is being downloaded *)
| MsgPageFailed.                        (* the content could not be fetched *)

Inductive action :=
| Get (url : pystr) (stream : bool)
| Sleep (seconds : Z)
| WriteFile (path : pystr)
| Printed (m : message).

(** [net] holds the answers to the next requests, in order; after them the
    host is unreachable.  [trace] is in chronological order. *)
Record world := World {
  fs : filesystem;
  net : list net_event;
  trace : list action
}.

(** [OutOfFuel] is no Python exception: it marks that the bound of the
    model's [while] loop was reached (it never is, see [fetch_json_fuel]). *)
Inductive exn :=
| ValueError
| RequestException
| OSError
| UnicodeDecodeError
| OutOfFuel.

Inductive result (A : Type) :=
| Ok (a : A)
| Raise (e : exn).
Arguments Ok {A} a.
Arguments Raise {A} e.

Definition M (A : Type) : Type := world -> result A * world.

Definition ret {A} (a : A) : M A := fun w => (Ok a, w).

Definition bind {A B} (c : M A) (k : A -> M B) : M B :=
  fun w => match c w with
           | (Ok a, w') => k a w'
           | (Raise e, w') => (Raise e, w')
           end.

Definition raise {A} (e : exn) : M A := fun w => (Raise e, w).

(** [try: c  except <handles>: h] *)
Definition try_except {A} (c : M A) (handles : exn -> bool) (h : M A) : M A :=
  fun w => match c w with
           | (Raise e, w') => if handles e then h w' else (Raise e, w')
           | r => r
           end.

Declare Scope py_scope.
Delimit Scope py_scope with py.
Notation "x <- c1 ;; c2" := (bind c1 (fun x => c2))
  (at level 100, c1 at next level, right associativity) : py_scope.
Notation "c1 ;;; c2" := (bind c1 (fun _ => c2))
  (at level 100, right associativity) : py_scope.
Local Open Scope py_scope.

(** [except requests.exceptions.RequestException] *)
Definition is_request_exception (e : exn) : bool :=
  match e with RequestException => true | _ => false end.

(** [except Exception] *)
Definition is_exception (e : exn) : bool :=
  match e with OutOfFuel => false | _ => true end.

Definition log (a : action) : M unit :=
  fun w => (Ok tt, World (fs w) (net w) (trace w ++ [a])).

Definition print (m : message) : M unit := log (Printed m).

(** [requests.get(url, headers=headers, stream=stream)] *)
Definition requests_get (url : pystr) (stream : bool) : M response :=
  fun w =>
    let w' rest := World (fs w) rest (trace w ++ [Get url stream]) in
    match net w with
    | Answer r :: rest => (Ok r, w' rest)
    | Unreachable :: rest => (Raise RequestException, w' rest)
    | [] => (Raise RequestException, w' [])
    end.

(** [time.sleep(seconds)] refuses a negative length.  The platform also
    refuses a length it cannot represent, from about 9.2e9 seconds (three
    centuries) on.  That bound is no part of this definition; [max_sleep]
    names it, and the statements on the wait that a 429 answer asks for
    keep the wait within it. *)
Definition time_sleep (seconds : Z) : M unit :=
  if seconds <? 0 then raise ValueError else log (Sleep seconds).

(** The longest sleep the platform accepts: the seconds that fit a signed
    64-bit count of nanoseconds. *)
Definition max_sleep : Z := 9223372036.

(** [int(response.headers.get('Retry-After', 10))] *)
Definition retry_after_seconds (r : response) : M Z :=
  match retry_after r with
  | None => ret 10
  | Some h => match py_int h with
              | Some n => ret n
              | None => raise ValueError
              end
  end.

(** [os.path.join(a, b)] (posixpath). *)
Definition slash : N := 47%N.

Definition path_join (a b : pystr) : pystr :=
  if startswith b [slash] then b
  else match last a with
       | None => b
       | Some c => if N.eqb c slash then a ++ b else a ++ slash :: b
       end.

(** The directories above [path]: its prefixes that end before a slash. *)
Fixpoint ancestors_from (seen rest : pystr) : list pystr :=
  match rest with
  | [] => []
  | c :: rest' =>
      (if N.eqb c slash && negb (eqb seen []) then [seen] else [])
      ++ ancestors_from (seen ++ [c]) rest'
  end.

Definition ancestors (path : pystr) : list pystr := ancestors_from [] path.

Definition exists_in (f : filesystem) (path : pystr) : bool :=
  bool_decide (path ∈ dirs f) || bool_decide (is_Some (files f !! path)).

(** [os.path.exists(path)] *)
Definition path_exists (path : pystr) : M bool :=
  fun w => (Ok (exists_in (fs w) path), w).

Definition with_dirs (f : filesystem) (path : pystr) : filesystem :=
  FileSystem (dirs f ∪ {[path]} ∪ list_to_set (ancestors path)) (files f).

(** [os.makedirs(path)]: creates [path] and the missing directories above
    it; raises when [path] exists already. *)
Definition makedirs (path : pystr) : M unit :=
  fun w =>
    if exists_in (fs w) path then (Raise OSError, w)
    else (Ok tt, World (with_dirs (fs w) path) (net w) (trace w)).

(** [open(path, 'r', encoding='utf-8').read()] *)
Definition read_text (path : pystr) : M pystr :=
  fun w =>
    match files (fs w) !! path with
    | Some (Text s) => (Ok s, w)
    | Some (Binary _) => (Raise UnicodeDecodeError, w)
    | None => (Raise OSError, w)
    end.

Definition with_file (f : filesystem) (path : pystr) (d : file_data) : filesystem :=
  FileSystem (dirs f) (<[path := d]> (files f)).

(** *** What [open] asks of a path

    A path is handed to the system in the file system encoding: a NUL
    character or a lone surrogate in it raises [ValueError] (the escapes
    U+DC80-U+DCFF stand for one byte each).  The system then wants the
    directory of the path to exist, the last component to be a name of at
    most 255 bytes and the path to be shorter than 4096 bytes. *)

Definition is_surrogate (c : N) : bool := ((55296 <=? c) && (c <=? 57343))%N.

Definition is_escape (c : N) : bool := ((56448 <=? c) && (c <=? 56575))%N.

(** The bytes of one character of a path. *)
Definition path_size (c : N) : nat :=
  if is_escape c then 1%nat
  else if (c <? 128)%N then 1%nat
  else if (c <? 2048)%N then 2%nat
  else if (c <? 65536)%N then 3%nat
  else 4%nat.

Definition path_length (s : pystr) : nat :=
  foldr (fun c n => (path_size c + n)%nat) O s.

Definition path_encodable (path : pystr) : bool :=
  forallb (fun c => negb (N.eqb c 0) && (negb (is_surrogate c) || is_escape c))
          path.

(** The last component of a reversed path, reversed. *)
Fixpoint name_rev (r : pystr) : pystr :=
  match r with
  | [] => []
  | c :: r' => if N.eqb c slash then [] else c :: name_rev r'
  end.

(** What precedes the last slash of a reversed path, reversed. *)
Fixpoint dir_rev (r : pystr) : option pystr :=
  match r with
  | [] => None
  | c :: r' => if N.eqb c slash then Some r' else dir_rev r'
  end.

Fixpoint drop_slashes (r : pystr) : pystr :=
  match r with
  | [] => []
  | c :: r' => if N.eqb c slash then drop_slashes r' else r
  end.

(** [os.path.basename(path)] *)
Definition basename (path : pystr) : pystr := rev (name_rev (rev path)).

(** [os.path.dirname(path)]: [None] for a path without a slash (the file is
    in the current directory), [Some []] for a file of the root. *)
Definition dirname (path : pystr) : option pystr :=
  (fun d => rev (drop_slashes d)) <$> dir_rev (rev path).

Definition parent_ok (f : filesystem) (path : pystr) : bool :=
  match dirname path with
  | None | Some [] => true
  | Some d => bool_decide (d ∈ dirs f)
  end.

Definition name_ok (path : pystr) : bool :=
  let name := basename path in
  negb (eqb name []) && negb (eqb name [46%N]) && negb (eqb name [46%N; 46%N])
  && Nat.leb (path_length name) 255 && Nat.ltb (path_length path) 4096.

(** [open(path, 'w')] succeeds. *)
Definition writable (f : filesystem) (path : pystr) : bool :=
  path_encodable path && negb (bool_decide (path ∈ dirs f))
  && parent_ok f path && name_ok path.

(** The text can be encoded as UTF-8: it holds no surrogate. *)
Definition encodable (s : pystr) : bool :=
  forallb (fun c => negb (is_surrogate c)) s.

(** [open(path, 'w' or 'wb')] followed by the writes: the file is created or
    replaced.  Opening raises [OSError] for a directory, for a path whose
    directory is missing and for a name the system refuses.  A text that
    cannot be encoded raises when it is written, after the file has been
    created or emptied. *)
Definition write_file (path : pystr) (d : file_data) : M unit :=
  fun w =>
    let written d' :=
      World (with_file (fs w) path d') (net w) (trace w ++ [WriteFile path]) in
    if negb (path_encodable path) then (Raise ValueError, w)
    else if negb (writable (fs w) path) then (Raise OSError, w)
    else match d with
         | Text s =>
             if encodable s then (Ok tt, written d)
             else (Raise ValueError, written (Text []))
         | Binary _ => (Ok tt, written d)
         end.

(** ** Loops with [break], [continue] and [return] *)

Inductive flow (B R : Type) :=
| Break (b : B)      (* the body left the loop with [break] *)
| Continue           (* the body ended, or said [continue] *)
| Return (r : R).    (* the body returned from the function *)
Arguments Break {B R} b.
Arguments Continue {B R}.
Arguments Return {B R} r.

(** [for i in <indices>: body(i)].  The result is [Continue] when the loop
    ran to its end. *)
Fixpoint for_each {I B R} (body : I -> M (flow B R)) (indices : list I)
  : M (flow B R) :=
  match indices with
  | [] => ret Continue
  | i :: rest =>
      o <- body i ;;
      match o with
      | Continue => for_each body rest
      | _ => ret o
      end
  end.

(** [range(n)] *)
Definition range (n : nat) : list nat := seq 0 n.

(** ** [fetch_json] (source lines 84-136) *)

(** Truth value of a decoded body: only the empty object is false. *)
Definition payload_truthy (data : payload) : bool :=
  match data with
  | Resource [] => false
  | _ => true
  end.

(** Truth value of an optional string: [None] and [''] are false. *)
Definition str_truthy (s : option pystr) : bool :=
  match s with
  | Some (_ :: _) => true
  | _ => false
  end.

(** [None if not all_items else {'value': all_items}] *)
Definition partial_result (all_items : list item) : option payload :=
  match all_items with
  | [] => None
  | _ :: _ => Some (Listing all_items None)
  end.

(** The body of [for i in range(retries)] (lines 98-118).  [Return None]
    is the [return None] of line 114. *)
Definition fetch_attempt (current_url : pystr) (i : nat)
  : M (flow payload (option payload)) :=
  try_except
    (response <- requests_get current_url false ;;
     if status_code response =? 200 then
       ret (Break (json response))
     else if status_code response =? 429 then
       wait_time <- retry_after_seconds response ;;
       time_sleep wait_time ;;;
       ret Continue
     else if status_code response >=? 500 then
       time_sleep (2 ^ Z.of_nat i) ;;;
       ret Continue
     else
       ret (Return None))
    is_request_exception
    (time_sleep (2 ^ Z.of_nat i) ;;; ret Continue).

(** [while current_url:] (lines 95-134), bounded by [fuel] iterations. *)
Fixpoint fetch_pages (fuel retries : nat) (current_url : option pystr)
    (all_items : list item) : M (option payload) :=
  match fuel with
  | O => raise OutOfFuel
  | S fuel' =>
      match current_url with
      | Some ((_ :: _) as url) =>
          o <- for_each (fetch_attempt url) (range retries) ;;
          match o with
          | Return r => ret r
          | Continue => ret (partial_result all_items)
          | Break data =>
              if negb (payload_truthy data) then
                ret (partial_result all_items)
              else
                match data with
                | Listing value next_link =>
                    fetch_pages fuel' retries next_link (all_items ++ value)
                | Resource _ => ret (Some data)
                end
          end
      | _ => ret (Some (Listing all_items None))
      end
  end.

(** The URL after lines 90-92. *)
Definition with_top (url : pystr) (use_pagination : bool) : pystr :=
  if use_pagination && negb (contains (py "$top") url) then
    url ++ (if contains (py "?") url then py "&" else py "?") ++ py "$top=20"
  else url.

(** Every iteration of the [while] loop that goes on has received an
    answer, so one more iteration than there are answers left is enough. *)
Definition fetch_json (url token : pystr) (retries : nat)
    (use_pagination : bool) : M (option payload) :=
  fun w =>
    fetch_pages (S (length (net w))) retries
                (Some (with_top url use_pagination)) [] w.

(** ** [download_file] (source lines 138-158) *)

Definition download_attempt (url save_path : pystr) (i : nat)
  : M (flow unit bool) :=
  try_except
    (response <- requests_get url true ;;
     if status_code response =? 200 then
       write_file save_path (Binary (content response)) ;;;
       ret (Return true)
     else if status_code response =? 429 then
       wait_time <- retry_after_seconds response ;;
       time_sleep wait_time ;;;
       ret Continue
     else if status_code response >=? 500 then
       time_sleep (2 ^ Z.of_nat i) ;;;
       ret Continue
     else
       ret Continue)
    is_exception
    (time_sleep (2 ^ Z.of_nat i) ;;; ret Continue).

Definition download_file (url save_path token : pystr) (retries : nat)
  : M bool :=
  o <- for_each (download_attempt url save_path) (range retries) ;;
  match o with
  | Return r => ret r
  | _ => ret false
  end.

(** ** [process_page_content] (source lines 160-247) *)

(** An [img] or [object] element of the parsed document. *)
Record tag := Tag {
  tag_name : pystr;
  attrs : list (pystr * pystr);
  tag_string : option pystr
}.

(** The collaborators of the exporter: BeautifulSoup and markdownify.
    [find_all] gives the [img] and [object] elements of a document in
    document order; [tag_str] is [str(tag)]; [serialize html tags] is
    [str(soup)] for the document parsed from [html] whose media elements
    have become [tags]; [md] is [markdownify]. *)
Record collaborators := Collaborators {
  find_all : pystr -> list tag;
  tag_str : tag -> pystr;
  serialize : pystr -> list tag -> pystr;
  md : pystr -> pystr
}.

(** [tag.get(key)] *)
Fixpoint tag_get (l : list (pystr * pystr)) (key : pystr) : option pystr :=
  match l with
  | [] => None
  | (k, v) :: l' => if eqb k key then Some v else tag_get l' key
  end.

(** [tag[key] = v] *)
Fixpoint tag_set (l : list (pystr * pystr)) (key v : pystr)
  : list (pystr * pystr) :=
  match l with
  | [] => [(key, v)]
  | (k, v') :: l' =>
      if eqb k key then (k, v) :: l' else (k, v') :: tag_set l' key v
  end.

(** [del tag[key]] *)
Definition tag_del (l : list (pystr * pystr)) (key : pystr)
  : list (pystr * pystr) :=
  filter (fun kv => negb (eqb (fst kv) key)) l.

(** [a or b] on optional strings *)
Definition py_or (a b : option pystr) : option pystr :=
  if str_truthy a then a else b.

(** The candidate source of line 202. *)
Definition media_src (t : tag) : option pystr :=
  py_or (py_or (tag_get (attrs t) (py "data-fullres-src"))
               (tag_get (attrs t) (py "src")))
        (tag_get (attrs t) (py "data")).

(** Line 204 does not [continue]: the element has a source to download. *)
Definition resolvable (t : tag) : bool :=
  match media_src t with
  | Some ((_ :: _) as src) => startswith src (py "http")
  | _ => false
  end.

Definition content_attempt (url : pystr) (i : nat) : M (flow pystr unit) :=
  try_except
    (response <- requests_get url false ;;
     if status_code response =? 200 then
       ret (Break (text response))
     else if status_code response =? 429 then
       wait_time <- retry_after_seconds response ;;
       time_sleep wait_time ;;;
       ret Continue
     else if status_code response >=? 500 then
       time_sleep (2 ^ Z.of_nat i) ;;;
       ret Continue
     else
       ret Continue)
    is_request_exception
    (time_sleep (2 ^ Z.of_nat i) ;;; ret Continue).

(** The label of an attachment link: a paperclip, a space, two Chinese
    characters, a colon and a space, then the attachment's name. *)
Definition attachment_label (attachment_name : pystr) : pystr :=
  [128206; 32; 38468; 20214; 58; 32]%N ++ attachment_name.

(** Lines 212-222. *)
Definition media_filename (env : collaborators) (page_id : pystr) (idx : nat)
    (t : tag) : pystr :=
  let attachment_name := tag_get (attrs t) (py "data-attachment") in
  match attachment_name with
  | Some ((_ :: _) as name) => page_id ++ py "_" ++ sanitize_filename name
  | _ =>
      let ext :=
        if contains (py "image/jpeg") (tag_str env t) then py ".jpg"
        else if contains (py "application/pdf") (tag_str env t) then py ".pdf"
        else py ".png" in
      page_id ++ py "_asset_" ++ of_nat idx ++ ext
  end.

(** Lines 229-245: the element at position [idx] after a download. *)
Definition rewrite_tag (t : tag) (local_rel_path : pystr) : tag :=
  match tag_get (attrs t) (py "data-attachment") with
  | Some ((_ :: _) as name) =>
      Tag (py "a") [(py "href", local_rel_path)] (Some (attachment_label name))
  | _ =>
      if eqb (tag_name t) (py "img") then
        Tag (tag_name t)
            (tag_del (tag_set (attrs t) (py "src") local_rel_path)
                     (py "data-fullres-src"))
            (tag_string t)
      else if eqb (tag_name t) (py "object") then
        Tag (py "img") [(py "src", local_rel_path)] None
      else t
  end.

(** The body of [for idx, tag in enumerate(media_tags)] (lines 199-245);
    [soup] holds the media elements of the tree as they are now. *)
Definition process_tag (env : collaborators) (page_id token assets_dir : pystr)
    (soup : list tag) (entry : nat * tag) : M (list tag) :=
  let '(idx, t) := entry in
  match media_src t with
  | Some ((_ :: _) as src) =>
      if negb (startswith src (py "http")) then ret soup
      else
        let filename := media_filename env page_id idx t in
        let save_path := path_join assets_dir filename in
        ok <- download_file src save_path token 3 ;;
        if ok : bool then
          ret (<[idx := rewrite_tag t (py "assets/" ++ filename)]> soup)
        else ret soup
  | _ => ret soup
  end.

Fixpoint process_media (env : collaborators) (page_id token assets_dir : pystr)
    (media : list (nat * tag)) (soup : list tag) : M (list tag) :=
  match media with
  | [] => ret soup
  | entry :: rest =>
      soup' <- process_tag env page_id token assets_dir soup entry ;;
      process_media env page_id token assets_dir rest soup'
  end.

(** [enumerate(l)] *)
Definition enumerate {A} (l : list A) : list (nat * A) :=
  combine (seq 0 (length l)) l.

Definition content_url (page_id : pystr) : pystr :=
  py "https://graph.microsoft.com/v1.0/me/onenote/pages/" ++ page_id
  ++ py "/content?includeIDs=true&includeInkML=true".

Definition process_page_content (env : collaborators)
    (page_id token assets_dir : pystr) (retries : nat) : M (option pystr) :=
  o <- for_each (content_attempt (content_url page_id)) (range retries) ;;
  match o with
  | Break ((_ :: _) as html_content) =>
      let media_tags := find_all env html_content in
      present <- path_exists assets_dir ;;
      (if present : bool then ret tt else makedirs assets_dir) ;;;
      soup <- process_media env page_id token assets_dir
                            (enumerate media_tags) media_tags ;;
      ret (Some (serialize env html_content soup))
  | _ => ret None
  end.

(** ** The walker: [main] (source lines 249-355) *)

Definition EXPORT_DIR : pystr := py "OneNote_Export".

Definition remote_host : pystr := py "graph.microsoft.com".

Definition api : pystr := py "https://graph.microsoft.com/v1.0/me/onenote/".

(** [for x in l: body(x)] for a body without [break] or [return]. *)
Fixpoint for_ {A} (l : list A) (body : A -> M unit) : M unit :=
  match l with
  | [] => ret tt
  | x :: rest => body x ;;; for_ rest body
  end.

(** [if not os.path.exists(path): os.makedirs(path)] *)
Definition ensure_dir (path : pystr) : M unit :=
  present <- path_exists path ;;
  if present : bool then ret tt else makedirs path.

(** Lines 317-331: the resume decision, [should_download]. *)
Definition should_download (md_file_path assets_dir page_title : pystr)
  : M bool :=
  present <- path_exists md_file_path ;;
  if present : bool then
    try_except
      (content <- read_text md_file_path ;;
       assets <- path_exists assets_dir ;;
       if negb (contains remote_host content) && assets then
         print (MsgSkip page_title) ;;; ret false
       else
         print (MsgRepair page_title) ;;; ret true)
      is_exception
      (ret true)
  else ret true.

(** Lines 305-307. *)
Definition page_title_of (page : item) : pystr :=
  match sanitize_filename (item_name page) with
  | [] => py "Untitled_" ++ item_id page
  | title => title
  end.

(** Lines 336-353: the page is downloaded, converted and written. *)
Definition synchronize_page (env : collaborators)
    (token md_file_path assets_path page_title : pystr) (page : item)
  : M unit :=
  print (MsgDownloadPage page_title) ;;;
  processed <- try_except
                 (html <- process_page_content env (item_id page) token
                                               assets_path 3 ;;
                  ret (Some html))
                 is_exception
                 (ret None) ;;
  match processed with
  | None => ret tt
  | Some (Some ((_ :: _) as processed_html)) =>
      write_file md_file_path (Text (md env processed_html))
  | Some _ => print MsgPageFailed
  end.

(** The body of [for page in all_pages] (lines 304-353). *)
Definition process_page (env : collaborators) (token sec_path assets_path : pystr)
    (page : item) : M unit :=
  let page_title := page_title_of page in
  let md_file_path := path_join sec_path (page_title ++ py ".md") in
  let assets_dir := path_join sec_path (py "assets") in
  download <- should_download md_file_path assets_dir page_title ;;
  if negb download then ret tt
  else synchronize_page env token md_file_path assets_path page_title page.

(** The body of [for sec in all_sections] (lines 281-353). *)
Definition process_section (env : collaborators) (token nb_path : pystr)
    (sec : item) : M unit :=
  let sec_name := sanitize_filename (item_name sec) in
  let sec_path := path_join nb_path sec_name in
  let assets_path := path_join sec_path (py "assets") in
  ensure_dir sec_path ;;;
  let pages_url := api ++ py "sections/" ++ item_id sec
                   ++ py "/pages?$top=20&$select=id,title" in
  pages_data <- fetch_json pages_url token 5 true ;;
  match pages_data with
  | Some (Listing all_pages _) =>
      for_ all_pages (process_page env token sec_path assets_path)
  | _ => ret tt
  end.

(** The body of [for nb in notebooks_data['value']] (lines 265-353). *)
Definition process_notebook (env : collaborators) (token : pystr) (nb : item)
  : M unit :=
  let nb_name := sanitize_filename (item_name nb) in
  let nb_path := path_join EXPORT_DIR nb_name in
  ensure_dir nb_path ;;;
  let sections_url := api ++ py "notebooks/" ++ item_id nb ++ py "/sections" in
  sections_data <- fetch_json sections_url token 5 false ;;
  match sections_data with
  | Some (Listing all_sections _) =>
      for_ all_sections (process_section env token nb_path)
  | _ => ret tt
  end.

(** [main], given the token that [get_access_token] returned. *)
Definition main (env : collaborators) (token : pystr) : M unit :=
  ensure_dir EXPORT_DIR ;;;
  notebooks_data <- fetch_json (api ++ py "notebooks") token 5 false ;;
  match notebooks_data with
  | Some (Listing notebooks _) =>
      for_ notebooks (process_notebook env token)
  | _ => ret tt
  end.

(** ** [get_access_token] (source lines 45-78)

    The MSAL application is outside the script.  Its part is played by
    [user_code_present], whether the flow that [initiate_device_flow]
    returned has a [user_code], and by [script], what the call of
    [acquire_token_by_device_flow] number [i] meets. *)

Module Auth.

(** A call of [acquire_token_by_device_flow]: a result, with its
    [access_token] if it has one and whether its text mentions
    [authorization_pending]; or an exception. *)
Inductive acquire_event :=
| Acquired (access_token : option pystr) (pending : bool)
| AcquireError.

(** How [get_access_token] ends: it returns the token, it raises
    [ValueError] (line 54), or it calls [sys.exit(1)] (lines 72 and 78;
    [SystemExit] is not caught by [except Exception]). *)
Inductive outcome :=
| Token (t : pystr)
| FlowError
| Exit1.

(** [for i in range(max_retries)] (lines 62-75), with the seconds slept so
    far. *)
Fixpoint acquire_loop (attempts : list nat) (script : nat -> acquire_event)
    (slept : list Z) : outcome * list Z :=
  match attempts with
  | [] => (Exit1, slept)
  | i :: rest =>
      match script i with
      | Acquired (Some t) _ => (Token t, slept)
      | Acquired None true => acquire_loop rest script slept
      | Acquired None false => (Exit1, slept)
      | AcquireError => acquire_loop rest script (slept ++ [2])
      end
  end.

Definition max_retries : nat := 3.

Definition get_access_token (user_code_present : bool)
    (script : nat -> acquire_event) : outcome * list Z :=
  if negb user_code_present then (FlowError, [])
  else acquire_loop (range max_retries) script [].

End Auth.

(** * Vocabulary of the statements *)

(** A string that does not begin with white space. *)
Definition head_ok (s : pystr) : Prop :=
  match s with
  | [] => True
  | c :: _ => isspace c = false
  end.

(** ** Retried requests *)

(** The sleep that follows event [e] at attempt [i] of the fetcher when the
    attempt is retried: a transport error and a 5xx answer back off
    exponentially, a 429 answer waits as long as its header says (10 seconds
    without a header).  [None]: the event is not retried this way. *)
Definition backoff (i : nat) (e : net_event) : option Z :=
  match e with
  | Unreachable => Some (2 ^ Z.of_nat i)
  | Answer r =>
      if status_code r =? 200 then None
      else if status_code r =? 429 then
        match retry_after r with
        | None => Some 10
        | Some h => match py_int h with
                    | Some n => if n <? 0 then None else Some n
                    | None => None
                    end
        end
      else if status_code r >=? 500 then Some (2 ^ Z.of_nat i)
      else None
  end.

(** The sleeps of the attempts [i], [i+1], ... that meet [evs]. *)
Fixpoint backoffs (i : nat) (evs : list net_event) : option (list Z) :=
  match evs with
  | [] => Some []
  | e :: evs' =>
      match backoff i e, backoffs (S i) evs' with
      | Some s, Some l => Some (s :: l)
      | _, _ => None
      end
  end.

(** The trace of retried attempts on [url]: a request, then its sleep. *)
Definition retry_trace (url : pystr) (stream : bool) (sleeps : list Z)
  : list action :=
  flat_map (fun s => [Get url stream; Sleep s]) sleeps.

(** ** Pages of a listing fetched with success *)

(** One page of a listing as the fetcher obtained it: the events of the
    attempts that were retried, then the answer that was accepted. *)
Record page_fetch := PageFetch {
  pf_retried : list net_event;
  pf_answer : response
}.

Definition pf_events (p : page_fetch) : list net_event :=
  pf_retried p ++ [Answer (pf_answer p)].

Definition pf_items (p : page_fetch) : list item :=
  match json (pf_answer p) with
  | Listing value _ => value
  | Resource _ => []
  end.

(** The page was accepted within the budget of [retries] attempts and names
    a continuation: fewer than [retries] attempts were retried, the answer
    has status 200 and is a listing with a non-empty next link. *)
Definition pf_ok (retries : nat) (p : page_fetch) : bool :=
  (length (pf_retried p) <? retries)%nat
  && bool_decide (is_Some (backoffs 0 (pf_retried p)))
  && (status_code (pf_answer p) =? 200)
  && match json (pf_answer p) with
     | Listing _ (Some (_ :: _)) => true
     | _ => false
     end.

Definition history_events (h : list page_fetch) : list net_event :=
  flat_map pf_events h.

Definition history_items (h : list page_fetch) : list item :=
  flat_map pf_items h.

(** A status the fetcher does not retry: neither 200, nor 429, nor 5xx. *)
Definition other_status (r : response) : bool :=
  negb (status_code r =? 200) && negb (status_code r =? 429)
  && negb (status_code r >=? 500).

(** How the fetch of a page of a listing fails: all its attempts are
    retried, or an attempt meets a status that is not retried. *)
Inductive page_failure :=
| Exhausted (evs : list net_event)
| Aborted (evs : list net_event) (r : response).

Definition failure_events (f : page_failure) : list net_event :=
  match f with
  | Exhausted evs => evs
  | Aborted evs r => evs ++ [Answer r]
  end.

Definition failure_ok (retries : nat) (f : page_failure) : bool :=
  match f with
  | Exhausted evs =>
      (length evs =? retries)%nat && bool_decide (is_Some (backoffs 0 evs))
  | Aborted evs r =>
      (length evs <? retries)%nat && bool_decide (is_Some (backoffs 0 evs))
      && other_status r
  end.

(** The wait a 429 answer asks for: its [Retry-After] header when that is
    a non-negative integer, 10 seconds without a header. *)
Definition throttle_wait (e : net_event) : option Z :=
  match e with
  | Answer r =>
      if status_code r =? 429 then
        match retry_after r with
        | None => Some 10
        | Some h => match py_int h with
                    | Some n => if n <? 0 then None else Some n
                    | None => None
                    end
        end
      else None
  | Unreachable => None
  end.


(** A 5xx answer. *)
Definition is_server_error (e : net_event) : bool :=
  match e with
  | Answer r => 500 <=? status_code r
  | Unreachable => false
  end.

(** An answer with a status that is not retried. *)
Definition is_other_answer (e : net_event) : bool :=
  match e with
  | Answer r => other_status r
  | Unreachable => false
  end.

(** ** Sample data *)

Definition answer (status : Z) : response :=
  Response status None (Resource []) [] [].

Definition throttled (header : option pystr) : response :=
  Response 429 header (Resource []) [] [].

Definition json_answer (data : payload) : response :=
  Response 200 None data [] [].

Definition text_answer (t : pystr) : response :=
  Response 200 None (Resource []) t [].

Definition bytes_answer (b : list N) : response :=
  Response 200 None (Resource []) [] b.

Definition empty_fs : filesystem := FileSystem ∅ ∅.

Definition token0 : pystr := py "token".

Definition item_a : item := Item (py "1") (py "A").

Definition listing_url : pystr := api ++ py "sections/7/pages".

Definition next_url : pystr := api ++ py "sections/7/pages?$skip=20".

Definition first_page : response :=
  json_answer (Listing [item_a] (Some next_url)).

Definition last_page : response :=
  json_answer (Listing [item_a] None).

(** ** The resume decision, in the words of the specification *)

Inductive sync_state := Unsynced | PartiallySynced | Synced.

(** [classify output_exists assets_dir_exists content]: the page is
    Unsynced when its output file does not exist; PartiallySynced when the
    file exists but the assets directory is missing or the content still
    holds the name of the remote host; Synced when the file exists, the
    assets directory exists and the content holds no such name. *)
Definition classify (output_exists assets_dir_exists : bool) (content : pystr)
  : sync_state :=
  if negb output_exists then Unsynced
  else if negb assets_dir_exists || contains remote_host content
       then PartiallySynced
       else Synced.

(** What the output file of a page looks like: [None] when nothing exists
    at its path, [Some content] when it is a text file that reads back as
    [content]. *)
Definition output_is (f : filesystem) (md_file_path : pystr)
    (o : option pystr) : Prop :=
  match o with
  | None => exists_in f md_file_path = false
  | Some content => files f !! md_file_path = Some (Text content)
  end.

Definition md_path_of (sec_path : pystr) (page : item) : pystr :=
  path_join sec_path (page_title_of page ++ py ".md").

Definition assets_of (sec_path : pystr) : pystr :=
  path_join sec_path (py "assets").

(** The world after one more action in the trace. *)
Definition logged (w : world) (a : action) : world :=
  World (fs w) (net w) (trace w ++ [a]).

(** Stand-ins for the collaborators, for the examples: a document without
    media elements, converted to itself. *)
Definition plain_env : collaborators :=
  Collaborators (fun _ => []) (fun _ => []) (fun html _ => html) (fun s => s).

Definition assets_dir0 : pystr := py "OneNote_Export/Work/Ideas/assets".

(** ** The remote hierarchy and a run that finds everything in place *)

(** A listing as the service delivers it: pages of items that each name a
    next link, then a last page without one. *)
Record listing := ListingPages {
  chunks : list (list item * pystr);
  final : list item
}.

Definition listing_items (l : listing) : list item :=
  flat_map fst (chunks l) ++ final l.

Definition listing_events (l : listing) : list net_event :=
  map (fun c => Answer (json_answer (Listing c.1 (Some c.2)))) (chunks l)
  ++ [Answer (json_answer (Listing (final l) None))].

(** The requests that fetch the listing from [url]. *)
Definition listing_trace (url : pystr) (l : listing) : list action :=
  Get url false :: map (fun c => Get c.2 false) (chunks l).

(** Every next link is a non-empty string. *)
Definition listing_ok (l : listing) : bool :=
  forallb (fun c => negb (eqb c.2 [])) (chunks l).

(** The notebooks, the sections of each notebook and the pages of each
    section. *)
Record remote := Remote {
  notebooks : listing;
  sections_of : item -> listing;
  pages_of : item -> item -> listing
}.

Definition notebooks_url : pystr := api ++ py "notebooks".

Definition sections_url (nb : item) : pystr :=
  api ++ py "notebooks/" ++ item_id nb ++ py "/sections".

Definition pages_url (sec : item) : pystr :=
  api ++ py "sections/" ++ item_id sec ++ py "/pages?$top=20&$select=id,title".

Definition nb_path_of (nb : item) : pystr :=
  path_join EXPORT_DIR (sanitize_filename (item_name nb)).

Definition sec_path_of (nb sec : item) : pystr :=
  path_join (nb_path_of nb) (sanitize_filename (item_name sec)).

(** The answers of the service to a run that only fetches the listings. *)
Definition section_events (r : remote) (nb sec : item) : list net_event :=
  listing_events (pages_of r nb sec).

Definition notebook_events (r : remote) (nb : item) : list net_event :=
  listing_events (sections_of r nb)
  ++ flat_map (section_events r nb) (listing_items (sections_of r nb)).

Definition remote_events (r : remote) : list net_event :=
  listing_events (notebooks r)
  ++ flat_map (notebook_events r) (listing_items (notebooks r)).

(** The page is Synced: its output file is a text file without the name of
    the remote host, and the assets directory of its section exists. *)
Definition page_synced (f : filesystem) (sec_path : pystr) (page : item)
  : bool :=
  match files f !! md_path_of sec_path page with
  | Some (Text content) =>
      negb (contains remote_host content) && exists_in f (assets_of sec_path)
  | _ => false
  end.

Definition section_synced (r : remote) (f : filesystem) (nb sec : item)
  : bool :=
  listing_ok (pages_of r nb sec)
  && forallb (page_synced f (sec_path_of nb sec))
             (listing_items (pages_of r nb sec)).

Definition notebook_synced (r : remote) (f : filesystem) (nb : item) : bool :=
  listing_ok (sections_of r nb)
  && forallb (section_synced r f nb) (listing_items (sections_of r nb)).

(** Every page of the hierarchy is Synced (and the listings are well
    formed). *)
Definition all_synced (r : remote) (f : filesystem) : bool :=
  listing_ok (notebooks r)
  && forallb (notebook_synced r f) (listing_items (notebooks r)).

(** The trace of a run that fetches the listings and skips every page. *)
Definition section_skip_trace (r : remote) (nb sec : item) : list action :=
  listing_trace (pages_url sec) (pages_of r nb sec)
  ++ map (fun page => Printed (MsgSkip (page_title_of page)))
         (listing_items (pages_of r nb sec)).

Definition notebook_skip_trace (r : remote) (nb : item) : list action :=
  listing_trace (sections_url nb) (sections_of r nb)
  ++ flat_map (section_skip_trace r nb) (listing_items (sections_of r nb)).

Definition skip_trace (r : remote) : list action :=
  listing_trace notebooks_url (notebooks r)
  ++ flat_map (notebook_skip_trace r) (listing_items (notebooks r)).

(** [f'] has the files of [f] and at least its directories. *)
Definition extends (f f' : filesystem) : Prop :=
  files f' = files f /\ dirs f ⊆ dirs f'.

(** An action that is neither a request of the downloader (they are the
    streamed ones) nor the write of a file. *)
Definition quiet (a : action) : bool :=
  match a with
  | Get _ stream => negb stream
  | WriteFile _ => false
  | _ => true
  end.

(** Stand-ins for the collaborators, for the examples: a document whose
    only element is an image at a remote address; it is serialized from its
    elements, and converted to itself. *)
Definition image_url : pystr :=
  py "https://graph.microsoft.com/v1.0/me/onenote/resources/r1/$value".

Definition render_tag (t : tag) : pystr :=
  py "<" ++ tag_name t
  ++ flat_map (fun kv => py " " ++ kv.1 ++ py "=" ++ kv.2) (attrs t)
  ++ py ">" ++ default [] (tag_string t).

Definition image_env : collaborators :=
  Collaborators (fun _ => [Tag (py "img") [(py "src", image_url)] None])
                render_tag
                (fun _ tags => flat_map render_tag tags)
                (fun s => s).

(** A notebook Work with a section Ideas and a page Plan. *)
Definition nb_work : item := Item (py "n1") (py "Work").
Definition sec_ideas : item := Item (py "s1") (py "Ideas").
Definition page_plan : item := Item (py "p1") (py "Plan").

Definition small_remote : remote :=
  Remote (ListingPages [] [nb_work])
         (fun _ => ListingPages [] [sec_ideas])
         (fun _ _ => ListingPages [] [page_plan]).

Definition plan_md : pystr := py "OneNote_Export/Work/Ideas/Plan.md".

(** ** Sleeps and directories *)

(** The wait that [e] asks for, if it is a 429 answer that asks for one, is
    within what the platform can sleep. *)
Definition sleepable (e : net_event) : bool :=
  match throttle_wait e with
  | Some n => n <=? max_sleep
  | None => true
  end.

(** The file system after [if not os.path.exists(path): os.makedirs(path)]. *)
Definition ensured (f : filesystem) (path : pystr) : filesystem :=
  if exists_in f path then f else with_dirs f path.

(** Something exists at [path], or the directory can be made there: the
    directory above exists and the name is one the system takes. *)
Definition dir_ready (f : filesystem) (path : pystr) : bool :=
  exists_in f path || writable f path.


(** ** Vocabulary of the further properties *)

(** The last character of a string is no white space. *)
Definition last_ok (s : pystr) : Prop := head_ok (rev s).

(** An event that does not end the retry loop with an accepted answer. *)
Definition not_accepted (e : net_event) : bool :=
  match e with
  | Answer r => negb (status_code r =? 200)
  | Unreachable => true
  end.

(** What attempt [i] of the downloader does after its request has met [e],
    an event that is not accepted: it backs off after a transport error and
    after a 5xx answer; after a 429 answer it waits as asked, and backs off
    when the header cannot be used; after any other status it goes on at
    once. *)
Definition download_pause (i : nat) (e : net_event) : list action :=
  match e with
  | Unreachable => [Sleep (2 ^ Z.of_nat i)]
  | Answer r =>
      if status_code r =? 429 then
        match throttle_wait e with
        | Some n => [Sleep n]
        | None => [Sleep (2 ^ Z.of_nat i)]
        end
      else if status_code r >=? 500 then [Sleep (2 ^ Z.of_nat i)]
      else []
  end.

(** The trace of the attempts [i], [i+1], ... of the downloader that meet
    [evs]. *)
Fixpoint download_trace (url : pystr) (i : nat) (evs : list net_event)
  : list action :=
  match evs with
  | [] => []
  | e :: evs' =>
      Get url true :: download_pause i e ++ download_trace url (S i) evs'
  end.

(** The same for the retrieval of the content of a page, which does not
    catch what a 429 answer with an unusable header raises: [None]. *)
Definition content_pause (i : nat) (e : net_event) : option (list action) :=
  match e with
  | Unreachable => Some [Sleep (2 ^ Z.of_nat i)]
  | Answer r =>
      if status_code r =? 200 then None
      else if status_code r =? 429 then
        match throttle_wait e with
        | Some n => Some [Sleep n]
        | None => None
        end
      else if status_code r >=? 500 then Some [Sleep (2 ^ Z.of_nat i)]
      else Some []
  end.

Fixpoint content_trace (url : pystr) (i : nat) (evs : list net_event)
  : option (list action) :=
  match evs with
  | [] => Some []
  | e :: evs' =>
      match content_pause i e, content_trace url (S i) evs' with
      | Some p, Some t => Some (Get url false :: p ++ t)
      | _, _ => None
      end
  end.


(** The largest budget of attempts whose backoffs the platform can all
    sleep: 2^33 seconds is within [max_sleep], 2^34 is not. *)
Definition max_backoff_budget : nat := 34.

(** The last page of a listing as the fetcher obtained it: accepted within
    the budget, with status 200. *)
Definition pf_accepted (retries : nat) (p : page_fetch) : bool :=
  (length (pf_retried p) <? retries)%nat
  && bool_decide (is_Some (backoffs 0 (pf_retried p)))
  && (status_code (pf_answer p) =? 200).

(** [f'] differs from [f] at most by the file at [path]. *)
Definition differs_at (path : pystr) (f f' : filesystem) : Prop :=
  dirs f' = dirs f /\
  forall p, p <> path -> files f' !! p = files f !! p.

(** The value of a string of decimal digits. *)
Definition decimal_value (s : pystr) : nat :=
  fold_left (fun acc c => (10 * acc + (N.to_nat c - 48))%nat) s 0%nat.

(** The element is an inline image or an object without attachment name. *)
Definition is_attachment (t : tag) : bool :=
  str_truthy (tag_get (attrs t) (py "data-attachment")).

(** What the fetcher may add to the trace: requests that are not streamed,
    and sleeps. *)
Definition fetch_action (a : action) : bool :=
  match a with
  | Get _ stream => negb stream
  | Sleep _ => true
  | _ => false
  end.

(** [w'] comes after [w] by requests that are not streamed and sleeps only:
    same file system, some answers consumed. *)
Definition fetched (w w' : world) : Prop :=
  fs w' = fs w /\
  (exists k, net w' = drop k (net w)) /\
  (exists tr, trace w' = trace w ++ tr /\ forallb fetch_action tr = true).

(** The calls of [acquire_token_by_device_flow] that [get_access_token]
    makes among [attempts]: a call is followed by the next one when it
    raised or when its result is pending; a token and any other result end
    the loop. *)
Fixpoint calls_made (attempts : list nat) (script : nat -> Auth.acquire_event)
  : list nat :=
  match attempts with
  | [] => []
  | i :: rest =>
      i :: match script i with
           | Auth.AcquireError | Auth.Acquired None true =>
               calls_made rest script
           | _ => []
           end
  end.

(** The call number [i] raised. *)
Definition raised (script : nat -> Auth.acquire_event) (i : nat) : bool :=
  match script i with
  | Auth.AcquireError => true
  | _ => false
  end.

(** The sleep that follows the call number [i]: two seconds when it raised,
    none otherwise. *)
Definition sleep_after (script : nat -> Auth.acquire_event) (i : nat)
  : list Z :=
  if raised script i then [2] else [].

(** ** A first run in which everything succeeds *)

(** What the service does when a page is synchronized: what the attempts
    meet before the content is retrieved, the content, and, for the media
    element at each position of the document, what the attempts meet
    before the download succeeds and the bytes that are downloaded. *)
Record page_data := PageData {
  pd_retried : list net_event;
  pd_html : pystr;
  pd_media : nat -> list net_event * list N
}.

(** Attempts that are retried and leave one of the three attempts for the
    success: none of them is accepted, and the waits that the 429 answers
    among them ask for are within what the platform can sleep. *)
Definition retried_ok (evs : list net_event) : bool :=
  (length evs <? 3)%nat && forallb not_accepted evs && forallb sleepable evs.

(** The output paths of all the pages of the hierarchy. *)
Definition md_paths (r : remote) : list pystr :=
  flat_map (fun nb =>
    flat_map (fun sec =>
      map (md_path_of (sec_path_of nb sec))
          (listing_items (pages_of r nb sec)))
      (listing_items (sections_of r nb)))
    (listing_items (notebooks r)).

(** The media loop of a page when every download succeeds: the elements
    of the document, the file system and the answers of the service
    afterwards.  Each element with a source to download is stored in the
    assets directory, after attempts that are retried or at once, and is
    rewritten.  [None]: a download does not succeed, a file cannot be
    written where it should go, or it would replace the output file of a
    page. *)
Fixpoint stored_media (env : collaborators) (page_id assets_dir : pystr)
    (protected : list pystr) (media_data : nat -> list net_event * list N)
    (media : list (nat * tag)) (soup : list tag) (f : filesystem)
  : option (list tag * filesystem * list net_event) :=
  match media with
  | [] => Some (soup, f, [])
  | (idx, t) :: media' =>
      if resolvable t then
        let filename := media_filename env page_id idx t in
        let save_path := path_join assets_dir filename in
        let retried := (media_data idx).1 in
        let body := (media_data idx).2 in
        if retried_ok retried && writable f save_path
           && negb (bool_decide (save_path ∈ protected))
        then
          match stored_media env page_id assets_dir protected media_data
                  media'
                  (<[idx := rewrite_tag t (py "assets/" ++ filename)]> soup)
                  (with_file f save_path (Binary body)) with
          | Some (soup', f', evs) =>
              Some (soup', f', retried ++ Answer (bytes_answer body) :: evs)
          | None => None
          end
        else None
      else stored_media env page_id assets_dir protected media_data media'
                        soup f
  end.

(** The visit of a page in such a run, from the file system [f]: the file
    system afterwards and the answers the visit uses.  A Synced page is
    skipped.  Any other page is synchronized: its content is retrieved,
    after attempts that are retried or at once, and is not empty; its media
    are stored; its converted text, which does not hold the name of the
    remote host, is written.  [None]: the page is not Synced and one of
    these steps would not succeed. *)
Definition page_run (env : collaborators) (protected : list pystr)
    (c : item -> page_data) (sec_path : pystr) (page : item) (f : filesystem)
  : option (filesystem * list net_event) :=
  if page_synced f sec_path page then Some (f, [])
  else
    let retried := pd_retried (c page) in
    let html := pd_html (c page) in
    let assets := assets_of sec_path in
    let tags := find_all env html in
    if retried_ok retried
       && bool_decide (is_Some (content_trace (content_url (item_id page)) 0
                                              retried))
       && negb (eqb html []) && dir_ready f assets then
      match stored_media env (item_id page) assets protected
              (pd_media (c page)) (enumerate tags) tags (ensured f assets) with
      | Some (soup, f', evs) =>
          let processed := serialize env html soup in
          let out := md env processed in
          if negb (eqb processed []) && negb (contains remote_host out)
             && encodable out && writable f' (md_path_of sec_path page)
          then Some (with_file f' (md_path_of sec_path page) (Text out),
                     retried ++ Answer (text_answer html) :: evs)
          else None
      | None => None
      end
    else None.

(** The visits of the elements of [l] one after the other. *)
Fixpoint in_turn {A} (visit : A -> filesystem ->
                              option (filesystem * list net_event))
    (l : list A) (f : filesystem) : option (filesystem * list net_event) :=
  match l with
  | [] => Some (f, [])
  | x :: l' =>
      match visit x f with
      | Some (f1, evs1) =>
          match in_turn visit l' f1 with
          | Some (f2, evs2) => Some (f2, evs1 ++ evs2)
          | None => None
          end
      | None => None
      end
  end.

(** A directory is ensured, a listing is delivered at the first attempts,
    and its items are visited. *)
Definition listed_run (path : pystr) (l : listing)
    (visit : item -> filesystem -> option (filesystem * list net_event))
    (f : filesystem) : option (filesystem * list net_event) :=
  if dir_ready f path && listing_ok l then
    match in_turn visit (listing_items l) (ensured f path) with
    | Some (f', evs) => Some (f', listing_events l ++ evs)
    | None => None
    end
  else None.

Definition section_run (env : collaborators) (protected : list pystr)
    (r : remote) (c : item -> page_data) (nb sec : item) (f : filesystem)
  : option (filesystem * list net_event) :=
  listed_run (sec_path_of nb sec) (pages_of r nb sec)
             (page_run env protected c (sec_path_of nb sec)) f.

Definition notebook_run (env : collaborators) (protected : list pystr)
    (r : remote) (c : item -> page_data) (nb : item) (f : filesystem)
  : option (filesystem * list net_event) :=
  listed_run (nb_path_of nb) (sections_of r nb)
             (section_run env protected r c nb) f.

(** A run of the walker over the hierarchy [r], the service behaving as
    [c] says for the pages, from the file system [f]: every listing is
    delivered and every page that is not Synced when it is visited is
    synchronized with success.  The result is the file system the run
    leaves and the answers it uses. *)
Definition successful_run (env : collaborators) (r : remote)
    (c : item -> page_data) (f : filesystem)
  : option (filesystem * list net_event) :=
  listed_run EXPORT_DIR (notebooks r)
             (notebook_run env (md_paths r) r c) f.

(** The file at [path] is a text file without the name of the remote
    host. *)
Definition clean_text (f : filesystem) (path : pystr) : bool :=
  match files f !! path with
  | Some (Text content) => negb (contains remote_host content)
  | _ => false
  end.

(** From [f] to [f'] nothing that exists disappears, and the output files
    among [protected] that are clean text files stay so. *)
Definition grows (protected : list pystr) (f f' : filesystem) : Prop :=
  (forall p, exists_in f p = true -> exists_in f' p = true) /\
  (forall p, In p protected -> clean_text f p = true -> clean_text f' p = true).

(** The shape of the three levels of the walker: a directory is ensured, a
    listing is fetched, its items are visited. *)
Definition listed_walk (token path url : pystr) (use_pagination : bool)
    (body : item -> M unit) : M unit :=
  (ensure_dir path ;;;
   data <- fetch_json url token 5 use_pagination ;;
   match data with
   | Some (Listing items _) => for_ items body
   | _ => ret tt
   end)%py.

(** A page with an image, for the examples: the content is retrieved at
    the second attempt, the image at the third. *)
Definition image_page (_ : item) : page_data :=
  PageData [Answer (answer 503)] (py "<img>")
           (fun _ => ([Unreachable; Answer (answer 404)], [1; 2]%N)).

(** * Properties of the model *)

(** ** Writing a file *)

(** What [open] asks of a path regards its directories only. *)
Lemma writable_dirs (f f' : filesystem) (path : pystr) :
  dirs f = dirs f' -> writable f path = writable f' path.
Proof. intros H. unfold writable, parent_ok. by rewrite H. Qed.

Lemma writable_with_file (f : filesystem) (p path : pystr) (d : file_data) :
  writable (with_file f p d) path = writable f path.
Proof. by apply writable_dirs. Qed.

Lemma writable_not_dir (f : filesystem) (path : pystr) :
  writable f path = true -> path ∉ dirs f.
Proof.
  unfold writable. intros H.
  apply andb_prop in H as [H _]. apply andb_prop in H as [H _].
  apply andb_prop in H as [_ H]. apply negb_true_iff in H.
  by apply bool_decide_eq_false in H.
Qed.

Lemma directory_not_writable (f : filesystem) (path : pystr) :
  path ∈ dirs f -> writable f path = false.
Proof.
  intros H. destruct (writable f path) eqn:E; [|done].
  by apply writable_not_dir in E.
Qed.

(** The bytes of a download are written where [open] succeeds. *)
Lemma write_file_binary (path : pystr) (b : list N) (w : world) :
  writable (fs w) path = true ->
  write_file path (Binary b) w
  = (Ok tt, World (with_file (fs w) path (Binary b)) (net w)
                  (trace w ++ [WriteFile path])).
Proof.
  intros H. unfold write_file. rewrite H.
  unfold writable in H. do 3 apply andb_prop in H as [H _]. by rewrite H.
Qed.

Lemma write_file_text (path s : pystr) (w : world) :
  writable (fs w) path = true -> encodable s = true ->
  write_file path (Text s) w
  = (Ok tt, World (with_file (fs w) path (Text s)) (net w)
                  (trace w ++ [WriteFile path])).
Proof.
  intros H Hs. unfold write_file. rewrite H, Hs.
  unfold writable in H. do 3 apply andb_prop in H as [H _]. by rewrite H.
Qed.

(** Where [open] fails, nothing is written. *)
Lemma write_file_refused (path : pystr) (d : file_data) (w : world) :
  writable (fs w) path = false ->
  exists e, is_exception e = true /\ write_file path d w = (Raise e, w).
Proof.
  intros H. unfold write_file. rewrite H.
  destruct (path_encodable path); simpl;
    [by exists OSError | by exists ValueError].
Qed.

Lemma exists_in_with_file f path d q :
  exists_in f q = true -> exists_in (with_file f path d) q = true.
Proof.
  unfold exists_in, with_file. simpl. rewrite !orb_true_iff.
  intros [H|H]; [by left|right].
  apply bool_decide_eq_true in H. apply bool_decide_eq_true.
  destruct (decide (path = q)) as [->|Hne].
  - rewrite lookup_insert_eq. by eexists.
  - by rewrite lookup_insert_ne.
Qed.

Lemma exists_in_with_dirs f path : exists_in (with_dirs f path) path = true.
Proof.
  unfold exists_in, with_dirs. simpl. apply orb_true_iff. left.
  apply bool_decide_eq_true. set_solver.
Qed.

Lemma exists_in_ensured f path : exists_in (ensured f path) path = true.
Proof.
  unfold ensured. destruct (exists_in f path) eqn:He; [done|].
  apply exists_in_with_dirs.
Qed.


(** * Properties *)

(** ** The sanitizer *)

Lemma lstrip_head_ok s : head_ok (lstrip s).
Proof.
  induction s as [|c s IH]; simpl; [done|].
  destruct (isspace c) eqn:E; [done|]. exact E.
Qed.

Lemma lstrip_fixed s : head_ok s -> lstrip s = s.
Proof. destruct s as [|c s]; simpl; [done|]. by intros ->. Qed.

Lemma lstrip_split s : exists sp, s = sp ++ lstrip s.
Proof.
  induction s as [|c s [sp IH]]; simpl.
  - by exists [].
  - destruct (isspace c).
    + exists (c :: sp). simpl. by f_equal.
    + by exists [].
Qed.

Lemma rstrip_split s : exists sp, s = rstrip s ++ sp.
Proof.
  unfold rstrip. destruct (lstrip_split (rev s)) as [sp E].
  exists (rev sp). rewrite <- rev_app_distr, <- E. by rewrite rev_involutive.
Qed.

Lemma rstrip_fixed s : head_ok (rev s) -> rstrip s = s.
Proof.
  intros H. unfold rstrip. rewrite lstrip_fixed by done.
  apply rev_involutive.
Qed.

Lemma rstrip_last_ok s : head_ok (rev (rstrip s)).
Proof. unfold rstrip. rewrite rev_involutive. apply lstrip_head_ok. Qed.

Lemma rstrip_head_ok s : head_ok s -> head_ok (rstrip s).
Proof.
  intros H. destruct (rstrip_split s) as [sp E].
  destruct (rstrip s) as [|c r]; [done|].
  rewrite E in H. exact H.
Qed.

Lemma strip_idempotent s : strip (strip s) = strip s.
Proof.
  unfold strip. rewrite (lstrip_fixed (rstrip (lstrip s))).
  - apply rstrip_fixed, rstrip_last_ok.
  - apply rstrip_head_ok, lstrip_head_ok.
Qed.

Lemma strip_Forall (P : N -> Prop) s : Forall P s -> Forall P (strip s).
Proof.
  intros H. unfold strip.
  destruct (lstrip_split s) as [sp1 E1].
  destruct (rstrip_split (lstrip s)) as [sp2 E2].
  rewrite E1, E2 in H.
  apply Forall_app in H as [_ H]. by apply Forall_app in H as [H _].
Qed.

Lemma re_sub_reserved_clean name :
  Forall (fun c => is_reserved c = false) (re_sub_reserved name).
Proof.
  unfold re_sub_reserved. apply Forall_map, Forall_forall. intros c _. simpl.
  destruct (is_reserved c) eqn:E; [reflexivity | exact E].
Qed.

Lemma re_sub_reserved_fixed name :
  Forall (fun c => is_reserved c = false) name -> re_sub_reserved name = name.
Proof.
  unfold re_sub_reserved. induction 1 as [|c s Hc _ IH]; simpl; [done|].
  by rewrite Hc, IH.
Qed.

Lemma is_reserved_spec c : is_reserved c = false <-> c ∉ reserved_chars.
Proof.
  unfold is_reserved. rewrite <- not_true_iff_false, existsb_exists.
  split.
  - intros H Hin. apply H. exists c. split; [by apply list_elem_of_In|].
    apply N.eqb_refl.
  - intros H (x & Hin & Hx). apply N.eqb_eq in Hx as ->.
    by apply H, list_elem_of_In.
Qed.

(** C7.  Sanitizing is idempotent, and a sanitized name holds none of the
    reserved characters (backslash, slash, star, question mark, colon,
    double quote, less-than, greater-than, bar).  [sanitize_filename] is a
    function defined on every string, so it is total. *)
Theorem sanitize_filename_idempotent_clean (x : pystr) :
  sanitize_filename (sanitize_filename x) = sanitize_filename x /\
  Forall (fun c => c ∉ reserved_chars) (sanitize_filename x).
Proof.
  assert (Hclean : Forall (fun c => is_reserved c = false) (sanitize_filename x)).
  { apply strip_Forall, re_sub_reserved_clean. }
  split.
  - unfold sanitize_filename at 1.
    rewrite (re_sub_reserved_fixed _ Hclean).
    apply strip_idempotent.
  - eapply Forall_impl; [exact Hclean|]. intros c. apply is_reserved_spec.
Qed.

(** ** The retry loop of the fetcher *)

Lemma world_eta w : World (fs w) (net w) (trace w) = w.
Proof. by destruct w. Qed.

Lemma pow2_sleep i : (2 ^ Z.of_nat i <? 0) = false.
Proof. apply Z.ltb_ge. apply Z.pow_nonneg. lia. Qed.

Lemma time_sleep_pow2 i w :
  time_sleep (2 ^ Z.of_nat i) w
  = (Ok tt, World (fs w) (net w) (trace w ++ [Sleep (2 ^ Z.of_nat i)])).
Proof. unfold time_sleep. by rewrite pow2_sleep. Qed.

Lemma backoff_nonneg i e s : backoff i e = Some s -> (s <? 0) = false.
Proof.
  unfold backoff. intros H.
  destruct e as [r|]; [|injection H as <-; apply pow2_sleep].
  destruct (status_code r =? 200); [done|].
  destruct (status_code r =? 429).
  - destruct (retry_after r) as [h|]; [|by injection H as <-].
    destruct (py_int h) as [n|]; [|done].
    destruct (n <? 0) eqn:E; [done|]. by injection H as <-.
  - destruct (status_code r >=? 500); [|done].
    injection H as <-. apply pow2_sleep.
Qed.

(** An attempt that meets a retried event requests, sleeps and goes on. *)
Lemma fetch_attempt_retried url i e s w rest :
  net w = e :: rest -> backoff i e = Some s ->
  fetch_attempt url i w
  = (Ok Continue, World (fs w) rest (trace w ++ [Get url false; Sleep s])).
Proof.
  intros Hnet Hb. pose proof (backoff_nonneg _ _ _ Hb) as Hs.
  unfold fetch_attempt, try_except, bind, requests_get. rewrite Hnet.
  unfold backoff in Hb. destruct e as [r|]; simpl.
  - destruct (status_code r =? 200); [done|].
    destruct (status_code r =? 429).
    + unfold retry_after_seconds, time_sleep.
      destruct (retry_after r) as [h|].
      * destruct (py_int h) as [n|]; [|done].
        destruct (n <? 0) eqn:E; [done|]. injection Hb as <-.
        unfold ret. rewrite E. unfold log. simpl. by rewrite <- app_assoc.
      * injection Hb as <-. unfold ret, log. simpl. by rewrite <- app_assoc.
    + destruct (status_code r >=? 500); [|done]. injection Hb as <-.
      rewrite time_sleep_pow2. simpl. unfold ret. by rewrite <- app_assoc.
  - injection Hb as <-. rewrite time_sleep_pow2. simpl. unfold ret.
    by rewrite <- app_assoc.
Qed.

Lemma fetch_attempt_accepted url i r w rest :
  net w = Answer r :: rest -> status_code r = 200 ->
  fetch_attempt url i w
  = (Ok (Break (json r)), World (fs w) rest (trace w ++ [Get url false])).
Proof.
  intros Hnet Hs. unfold fetch_attempt, try_except, bind, requests_get.
  rewrite Hnet. simpl. by rewrite Hs.
Qed.

Lemma fetch_attempt_aborted url i r w rest :
  net w = Answer r :: rest -> other_status r = true ->
  fetch_attempt url i w
  = (Ok (Return None), World (fs w) rest (trace w ++ [Get url false])).
Proof.
  intros Hnet Hs. unfold fetch_attempt, try_except, bind, requests_get.
  rewrite Hnet. simpl. unfold other_status in Hs.
  destruct (status_code r =? 200); [done|].
  destruct (status_code r =? 429); [done|].
  by destruct (status_code r >=? 500).
Qed.

(** The retried attempts at the head of the loop: after them the loop goes
    on with the attempts that are left. *)
Lemma fetch_retry_prefix url evs : forall a sleeps m w rest,
  backoffs a evs = Some sleeps ->
  net w = evs ++ rest ->
  for_each (fetch_attempt url) (seq a (length evs + m)) w
  = for_each (fetch_attempt url) (seq (a + length evs) m)
             (World (fs w) rest (trace w ++ retry_trace url false sleeps)).
Proof.
  induction evs as [|e evs IH]; intros a sleeps m w rest Hb Hnet.
  - injection Hb as <-. simpl in *. rewrite Nat.add_0_r, app_nil_r.
    rewrite <- Hnet. by rewrite world_eta.
  - simpl in Hb. destruct (backoff a e) as [s|] eqn:Hs; [|done].
    destruct (backoffs (S a) evs) as [l|] eqn:Hl; [|done].
    injection Hb as <-. simpl. unfold bind at 1.
    rewrite (fetch_attempt_retried url a e s w (evs ++ rest) Hnet Hs).
    rewrite (IH (S a) l m
               (World (fs w) (evs ++ rest)
                      (trace w ++ [Get url false; Sleep s])) rest Hl eq_refl).
    simpl. rewrite <- app_assoc. simpl.
    by replace (a + S (length evs))%nat with (S (a + length evs)) by lia.
Qed.

Lemma range_split (k m : nat) : range (k + m) = seq 0 k ++ seq k m.
Proof. unfold range. by rewrite seq_app. Qed.

(** A page obtained within the budget: the loop leaves with its body. *)
Lemma fetch_page_accepted url retries p w rest :
  pf_ok retries p = true ->
  net w = pf_events p ++ rest ->
  exists tr,
    for_each (fetch_attempt url) (range retries) w
    = (Ok (Break (json (pf_answer p))), World (fs w) rest (trace w ++ tr)).
Proof.
  unfold pf_ok, pf_events. intros Hok Hnet.
  repeat (apply andb_prop in Hok as [Hok ?]).
  apply Nat.ltb_lt in Hok.
  match goal with H : bool_decide _ = true |- _ =>
    apply bool_decide_eq_true in H as [sleeps Hsl] end.
  match goal with H : (_ =? 200) = true |- _ => apply Z.eqb_eq in H end.
  rewrite <- app_assoc in Hnet.
  replace retries
    with (length (pf_retried p) + S (retries - S (length (pf_retried p))))%nat
    by lia.
  unfold range.
  rewrite (fetch_retry_prefix url _ 0 sleeps _ w _ Hsl Hnet). simpl.
  unfold bind at 1.
  erewrite fetch_attempt_accepted; [|reflexivity|done]. simpl.
  eexists. unfold ret. by rewrite <- app_assoc.
Qed.

(** The loop over the pages of a history: the items pile up and the loop
    stands at a further, non-empty, link. *)
Lemma fetch_pages_history retries h : forall fuel url acc w rest,
  Forall (fun p => pf_ok retries p = true) h ->
  url <> [] ->
  (length h < fuel)%nat ->
  net w = history_events h ++ rest ->
  exists url' tr,
    url' <> [] /\
    fetch_pages fuel retries (Some url) acc w
    = fetch_pages (fuel - length h) retries (Some url')
                  (acc ++ history_items h)
                  (World (fs w) rest (trace w ++ tr)).
Proof.
  induction h as [|p h IH]; intros fuel url acc w rest Hall Hurl Hfuel Hnet.
  - exists url, []. split; [done|]. simpl in *.
    rewrite Nat.sub_0_r, !app_nil_r, <- Hnet. by rewrite world_eta.
  - apply Forall_cons in Hall as [Hp Hall].
    destruct fuel as [|fuel]; [simpl in Hfuel; lia|].
    simpl in Hnet. rewrite <- app_assoc in Hnet.
    destruct (fetch_page_accepted url retries p w _ Hp Hnet) as [tr Hpage].
    destruct url as [|c url]; [done|].
    simpl. unfold bind at 1. rewrite Hpage.
    unfold pf_ok in Hp. repeat (apply andb_prop in Hp as [Hp ?]).
    unfold pf_items.
    destruct (json (pf_answer p)) as [value [[|d next]|]|]; try done.
    simpl.
    destruct (IH fuel (d :: next) (acc ++ value)
                 (World (fs w) (history_events h ++ rest) (trace w ++ tr)) rest)
      as (url' & tr' & Hurl' & Heq); [done|done|simpl in Hfuel; lia|done|].
    exists url', (tr ++ tr'). split; [done|].
    etrans; [exact Heq|]. simpl. by rewrite <- !app_assoc.
Qed.

(** A page whose attempts are all retried: the loop ends without data. *)
Lemma fetch_page_exhausted url retries failing sleeps w rest :
  length failing = retries ->
  backoffs 0 failing = Some sleeps ->
  net w = failing ++ rest ->
  for_each (fetch_attempt url) (range retries) w
  = (Ok Continue, World (fs w) rest (trace w ++ retry_trace url false sleeps)).
Proof.
  intros <- Hb Hnet. unfold range.
  replace (length failing) with (length failing + 0)%nat by lia.
  by rewrite (fetch_retry_prefix url _ 0 sleeps 0 w rest Hb Hnet).
Qed.

(** A page that meets, after retried attempts, a status that is not
    retried: the loop returns [None] from the function. *)
Lemma fetch_page_aborted url retries evs r sleeps w rest :
  (length evs < retries)%nat ->
  backoffs 0 evs = Some sleeps ->
  other_status r = true ->
  net w = evs ++ Answer r :: rest ->
  for_each (fetch_attempt url) (range retries) w
  = (Ok (Return None),
     World (fs w) rest (trace w ++ retry_trace url false sleeps
                        ++ [Get url false])).
Proof.
  intros Hlen Hb Hr Hnet.
  replace retries with (length evs + S (retries - S (length evs)))%nat by lia.
  unfold range.
  rewrite (fetch_retry_prefix url _ 0 sleeps _ w _ Hb Hnet). simpl.
  unfold bind at 1.
  erewrite fetch_attempt_aborted; [|reflexivity|done]. simpl.
  unfold ret. by rewrite <- app_assoc.
Qed.

Lemma history_events_length h :
  (length h <= length (history_events h))%nat.
Proof.
  induction h as [|p h IH]; [done|].
  unfold history_events in *. simpl.
  rewrite length_app. unfold pf_events at 1. rewrite length_app. simpl. lia.
Qed.

(** C3.  When the attempts for the current page of a listing are all used
    up without a 200 answer, the fetcher returns the items accumulated from
    the earlier pages as a success if there is at least one, and [None] if
    there is none.  The earlier pages are any pages accepted within the
    budget; the failing page meets [retries] retried events (transport
    errors, 5xx answers, 429 answers). *)
Theorem fetch_json_exhausted_partial
    (url token : pystr) (retries : nat) (use_pagination : bool)
    (h : list page_fetch) (failing : list net_event) (sleeps : list Z)
    (rest : list net_event) (w : world) :
  with_top url use_pagination <> [] ->
  Forall (fun p => pf_ok retries p = true) h ->
  length failing = retries ->
  backoffs 0 failing = Some sleeps ->
  net w = history_events h ++ failing ++ rest ->
  let out := fetch_json url token retries use_pagination w in
  (history_items h <> [] ->
     out.1 = Ok (Some (Listing (history_items h) None))) /\
  (history_items h = [] -> out.1 = Ok None) /\
  fs out.2 = fs w /\ net out.2 = rest.
Proof.
  intros Hurl Hall Hlen Hb Hnet out. subst out. unfold fetch_json.
  pose proof (history_events_length h) as Hh.
  destruct (fetch_pages_history retries h (S (length (net w)))
              (with_top url use_pagination) [] w (failing ++ rest))
    as (url' & tr & Hurl' & ->); [done|done| |done|].
  { rewrite Hnet, length_app. lia. }
  destruct (S (length (net w)) - length h)%nat as [|fuel] eqn:Hfuel.
  { rewrite Hnet, length_app in Hfuel. lia. }
  destruct url' as [|c url']; [done|]. simpl. unfold bind.
  erewrite fetch_page_exhausted; [|done|done|reflexivity]. simpl.
  repeat split.
  - intros Hne. by destruct (history_items h).
  - by intros ->.
Qed.

Lemma fetch_json_exhausted_partial_witness :
  let w := World empty_fs
             ([Answer (answer 503); Answer first_page]
              ++ [Unreachable; Answer (answer 500);
                  Answer (throttled (Some (py "3")));
                  Answer (throttled None); Answer (answer 502)]
              ++ [Answer last_page]) [] in
  let out := fetch_json listing_url token0 5 true w in
  (history_items [PageFetch [Answer (answer 503)] first_page] <> [] ->
     out.1 = Ok (Some (Listing
       (history_items [PageFetch [Answer (answer 503)] first_page]) None))) /\
  (history_items [PageFetch [Answer (answer 503)] first_page] = [] ->
     out.1 = Ok None) /\
  fs out.2 = fs w /\ net out.2 = [Answer last_page].
Proof.
  intros w.
  apply (fetch_json_exhausted_partial listing_url token0 5 true
           [PageFetch [Answer (answer 503)] first_page]
           [Unreachable; Answer (answer 500);
            Answer (throttled (Some (py "3")));
            Answer (throttled None); Answer (answer 502)]
           [1; 2; 3; 10; 16] [Answer last_page] w).
  - vm_compute. discriminate.
  - repeat constructor.
  - reflexivity.
  - reflexivity.
  - reflexivity.
Defined.

(** The later page of a listing fails: what the fetcher returns.  After
    any pages accepted within the budget, a page whose attempts are all
    retried gives the items accumulated so far ([None] when there is none);
    a page that meets a status that is not retried gives [None], whatever
    was accumulated. *)
Lemma fetch_json_failure url token retries use_pagination h f rest w :
  with_top url use_pagination <> [] ->
  Forall (fun p => pf_ok retries p = true) h ->
  failure_ok retries f = true ->
  net w = history_events h ++ failure_events f ++ rest ->
  exists tr,
    fetch_json url token retries use_pagination w
    = (Ok match f with
          | Exhausted _ => partial_result (history_items h)
          | Aborted _ _ => None
          end,
       World (fs w) rest (trace w ++ tr)).
Proof.
  intros Hurl Hall Hf Hnet. unfold fetch_json.
  pose proof (history_events_length h) as Hh.
  destruct (fetch_pages_history retries h (S (length (net w)))
              (with_top url use_pagination) [] w (failure_events f ++ rest))
    as (url' & tr & Hurl' & ->); [done|done| |done|].
  { rewrite Hnet, length_app. lia. }
  destruct (S (length (net w)) - length h)%nat as [|fuel] eqn:Hfuel.
  { rewrite Hnet, length_app in Hfuel. lia. }
  destruct url' as [|c url']; [done|]. simpl. unfold bind.
  destruct f as [evs|evs r]; simpl in Hf.
  - apply andb_prop in Hf as [Hlen Hb]. apply Nat.eqb_eq in Hlen.
    apply bool_decide_eq_true in Hb as [sleeps Hb].
    erewrite fetch_page_exhausted; [|done|done|reflexivity]. simpl.
    eexists. unfold ret. by rewrite <- app_assoc.
  - apply andb_prop in Hf as [Hf Hr]. apply andb_prop in Hf as [Hlen Hb].
    apply Nat.ltb_lt in Hlen.
    apply bool_decide_eq_true in Hb as [sleeps Hb].
    erewrite fetch_page_aborted; [|done|done|done|]; simpl.
    + eexists. unfold ret. by rewrite <- !app_assoc.
    + by rewrite <- app_assoc.
Qed.

(** C4, as the code has it.  When a later page of a listing fails after
    earlier pages were accepted, the accumulated items are returned as a
    degraded success only if the page fails by using up its attempts and at
    least one item was accumulated; a status that is not retried (neither
    200, 429 nor 5xx, such as 404) makes the fetcher return [None] at once
    and the accumulated items are dropped. *)
Theorem fetch_json_later_page_failure
    (url token : pystr) (retries : nat) (use_pagination : bool)
    (h : list page_fetch) (f : page_failure)
    (rest : list net_event) (w : world) :
  with_top url use_pagination <> [] ->
  Forall (fun p => pf_ok retries p = true) h ->
  failure_ok retries f = true ->
  net w = history_events h ++ failure_events f ++ rest ->
  (fetch_json url token retries use_pagination w).1
  = Ok match f with
       | Aborted _ _ => None
       | Exhausted _ =>
           match history_items h with
           | [] => None
           | _ :: _ => Some (Listing (history_items h) None)
           end
       end.
Proof.
  intros Hurl Hall Hf Hnet.
  destruct (fetch_json_failure url token retries use_pagination h f rest w)
    as [tr ->]; try done.
Qed.

Lemma fetch_json_later_page_failure_witness :
  (fetch_json listing_url token0 5 true
     (World empty_fs
        (history_events [PageFetch [] first_page]
         ++ failure_events (Aborted [Answer (answer 503)] (answer 404))
         ++ []) [])).1
  = Ok None.
Proof.
  apply (fetch_json_later_page_failure listing_url token0 5 true
           [PageFetch [] first_page]
           (Aborted [Answer (answer 503)] (answer 404)) []).
  - vm_compute. discriminate.
  - repeat constructor.
  - reflexivity.
  - reflexivity.
Defined.

(** C4 fails as stated: the first page of the listing is accepted with one
    item and names a next page; the next page answers 404.  The fetcher
    returns [None], not the item it had accumulated. *)
Lemma fetch_json_404_drops_partial :
  let out := fetch_json listing_url token0 5 true
               (World empty_fs [Answer first_page; Answer (answer 404)] []) in
  out.1 = Ok None /\ out.1 <> Ok (Some (Listing [item_a] None)).
Proof. vm_compute. split; [reflexivity | discriminate]. Qed.

(** The attempts the loop has left after [k] of them. *)
Lemma range_after (retries k : nat) :
  (k <= retries)%nat -> range retries = seq 0 k ++ seq k (retries - k).
Proof.
  intros H. unfold range. rewrite <- seq_app. f_equal. lia.
Qed.






Lemma server_error_backoffs evs : forall i,
  forallb is_server_error evs = true ->
  backoffs i evs
  = Some (map (fun j => 2 ^ Z.of_nat j) (seq i (length evs))).
Proof.
  induction evs as [|e evs IH]; intros i H; [done|].
  simpl in H. apply andb_prop in H as [He H].
  simpl. rewrite (IH (S i) H).
  assert (backoff i e = Some (2 ^ Z.of_nat i)) as ->; [|done].
  destruct e as [r|]; [|done]. simpl in *. apply Z.leb_le in He.
  destruct (status_code r =? 200) eqn:E1; [lia|].
  destruct (status_code r =? 429) eqn:E2; [lia|].
  destruct (status_code r >=? 500) eqn:E3; [done|lia].
Qed.

(** C6.  When the first [K] answers for a URL are 5xx answers ([K] at most
    the budget), the fetcher sleeps 2^0, 2^1, ..., 2^(K-1) seconds, in that
    order, one sleep after each of these answers; then it goes on with the
    attempts that are left (it gives up when there is none, it succeeds
    when the next answer is a 200). *)
Theorem fetch_5xx_backoff
    (url : pystr) (retries : nat) (evs : list net_event)
    (rest : list net_event) (w : world) :
  forallb is_server_error evs = true ->
  (length evs <= retries)%nat ->
  net w = evs ++ rest ->
  for_each (fetch_attempt url) (range retries) w
  = for_each (fetch_attempt url) (seq (length evs) (retries - length evs))
      (World (fs w) rest
         (trace w ++ retry_trace url false
                       (map (fun j => 2 ^ Z.of_nat j) (seq 0 (length evs))))).
Proof.
  intros Hw Hlen Hnet.
  replace (range retries)
    with (seq 0 (length evs + (retries - length evs)))
    by (unfold range; f_equal; lia).
  pose proof (server_error_backoffs evs 0 Hw) as Hsleeps.
  by rewrite (fetch_retry_prefix url evs 0 _ _ w rest Hsleeps Hnet).
Qed.

Lemma fetch_5xx_backoff_witness :
  let evs := [Answer (answer 500); Answer (answer 503); Answer (answer 504)] in
  let w := World empty_fs (evs ++ [Answer last_page]) [] in
  for_each (fetch_attempt listing_url) (range 5) w
  = for_each (fetch_attempt listing_url) (seq (length evs) (5 - length evs))
      (World (fs w) [Answer last_page]
         (trace w ++ retry_trace listing_url false
                       (map (fun j => 2 ^ Z.of_nat j) (seq 0 (length evs))))).
Proof.
  intros evs w.
  apply (fetch_5xx_backoff listing_url 5 evs [Answer last_page] w).
  - reflexivity.
  - simpl. lia.
  - reflexivity.
Defined.

(** The two ends of a run of 5xx answers: the budget is used up, or a 200
    answer follows. *)
Corollary fetch_5xx_gives_up url retries evs rest w :
  forallb is_server_error evs = true ->
  length evs = retries ->
  net w = evs ++ rest ->
  for_each (fetch_attempt url) (range retries) w
  = (Ok Continue,
     World (fs w) rest
       (trace w ++ retry_trace url false
                     (map (fun j => 2 ^ Z.of_nat j) (seq 0 retries)))).
Proof.
  intros Hw Hlen Hnet. unfold range.
  replace retries with (length evs + 0)%nat at 1 by lia.
  rewrite (fetch_retry_prefix url evs 0 _ 0 w rest
             (server_error_backoffs evs 0 Hw) Hnet).
  by rewrite Hlen.
Qed.

Corollary fetch_5xx_then_accepted url retries evs r rest w :
  forallb is_server_error evs = true ->
  (length evs < retries)%nat ->
  status_code r = 200 ->
  net w = evs ++ Answer r :: rest ->
  for_each (fetch_attempt url) (range retries) w
  = (Ok (Break (json r)),
     World (fs w) rest
       (trace w ++ retry_trace url false
                     (map (fun j => 2 ^ Z.of_nat j) (seq 0 (length evs)))
        ++ [Get url false])).
Proof.
  intros Hw Hlen Hr Hnet. unfold range.
  replace retries
    with (length evs + S (retries - S (length evs)))%nat at 1 by lia.
  rewrite (fetch_retry_prefix url evs 0 _ _ w _
             (server_error_backoffs evs 0 Hw) Hnet).
  simpl. unfold bind.
  erewrite fetch_attempt_accepted; [|reflexivity|done].
  simpl. unfold ret. by rewrite <- app_assoc.
Qed.

(** ** Exceptions *)

(** C9, where the code departs from it: a 429 answer whose [Retry-After]
    header is an HTTP date (or any text that is no integer) makes [int]
    raise [ValueError] inside [fetch_json], which only catches
    [RequestException]: the exception leaves the fetcher. *)
Theorem fetch_json_raises_on_retry_after_date :
  (fetch_json listing_url token0 5 true
     (World empty_fs
        [Answer (throttled (Some (py "Wed, 21 Oct 2015 07:28:00 GMT")));
         Answer last_page] [])).1
  = Raise ValueError.
Proof. vm_compute. reflexivity. Qed.

(** The same happens for a negative number of seconds, which [time.sleep]
    refuses. *)
Lemma fetch_json_raises_on_negative_retry_after :
  (fetch_json listing_url token0 5 true
     (World empty_fs [Answer (throttled (Some (py "-1")))] [])).1
  = Raise ValueError.
Proof. vm_compute. reflexivity. Qed.

(** The downloader catches every exception: an attempt never raises. *)
Lemma download_attempt_returns url save_path i w :
  exists o w', download_attempt url save_path i w = (Ok o, w').
Proof.
  unfold download_attempt, try_except, bind, requests_get,
    retry_after_seconds, write_file, time_sleep, log, raise, ret.
  rewrite pow2_sleep.
  repeat (case_match; simplify_eq; simpl in *); eauto.
Qed.

Lemma for_each_returns {I B R} (body : I -> M (flow B R)) indices :
  (forall i w, exists o w', body i w = (Ok o, w')) ->
  forall w, exists o w', for_each body indices w = (Ok o, w').
Proof.
  intros Hbody. induction indices as [|i indices IH]; intros w; simpl.
  - by eexists _, _.
  - unfold bind. destruct (Hbody i w) as (o & w' & ->).
    destruct o; [by eexists _, _ | apply IH | by eexists _, _].
Qed.

(** [download_file] never raises: whatever the network answers, it returns
    [True] or [False]. *)
Lemma download_file_returns url save_path token retries w :
  exists ok w', download_file url save_path token retries w = (Ok ok, w').
Proof.
  unfold download_file, bind.
  destruct (for_each_returns (download_attempt url save_path) (range retries)
              (download_attempt_returns url save_path) w) as (o & w' & ->).
  destruct o; by eexists _, _.
Qed.

(** An attempt of the downloader that meets a status it does not handle
    goes on to the next attempt without a sleep. *)
Lemma download_attempt_other url save_path i r w rest :
  net w = Answer r :: rest -> other_status r = true ->
  download_attempt url save_path i w
  = (Ok Continue, World (fs w) rest (trace w ++ [Get url true])).
Proof.
  intros Hnet Hs. unfold download_attempt, try_except, bind, requests_get.
  rewrite Hnet. simpl. unfold other_status in Hs.
  destruct (status_code r =? 200); [done|].
  destruct (status_code r =? 429); [done|].
  by destruct (status_code r >=? 500).
Qed.

Lemma download_other_prefix url save_path evs : forall a m w rest,
  forallb is_other_answer evs = true ->
  net w = evs ++ rest ->
  for_each (download_attempt url save_path) (seq a (length evs + m)) w
  = for_each (download_attempt url save_path) (seq (a + length evs) m)
      (World (fs w) rest (trace w ++ replicate (length evs) (Get url true))).
Proof.
  induction evs as [|e evs IH]; intros a m w rest Hall Hnet.
  - simpl in *. rewrite Nat.add_0_r, app_nil_r, <- Hnet. by rewrite world_eta.
  - simpl in Hall. apply andb_prop in Hall as [He Hall].
    destruct e as [r|]; [|done]. simpl in He, Hnet. simpl. unfold bind at 1.
    rewrite (download_attempt_other url save_path a r w (evs ++ rest) Hnet He).
    rewrite (IH (S a) m
               (World (fs w) (evs ++ rest) (trace w ++ [Get url true]))
               rest Hall eq_refl).
    simpl. rewrite <- app_assoc. simpl.
    by replace (a + S (length evs))%nat with (S (a + length evs)) by lia.
Qed.

(** C10.  When every request of [download_file] is answered with a status
    that is neither 200, nor 429, nor 500 or more, the downloader makes
    exactly [retries] requests with no sleep between them and returns
    [False] without raising; the file system is as it was, so nothing was
    created or written at [save_path]. *)
Theorem download_file_unhandled_status
    (url save_path token : pystr) (retries : nat)
    (evs rest : list net_event) (w : world) :
  length evs = retries ->
  forallb is_other_answer evs = true ->
  net w = evs ++ rest ->
  download_file url save_path token retries w
  = (Ok false,
     World (fs w) rest (trace w ++ replicate retries (Get url true))).
Proof.
  intros Hlen Hall Hnet. unfold download_file, bind, range.
  replace retries with (length evs + 0)%nat at 1 by lia.
  rewrite (download_other_prefix url save_path evs 0 0 w rest Hall Hnet).
  simpl. by rewrite Hlen.
Qed.

Lemma download_file_unhandled_status_witness :
  let evs := replicate 3 (Answer (answer 404)) in
  let w := World empty_fs (evs ++ [Answer (bytes_answer [1; 2; 3]%N)]) [] in
  download_file (py "https://graph.microsoft.com/r/1/$value")
                (py "OneNote_Export/W/I/assets/p_asset_0.png") token0 3 w
  = (Ok false,
     World (fs w) [Answer (bytes_answer [1; 2; 3]%N)]
       (trace w ++ replicate 3
          (Get (py "https://graph.microsoft.com/r/1/$value") true))).
Proof.
  intros evs w.
  apply (download_file_unhandled_status _ _ token0 3 evs
           [Answer (bytes_answer [1; 2; 3]%N)] w).
  - reflexivity.
  - reflexivity.
  - reflexivity.
Defined.

(** ** The resume decision *)

Lemma startswith_spec s p :
  startswith s p = true <-> exists post, s = p ++ post.
Proof.
  revert s. induction p as [|c p IH]; intros s; simpl.
  - destruct s; simpl; (split; [intros _; by eexists | done]).
  - destruct s as [|d s].
    + split; [done | by intros [post H]].
    + simpl. destruct (N.eqb_spec c d) as [->|Hne]; simpl.
      * rewrite IH. split; intros [post H].
        -- exists post. by rewrite H.
        -- exists post. by injection H.
      * split; [done|]. intros [post H]. by injection H.
Qed.

(** [contains] decides the substring relation. *)
Lemma contains_spec needle hay :
  contains needle hay = true <-> substring needle hay.
Proof.
  unfold substring. induction hay as [|c hay IH].
  - cbn [contains]. rewrite orb_false_r, startswith_spec. split.
    + intros [post H]. by exists [], post.
    + intros (pre & post & H). symmetry in H.
      apply app_eq_nil in H as [-> H]. apply app_eq_nil in H as [-> ->].
      by exists [].
  - cbn [contains]. rewrite orb_true_iff, startswith_spec, IH. split.
    + intros [[post H] | (pre & post & H)].
      * by exists [], post.
      * exists (c :: pre), post. by rewrite H.
    + intros (pre & post & H). destruct pre as [|d pre].
      * left. by exists post.
      * right. injection H as <- H. by exists pre, post.
Qed.

Lemma should_download_absent md_file_path assets_dir page_title w :
  exists_in (fs w) md_file_path = false ->
  should_download md_file_path assets_dir page_title w = (Ok true, w).
Proof.
  intros H. unfold should_download, bind, path_exists. by rewrite H.
Qed.

Lemma exists_in_file f path d :
  files f !! path = Some d -> exists_in f path = true.
Proof.
  intros H. unfold exists_in. apply orb_true_iff. right.
  apply bool_decide_eq_true. by exists d.
Qed.

Lemma should_download_text md_file_path assets_dir page_title content w :
  files (fs w) !! md_file_path = Some (Text content) ->
  should_download md_file_path assets_dir page_title w
  = if negb (contains remote_host content) && exists_in (fs w) assets_dir
    then (Ok false, logged w (Printed (MsgSkip page_title)))
    else (Ok true, logged w (Printed (MsgRepair page_title))).
Proof.
  intros H.
  unfold should_download, bind, path_exists, try_except, read_text.
  rewrite (exists_in_file _ _ _ H), H.
  by destruct (negb (contains remote_host content)
               && exists_in (fs w) assets_dir).
Qed.

(** An output path at which there is something that cannot be read as
    text - a directory, or a file that does not decode - is downloaded
    again (lines 330-331). *)
Lemma should_download_unreadable md_file_path assets_dir page_title w :
  exists_in (fs w) md_file_path = true ->
  (forall content, files (fs w) !! md_file_path <> Some (Text content)) ->
  should_download md_file_path assets_dir page_title w = (Ok true, w).
Proof.
  intros He Hno.
  unfold should_download, bind, path_exists, try_except, read_text.
  rewrite He.
  destruct (files (fs w) !! md_file_path) as [[content|b]|]; try done.
  by destruct (Hno content).
Qed.

(** C1.  The decision of the walker is the one of the three states of the
    specification.  For a page whose output file is absent, or is a text
    file with a given content: an Unsynced page (no output file) is
    synchronized; a PartiallySynced page (the file exists, but the assets
    directory is missing or the content holds [graph.microsoft.com]) is
    synchronized again; a Synced page is skipped - nothing is requested and
    nothing is written, only the message is printed.  The page is Synced
    exactly when the file exists, the assets directory exists and the
    content has no substring [graph.microsoft.com]. *)
Theorem resume_decision_matches_classification
    (env : collaborators) (token sec_path assets_path : pystr) (page : item)
    (o : option pystr) (w : world) :
  output_is (fs w) (md_path_of sec_path page) o ->
  let content := default [] o in
  let state := classify (bool_decide (is_Some o))
                        (exists_in (fs w) (assets_of sec_path)) content in
  let synchronize :=
    synchronize_page env token (md_path_of sec_path page) assets_path
                     (page_title_of page) page in
  process_page env token sec_path assets_path page w
  = match state with
    | Unsynced => synchronize w
    | PartiallySynced =>
        synchronize (logged w (Printed (MsgRepair (page_title_of page))))
    | Synced => (Ok tt, logged w (Printed (MsgSkip (page_title_of page))))
    end
  /\ (state = Synced <->
      is_Some o /\ exists_in (fs w) (assets_of sec_path) = true
      /\ ~ substring remote_host content).
Proof.
  intros Ho content state synchronize. subst content state synchronize.
  unfold process_page. fold (md_path_of sec_path page) (assets_of sec_path).
  unfold bind at 1. unfold classify.
  destruct o as [content|]; simpl in *.
  - rewrite (should_download_text _ _ _ content w Ho).
    rewrite <- contains_spec.
    try rewrite bool_decide_eq_true_2 by (by eexists). simpl.
    destruct (contains remote_host content) eqn:Hc,
             (exists_in (fs w) (assets_of sec_path)) eqn:He; simpl.
    + split; [done|]. split; [done|]. by intros (_ & _ & H).
    + split; [done|]. split; [done|]. by intros (_ & H & _).
    + split; [done|]. split; [|done]. intros _.
      split; [by eexists|]. split; [done|]. by intros H.
    + split; [done|]. split; [done|]. by intros (_ & H & _).
  - rewrite (should_download_absent _ _ _ w Ho).
    try rewrite bool_decide_eq_false_2 by (by intros [? ?]). simpl.
    split; [done|]. split; [done|]. by intros [[? ?] _].
Qed.

Lemma resume_decision_matches_classification_witness :
  let w := World (FileSystem {[py "E/N/S/assets"]}
                             {[py "E/N/S/A.md" := Text (py "# A")]})
                 [] [] in
  process_page (Collaborators (fun _ => []) (fun _ => [])
                              (fun html _ => html) (fun s => s))
               token0 (py "E/N/S") (py "E/N/S/assets") item_a w
  = (Ok tt, logged w (Printed (MsgSkip (py "A")))).
Proof.
  intros w.
  apply (resume_decision_matches_classification
           (Collaborators (fun _ => []) (fun _ => [])
                          (fun html _ => html) (fun s => s))
           token0 (py "E/N/S") (py "E/N/S/assets") item_a
           (Some (py "# A")) w).
  vm_compute. reflexivity.
Defined.

(** ** The page content processor *)



(** An element without a source to download is passed over. *)
Lemma process_tag_unresolvable env page_id token assets_dir soup idx t w :
  resolvable t = false ->
  process_tag env page_id token assets_dir soup (idx, t) w = (Ok soup, w).
Proof.
  unfold resolvable, process_tag. intros H.
  destruct (media_src t) as [[|c src]|]; try done.
  by rewrite H.
Qed.

Lemma process_media_unresolvable env page_id token assets_dir media :
  forall soup w,
  Forall (fun entry => resolvable entry.2 = false) media ->
  process_media env page_id token assets_dir media soup w = (Ok soup, w).
Proof.
  induction media as [|[idx t] media IH]; intros soup w Hall; [done|].
  apply Forall_cons in Hall as [Ht Hall]. cbn [process_media]. unfold bind.
  simpl in Ht. rewrite (process_tag_unresolvable env page_id token assets_dir soup idx t w Ht).
  by apply IH.
Qed.

Lemma enumerate_unresolvable (tags : list tag) :
  forallb (fun t => negb (resolvable t)) tags = true ->
  Forall (fun entry : nat * tag => resolvable entry.2 = false) (enumerate tags).
Proof.
  unfold enumerate. generalize 0%nat.
  induction tags as [|t tags IH]; intros n H; simpl; [constructor|].
  simpl in H. apply andb_prop in H as [Ht H]. constructor.
  - simpl. by apply negb_true_iff.
  - by apply IH.
Qed.




(** ** The walker *)

Lemma extends_refl f : extends f f.
Proof. by split. Qed.

Lemma extends_trans f1 f2 f3 : extends f1 f2 -> extends f2 f3 -> extends f1 f3.
Proof.
  intros [Hf1 Hd1] [Hf2 Hd2]. split; [congruence | set_solver].
Qed.

Lemma exists_in_extends f f' path :
  extends f f' -> exists_in f path = true -> exists_in f' path = true.
Proof.
  intros [Hf Hd]. unfold exists_in. rewrite Hf, !orb_true_iff.
  intros [H|H]; [left|by right].
  apply bool_decide_eq_true in H. apply bool_decide_eq_true. set_solver.
Qed.

Lemma page_synced_extends f f' sec_path page :
  extends f f' ->
  page_synced f sec_path page = true -> page_synced f' sec_path page = true.
Proof.
  intros Hext. unfold page_synced. destruct Hext as [Hf Hd]. rewrite Hf.
  destruct (files f !! md_path_of sec_path page) as [[content|b]|]; try done.
  rewrite !andb_true_iff. intros [Hc He]. split; [done|].
  by apply (exists_in_extends f f').
Qed.

Lemma forallb_impl {A} (p q : A -> bool) l :
  (forall x, p x = true -> q x = true) ->
  forallb p l = true -> forallb q l = true.
Proof.
  intros Hpq. rewrite !forallb_forall. auto.
Qed.

Lemma section_synced_extends r f f' nb sec :
  extends f f' ->
  section_synced r f nb sec = true -> section_synced r f' nb sec = true.
Proof.
  intros Hext. unfold section_synced. rewrite !andb_true_iff.
  intros [Hok Hall]. split; [done|].
  eapply forallb_impl; [|exact Hall].
  intros page. by apply page_synced_extends.
Qed.

Lemma notebook_synced_extends r f f' nb :
  extends f f' ->
  notebook_synced r f nb = true -> notebook_synced r f' nb = true.
Proof.
  intros Hext. unfold notebook_synced. rewrite !andb_true_iff.
  intros [Hok Hall]. split; [done|].
  eapply forallb_impl; [|exact Hall].
  intros sec. by apply section_synced_extends.
Qed.

Lemma ensure_dir_extends path w :
  exists f',
    ensure_dir path w = (Ok tt, World f' (net w) (trace w))
    /\ extends (fs w) f'.
Proof.
  unfold ensure_dir, bind, path_exists, makedirs.
  destruct (exists_in (fs w) path) eqn:He.
  - exists (fs w). unfold ret. rewrite world_eta. split; [done|].
    apply extends_refl.
  - rewrite He. eexists. split; [done|]. split; [done|]. simpl. set_solver.
Qed.

(** A loop whose body consumes the answers meant for its element, adds the
    trace of its element and keeps the files. *)
Lemma for_scripted {A} (body : A -> M unit) (evs : A -> list net_event)
    (tr : A -> list action) (P : filesystem -> A -> Prop) :
  (forall x f f', extends f f' -> P f x -> P f' x) ->
  (forall x w rest,
     P (fs w) x -> net w = evs x ++ rest ->
     exists f', body x w = (Ok tt, World f' rest (trace w ++ tr x))
                /\ extends (fs w) f') ->
  forall l w rest,
    Forall (P (fs w)) l ->
    net w = flat_map evs l ++ rest ->
    exists f', for_ l body w = (Ok tt, World f' rest (trace w ++ flat_map tr l))
               /\ extends (fs w) f'.
Proof.
  intros Hmono Hbody. induction l as [|x l IH]; intros w rest Hall Hnet.
  - exists (fs w). simpl in *. rewrite app_nil_r, <- Hnet. unfold ret.
    rewrite world_eta. split; [done|]. apply extends_refl.
  - apply Forall_cons in Hall as [Hx Hall]. simpl in Hnet.
    rewrite <- app_assoc in Hnet.
    destruct (Hbody x w _ Hx Hnet) as (f1 & Hrun & Hext1).
    destruct (IH (World f1 (flat_map evs l ++ rest) (trace w ++ tr x)) rest)
      as (f2 & Hrun2 & Hext2); [|done|].
    { eapply Forall_impl; [exact Hall|]. intros y. by apply Hmono. }
    exists f2. cbn [for_]. unfold bind. rewrite Hrun, Hrun2. simpl.
    rewrite <- app_assoc. split; [done|]. by eapply extends_trans.
Qed.

(** The fetch of a listing that the service delivers page after page. *)
Lemma fetch_pages_listing retries cs : forall fuel url acc w rest fin,
  (0 < retries)%nat ->
  url <> [] ->
  listing_ok (ListingPages cs fin) = true ->
  (S (length cs) < fuel)%nat ->
  net w = listing_events (ListingPages cs fin) ++ rest ->
  fetch_pages fuel retries (Some url) acc w
  = (Ok (Some (Listing (acc ++ listing_items (ListingPages cs fin)) None)),
     World (fs w) rest
           (trace w ++ listing_trace url (ListingPages cs fin))).
Proof.
  unfold listing_ok, listing_events, listing_items, listing_trace. simpl.
  induction cs as [|[v n] cs IH];
    intros fuel url acc w rest fin Hretries Hurl Hok Hfuel Hnet;
    (destruct fuel as [|fuel]; [lia|]);
    (destruct url as [|c url]; [done|]);
    (destruct retries as [|retries]; [lia|]).
  - destruct fuel as [|fuel]; [simpl in Hfuel; lia|].
    simpl in Hnet. cbn [fetch_pages range seq for_each]. unfold bind.
    erewrite fetch_attempt_accepted; [|exact Hnet|done]. by simpl.
  - simpl in Hnet, Hok. apply andb_prop in Hok as [Hn Hok].
    cbn [fetch_pages range seq for_each]. unfold bind.
    erewrite fetch_attempt_accepted; [|exact Hnet|done]. cbn -[fetch_pages].
    destruct n as [|d n]; [done|].
    rewrite (IH fuel (d :: n) (acc ++ v) _ rest fin); try done.
    + simpl. by rewrite <- !app_assoc.
    + simpl in Hfuel. lia.
Qed.

Lemma with_top_nonempty url use_pagination :
  url <> [] -> with_top url use_pagination <> [].
Proof.
  unfold with_top. intros H.
  destruct (use_pagination && negb (contains (py "$top") url)); [|done].
  by destruct url.
Qed.

Lemma fetch_json_listing url token retries use_pagination l w rest :
  (0 < retries)%nat ->
  url <> [] ->
  listing_ok l = true ->
  net w = listing_events l ++ rest ->
  fetch_json url token retries use_pagination w
  = (Ok (Some (Listing (listing_items l) None)),
     World (fs w) rest
           (trace w ++ listing_trace (with_top url use_pagination) l)).
Proof.
  intros Hretries Hurl Hok Hnet. unfold fetch_json. destruct l as [cs fin].
  rewrite (fetch_pages_listing retries cs _ _ [] w rest fin); try done.
  - by apply with_top_nonempty.
  - rewrite Hnet. unfold listing_events. simpl.
    rewrite !length_app, length_map. simpl. lia.
Qed.

Lemma api_nonempty rest : api ++ rest <> [].
Proof. done. Qed.

Lemma with_top_pages_url sec : with_top (pages_url sec) true = pages_url sec.
Proof.
  unfold with_top.
  assert (contains (py "$top") (pages_url sec) = true) as ->; [|done].
  apply contains_spec.
  exists (api ++ py "sections/" ++ item_id sec ++ py "/pages?"),
         (py "=20&$select=id,title").
  unfold pages_url. by rewrite <- !app_assoc.
Qed.

(** A Synced page is skipped. *)
Lemma process_page_synced env token sec_path assets_path page w :
  page_synced (fs w) sec_path page = true ->
  process_page env token sec_path assets_path page w
  = (Ok tt, logged w (Printed (MsgSkip (page_title_of page)))).
Proof.
  unfold page_synced. intros H.
  destruct (files (fs w) !! md_path_of sec_path page)
    as [[content|b]|] eqn:Hfile; try done.
  unfold process_page. fold (md_path_of sec_path page) (assets_of sec_path).
  unfold bind. rewrite (should_download_text _ _ _ content w Hfile).
  by rewrite H.
Qed.

Lemma process_section_synced env token r nb sec w rest :
  section_synced r (fs w) nb sec = true ->
  net w = section_events r nb sec ++ rest ->
  exists f',
    process_section env token (nb_path_of nb) sec w
    = (Ok tt, World f' rest (trace w ++ section_skip_trace r nb sec))
    /\ extends (fs w) f'.
Proof.
  unfold section_synced, section_events. intros Hs Hnet.
  apply andb_prop in Hs as [Hok Hall].
  unfold process_section. fold (sec_path_of nb sec) (pages_url sec).
  unfold bind at 1.
  destruct (ensure_dir_extends (sec_path_of nb sec) w) as (f1 & -> & Hext1).
  unfold bind at 1.
  rewrite (fetch_json_listing (pages_url sec) token 5 true
             (pages_of r nb sec) _ rest); [|lia|apply api_nonempty|done|done].
  rewrite with_top_pages_url. cbn [fs trace net].
  destruct (for_scripted
              (process_page env token (sec_path_of nb sec)
                            (path_join (sec_path_of nb sec) (py "assets")))
              (fun _ => [])
              (fun page => [Printed (MsgSkip (page_title_of page))])
              (fun f page => page_synced f (sec_path_of nb sec) page = true))
    with (l := listing_items (pages_of r nb sec))
         (w := World f1 rest
                 (trace w ++ listing_trace (pages_url sec) (pages_of r nb sec)))
         (rest := rest)
    as (f2 & Hrun & Hext2).
  - intros page f f'. apply page_synced_extends.
  - intros page w' rest' Hp Hnet'. exists (fs w').
    rewrite (process_page_synced _ _ _ _ _ _ Hp). simpl in Hnet'.
    unfold logged. rewrite Hnet'. split; [done|]. apply extends_refl.
  - apply Forall_forall. intros page Hin. simpl.
    apply (page_synced_extends (fs w)); [done|].
    rewrite forallb_forall in Hall. by apply Hall, list_elem_of_In.
  - simpl. clear. induction (listing_items _); simpl; [done|done].
  - exists f2. rewrite Hrun. simpl. unfold section_skip_trace.
    rewrite <- app_assoc. split.
    + do 3 f_equal; clear; induction (listing_items _) as [|p l IH];
        simpl; congruence.
    + by eapply extends_trans.
Qed.

Lemma process_notebook_synced env token r nb w rest :
  notebook_synced r (fs w) nb = true ->
  net w = notebook_events r nb ++ rest ->
  exists f',
    process_notebook env token nb w
    = (Ok tt, World f' rest (trace w ++ notebook_skip_trace r nb))
    /\ extends (fs w) f'.
Proof.
  unfold notebook_synced, notebook_events. intros Hs Hnet.
  apply andb_prop in Hs as [Hok Hall]. rewrite <- app_assoc in Hnet.
  unfold process_notebook. fold (nb_path_of nb) (sections_url nb).
  unfold bind at 1.
  destruct (ensure_dir_extends (nb_path_of nb) w) as (f1 & -> & Hext1).
  unfold bind at 1.
  erewrite (fetch_json_listing (sections_url nb) token 5 false
              (sections_of r nb));
    [|lia|apply api_nonempty|done|exact Hnet].
  cbn [fs trace net with_top andb].
  destruct (for_scripted
              (process_section env token (nb_path_of nb))
              (section_events r nb) (section_skip_trace r nb)
              (fun f sec => section_synced r f nb sec = true))
    with (l := listing_items (sections_of r nb))
         (w := World f1
                 (flat_map (section_events r nb)
                           (listing_items (sections_of r nb)) ++ rest)
                 (trace w ++ listing_trace (sections_url nb) (sections_of r nb)))
         (rest := rest)
    as (f2 & Hrun & Hext2).
  - intros sec f f'. apply section_synced_extends.
  - intros sec w' rest'. apply process_section_synced.
  - apply Forall_forall. intros sec Hin. simpl.
    apply (section_synced_extends r (fs w)); [done|].
    rewrite forallb_forall in Hall. by apply Hall, list_elem_of_In.
  - done.
  - exists f2. rewrite Hrun. simpl. unfold notebook_skip_trace.
    rewrite <- app_assoc. split; [done|]. by eapply extends_trans.
Qed.

Lemma listing_trace_quiet url l : forallb quiet (listing_trace url l) = true.
Proof.
  unfold listing_trace. simpl. by induction (chunks l).
Qed.

Lemma forallb_flat_map {A B} (p : B -> bool) (f : A -> list B) l :
  (forall x, forallb p (f x) = true) -> forallb p (flat_map f l) = true.
Proof.
  intros H. induction l as [|x l IH]; [done|].
  simpl. by rewrite forallb_app, H, IH.
Qed.

Lemma skip_trace_quiet r : forallb quiet (skip_trace r) = true.
Proof.
  unfold skip_trace. rewrite forallb_app, listing_trace_quiet. simpl.
  apply forallb_flat_map. intros nb. unfold notebook_skip_trace.
  rewrite forallb_app, listing_trace_quiet. simpl.
  apply forallb_flat_map. intros sec. unfold section_skip_trace.
  rewrite forallb_app, listing_trace_quiet. simpl.
  by induction (listing_items _).
Qed.

(** A run that finds every page Synced only fetches the listings and
    prints that it skips each page; the files are as they were. *)
Lemma main_skips_synced
    (env : collaborators) (token : pystr) (r : remote)
    (rest : list net_event) (w : world) :
  all_synced r (fs w) = true ->
  net w = remote_events r ++ rest ->
  exists f',
    main env token w = (Ok tt, World f' rest (trace w ++ skip_trace r))
    /\ extends (fs w) f'
    /\ forallb quiet (skip_trace r) = true.
Proof.
  unfold all_synced, remote_events. intros Hs Hnet.
  apply andb_prop in Hs as [Hok Hall]. rewrite <- app_assoc in Hnet.
  unfold main. fold notebooks_url. unfold bind at 1.
  destruct (ensure_dir_extends EXPORT_DIR w) as (f1 & -> & Hext1).
  unfold bind at 1.
  erewrite (fetch_json_listing notebooks_url token 5 false (notebooks r));
    [|lia|apply api_nonempty|done|exact Hnet].
  cbn [fs trace net with_top andb].
  destruct (for_scripted
              (process_notebook env token)
              (notebook_events r) (notebook_skip_trace r)
              (fun f nb => notebook_synced r f nb = true))
    with (l := listing_items (notebooks r))
         (w := World f1
                 (flat_map (notebook_events r)
                           (listing_items (notebooks r)) ++ rest)
                 (trace w ++ listing_trace notebooks_url (notebooks r)))
         (rest := rest)
    as (f2 & Hrun & Hext2).
  - intros nb f f'. apply notebook_synced_extends.
  - intros nb w' rest'. apply process_notebook_synced.
  - apply Forall_forall. intros nb Hin. simpl.
    apply (notebook_synced_extends r (fs w)); [done|].
    rewrite forallb_forall in Hall. by apply Hall, list_elem_of_In.
  - done.
  - exists f2. rewrite Hrun. simpl. unfold skip_trace.
    rewrite <- app_assoc. split; [done|]. split.
    + by eapply extends_trans.
    + apply skip_trace_quiet.
Qed.


(** C2 fails as stated: the page Plan holds an image whose download is
    answered with 404 every time.  The first run ends without interruption
    and writes the page with the remote address of the image left in it.
    The remote has not changed, and yet the second run classifies the page
    as not Synced, requests its content, attempts the download three times
    and writes the output file again. *)
Lemma second_run_repairs_failed_download :
  let answers :=
    remote_events small_remote
    ++ [Answer (text_answer (py "<img>"));
        Answer (answer 404); Answer (answer 404); Answer (answer 404)] in
  let first_run := main image_env token0 (World empty_fs answers []) in
  let second_run :=
    main image_env token0 (World (fs first_run.2) answers []) in
  first_run.1 = Ok tt /\
  net first_run.2 = [] /\
  files (fs first_run.2) !! plan_md = Some (Text (py "<img src=" ++ image_url ++ py ">")) /\
  second_run.1 = Ok tt /\
  trace second_run.2
  = [Get notebooks_url false; Get (sections_url nb_work) false;
     Get (pages_url sec_ideas) false;
     Printed (MsgRepair (py "Plan")); Printed (MsgDownloadPage (py "Plan"));
     Get (content_url (py "p1")) false;
     Get image_url true; Get image_url true; Get image_url true;
     WriteFile plan_md].
Proof. vm_compute. done. Qed.

(** The condition on the converted text is needed as well: the content of
    the page Plan names the remote host in its text.  The first run
    retrieves and writes it with success, there is no media to download,
    and yet the second run finds the page not Synced, requests its content
    and writes the output file again. *)
Lemma second_run_repairs_page_naming_host :
  let answers :=
    remote_events small_remote
    ++ [Answer (text_answer (py "<p>see graph.microsoft.com</p>"))] in
  let first_run := main plain_env token0 (World empty_fs answers []) in
  let second_run :=
    main plain_env token0 (World (fs first_run.2) answers []) in
  first_run.1 = Ok tt /\
  net first_run.2 = [] /\
  second_run.1 = Ok tt /\
  trace second_run.2
  = [Get notebooks_url false; Get (sections_url nb_work) false;
     Get (pages_url sec_ideas) false;
     Printed (MsgRepair (py "Plan")); Printed (MsgDownloadPage (py "Plan"));
     Get (content_url (py "p1")) false; WriteFile plan_md].
Proof. vm_compute. done. Qed.

(** ** The bound of the [while] loop *)

(** An attempt of the fetcher never leaves answers unread that it had not
    before, and an accepted answer has been read. *)
Lemma fetch_attempt_net url i w :
  (fetch_attempt url i w).1 <> Raise OutOfFuel /\
  (length (net (fetch_attempt url i w).2) <= length (net w))%nat /\
  (forall data, (fetch_attempt url i w).1 = Ok (Break data) ->
     (length (net (fetch_attempt url i w).2) < length (net w))%nat).
Proof.
  unfold fetch_attempt, try_except, bind, requests_get,
    retry_after_seconds, time_sleep, log, raise, ret.
  rewrite pow2_sleep.
  repeat (case_match; simplify_eq; simpl in *);
    repeat split; try done; try lia; intros; simplify_eq.
Qed.

Lemma fetch_attempts_net url indices : forall w,
  (for_each (fetch_attempt url) indices w).1 <> Raise OutOfFuel /\
  (length (net (for_each (fetch_attempt url) indices w).2)
   <= length (net w))%nat /\
  (forall data, (for_each (fetch_attempt url) indices w).1 = Ok (Break data) ->
     (length (net (for_each (fetch_attempt url) indices w).2)
      < length (net w))%nat).
Proof.
  induction indices as [|i indices IH]; intros w; simpl.
  - repeat split; try done; lia.
  - unfold bind.
    destruct (fetch_attempt_net url i w) as (Hne & Hle & Hlt).
    destruct (fetch_attempt url i w) as [[o|e] w1]; simpl in *.
    + destruct o as [data| |ret0]; simpl.
      * split; [done|]. split; [done|]. intros data' _. by apply (Hlt data).
      * destruct (IH w1) as (Hne' & Hle' & Hlt').
        split; [done|]. split; [lia|].
        intros data Hd. specialize (Hlt' data Hd). lia.
      * by split.
    + by split.
Qed.

(** With more fuel than there are answers left, the loop of [fetch_json]
    ends by itself: [fetch_json] never stops for want of fuel. *)
Lemma fetch_pages_fuel retries : forall fuel current_url all_items w,
  (length (net w) < fuel)%nat ->
  (fetch_pages fuel retries current_url all_items w).1 <> Raise OutOfFuel.
Proof.
  induction fuel as [|fuel IH]; intros current_url all_items w Hfuel; [lia|].
  cbn [fetch_pages]. destruct current_url as [[|c url]|]; try done.
  unfold bind.
  destruct (fetch_attempts_net (c :: url) (range retries) w)
    as (Hne & Hle & Hlt).
  destruct (for_each (fetch_attempt (c :: url)) (range retries) w)
    as [[o|e] w1]; simpl in *; [|intros [= ->]; by apply Hne].
  destruct o as [data| |ret0]; try done.
  specialize (Hlt data eq_refl).
  destruct (payload_truthy data); simpl.
  - destruct data as [value next_link|fields]; [|done].
    apply IH. lia.
  - done.
Qed.

Lemma fetch_json_fuel url token retries use_pagination w :
  (fetch_json url token retries use_pagination w).1 <> Raise OutOfFuel.
Proof. unfold fetch_json. apply fetch_pages_fuel. lia. Qed.

(** * Further properties *)

(** ** The sanitizer, continued *)

Lemma lstrip_split_space s :
  exists sp, s = sp ++ lstrip s /\ Forall (fun c => isspace c = true) sp.
Proof.
  induction s as [|c s (sp & IH & Hsp)]; simpl.
  - by exists [].
  - destruct (isspace c) eqn:E.
    + exists (c :: sp). simpl. split; [by f_equal|]. by constructor.
    + by exists [].
Qed.

Lemma rstrip_split_space s :
  exists sp, s = rstrip s ++ sp /\ Forall (fun c => isspace c = true) sp.
Proof.
  unfold rstrip. destruct (lstrip_split_space (rev s)) as (sp & E & Hsp).
  exists (rev sp). split.
  - rewrite <- rev_app_distr, <- E. by rewrite rev_involutive.
  - by apply Forall_rev.
Qed.

Lemma strip_head_ok s : head_ok (strip s).
Proof. apply rstrip_head_ok, lstrip_head_ok. Qed.

Lemma strip_last_ok s : last_ok (strip s).
Proof. apply rstrip_last_ok. Qed.

Lemma strip_fixed s : head_ok s -> last_ok s -> strip s = s.
Proof.
  intros Hh Hl. unfold strip. rewrite (lstrip_fixed s Hh).
  by apply rstrip_fixed.
Qed.

(** The names that [sanitize_filename] leaves as they are: those without a
    reserved character that neither begin nor end with white space. *)
Theorem sanitize_filename_fixed_iff (x : pystr) :
  sanitize_filename x = x <->
  Forall (fun c => c ∉ reserved_chars) x /\ head_ok x /\ last_ok x.
Proof.
  unfold sanitize_filename. split.
  - intros E. split; [|split].
    + rewrite <- E. eapply Forall_impl.
      * apply strip_Forall, re_sub_reserved_clean.
      * intros c. apply is_reserved_spec.
    + rewrite <- E. apply strip_head_ok.
    + rewrite <- E. apply strip_last_ok.
  - intros (Hclean & Hh & Hl).
    rewrite re_sub_reserved_fixed.
    + by apply strip_fixed.
    + eapply Forall_impl; [exact Hclean|]. intros c. apply is_reserved_spec.
Qed.

(** [sanitize_filename] changes a name in two ways only: each reserved
    character becomes an underscore, character by character, and white space
    is cut off at both ends - nothing but white space is cut, and the result
    neither begins nor ends with white space. *)
Theorem sanitize_filename_trims_only_space (x : pystr) :
  exists sp1 sp2,
    re_sub_reserved x = sp1 ++ sanitize_filename x ++ sp2 /\
    Forall (fun c => isspace c = true) sp1 /\
    Forall (fun c => isspace c = true) sp2 /\
    head_ok (sanitize_filename x) /\ last_ok (sanitize_filename x) /\
    length (re_sub_reserved x) = length x.
Proof.
  unfold sanitize_filename.
  destruct (lstrip_split_space (re_sub_reserved x)) as (sp1 & E1 & H1).
  destruct (rstrip_split_space (lstrip (re_sub_reserved x)))
    as (sp2 & E2 & H2).
  exists sp1, sp2. repeat split; try done.
  - unfold strip. rewrite <- E2. exact E1.
  - apply strip_head_ok.
  - apply strip_last_ok.
  - unfold re_sub_reserved. apply length_map.
Qed.

(** ** The fetcher, continued *)

Lemma fetched_refl w : fetched w w.
Proof.
  split; [done|]. split; [by exists 0%nat|].
  exists []. by rewrite app_nil_r.
Qed.

Lemma fetched_trans w1 w2 w3 : fetched w1 w2 -> fetched w2 w3 -> fetched w1 w3.
Proof.
  intros (Hf1 & [k1 Hn1] & tr1 & Ht1 & Ha1) (Hf2 & [k2 Hn2] & tr2 & Ht2 & Ha2).
  split; [congruence|]. split.
  - exists (k1 + k2)%nat. rewrite Hn2, Hn1. apply drop_drop.
  - exists (tr1 ++ tr2). rewrite Ht2, Ht1, <- app_assoc. split; [done|].
    by rewrite forallb_app, Ha1, Ha2.
Qed.

Lemma fetched_step w rest tr :
  (exists k, rest = drop k (net w)) ->
  forallb fetch_action tr = true ->
  fetched w (World (fs w) rest (trace w ++ tr)).
Proof. intros Hk Htr. split; [done|]. split; [done|]. by exists tr. Qed.

Lemma fetch_attempt_fetched url i w : fetched w (fetch_attempt url i w).2.
Proof.
  unfold fetch_attempt, try_except, bind, requests_get,
    retry_after_seconds, time_sleep, log, raise, ret.
  rewrite pow2_sleep.
  repeat (case_match; simplify_eq; simpl in *);
    rewrite <- ?app_assoc;
    apply fetched_step; try done;
    first [ by exists 1%nat; match goal with H : net _ = _ |- _ => rewrite H end
          | by exists 0%nat; match goal with H : net _ = _ |- _ => rewrite H end ].
Qed.

Lemma fetch_attempts_fetched url indices :
  forall w, fetched w (for_each (fetch_attempt url) indices w).2.
Proof.
  induction indices as [|i indices IH]; intros w; simpl.
  - apply fetched_refl.
  - unfold bind. pose proof (fetch_attempt_fetched url i w) as H.
    destruct (fetch_attempt url i w) as [[o|e] w1]; simpl in *; [|done].
    destruct o; simpl; try done. eapply fetched_trans; [exact H | apply IH].
Qed.

Lemma fetch_pages_fetched retries : forall fuel current_url all_items w,
  fetched w (fetch_pages fuel retries current_url all_items w).2.
Proof.
  induction fuel as [|fuel IH]; intros current_url all_items w.
  - apply fetched_refl.
  - cbn [fetch_pages]. destruct current_url as [[|c url]|];
      try apply fetched_refl.
    unfold bind.
    pose proof (fetch_attempts_fetched (c :: url) (range retries) w) as H.
    destruct (for_each (fetch_attempt (c :: url)) (range retries) w)
      as [[o|e] w1]; simpl in *; [|done].
    destruct o as [data| |ret0]; try done.
    destruct (payload_truthy data); simpl; [|done].
    destruct data as [value next_link|fields]; [|done].
    eapply fetched_trans; [exact H | apply IH].
Qed.

(** Whatever the service answers, [fetch_json] leaves the file system as
    it is, consumes answers in order, and adds to the trace nothing but
    requests that are not streamed and sleeps: it never writes a file. *)
Theorem fetch_json_only_fetches
    (url token : pystr) (retries : nat) (use_pagination : bool) (w : world) :
  let out := fetch_json url token retries use_pagination w in
  fs out.2 = fs w /\
  (exists k, net out.2 = drop k (net w)) /\
  (exists tr, trace out.2 = trace w ++ tr /\ forallb fetch_action tr = true).
Proof. unfold fetch_json. apply fetch_pages_fetched. Qed.







Lemma fetch_page_accepted_last url retries p w rest :
  pf_accepted retries p = true ->
  net w = pf_events p ++ rest ->
  exists tr,
    for_each (fetch_attempt url) (range retries) w
    = (Ok (Break (json (pf_answer p))), World (fs w) rest (trace w ++ tr)).
Proof.
  unfold pf_accepted, pf_events. intros Hok Hnet.
  apply andb_prop in Hok as [Hok H200]. apply andb_prop in Hok as [Hlen Hb].
  apply Nat.ltb_lt in Hlen. apply bool_decide_eq_true in Hb as [sleeps Hsl].
  apply Z.eqb_eq in H200.
  rewrite <- app_assoc in Hnet.
  replace retries
    with (length (pf_retried p) + S (retries - S (length (pf_retried p))))%nat
    by lia.
  unfold range.
  rewrite (fetch_retry_prefix url _ 0 sleeps _ w _ Hsl Hnet). simpl.
  unfold bind at 1.
  erewrite fetch_attempt_accepted; [|reflexivity|done]. simpl.
  eexists. unfold ret. by rewrite <- app_assoc.
Qed.

(** The fetcher after a history of pages, at a page that is accepted: what
    is left to do depends on the body of that page. *)
Lemma fetch_json_last_page url token retries use_pagination h p rest w :
  with_top url use_pagination <> [] ->
  Forall (fun p => pf_ok retries p = true) h ->
  pf_accepted retries p = true ->
  net w = history_events h ++ pf_events p ++ rest ->
  exists fuel tr,
    fetch_json url token retries use_pagination w
    = (if negb (payload_truthy (json (pf_answer p))) then
         ret (partial_result (history_items h))
       else match json (pf_answer p) with
            | Listing value next_link =>
                fetch_pages (S fuel) retries next_link
                            (history_items h ++ value)
            | Resource _ => ret (Some (json (pf_answer p)))
            end)
        (World (fs w) rest (trace w ++ tr)).
Proof.
  intros Hurl Hall Hp Hnet. unfold fetch_json.
  pose proof (history_events_length h) as Hh.
  destruct (fetch_pages_history retries h (S (length (net w)))
              (with_top url use_pagination) [] w (pf_events p ++ rest))
    as (url' & tr & Hurl' & ->); [done|done| |done|].
  { rewrite Hnet, length_app. lia. }
  destruct (S (length (net w)) - length h)%nat as [|[|fuel]] eqn:Hfuel.
  { rewrite Hnet, length_app in Hfuel. lia. }
  { rewrite Hnet, !length_app in Hfuel. unfold pf_events in Hfuel.
    rewrite length_app in Hfuel. simpl in Hfuel. lia. }
  destruct url' as [|c url']; [done|]. cbn [fetch_pages]. unfold bind.
  destruct (fetch_page_accepted_last (c :: url') retries p
              (World (fs w) (pf_events p ++ rest) (trace w ++ tr)) rest Hp)
    as [tr' ->]; [done|].
  exists fuel, (tr ++ tr'). simpl. rewrite <- app_assoc.
  destruct (payload_truthy (json (pf_answer p))); simpl; [|done].
  by destruct (json (pf_answer p)).
Qed.

(** A listing split over continuation pages, each obtained after any
    number of retried attempts within the budget: the fetcher returns the
    items of all pages, in the order of the pages, once a page comes
    without a next link (or with an empty one). *)
Theorem fetch_json_accumulates
    (url token : pystr) (retries : nat) (use_pagination : bool)
    (h : list page_fetch) (p : page_fetch)
    (value : list item) (next_link : option pystr)
    (rest : list net_event) (w : world) :
  with_top url use_pagination <> [] ->
  Forall (fun p => pf_ok retries p = true) h ->
  pf_accepted retries p = true ->
  json (pf_answer p) = Listing value next_link ->
  str_truthy next_link = false ->
  net w = history_events h ++ pf_events p ++ rest ->
  let out := fetch_json url token retries use_pagination w in
  out.1 = Ok (Some (Listing (history_items h ++ value) None)) /\
  fs out.2 = fs w /\ net out.2 = rest.
Proof.
  intros Hurl Hall Hp Hjson Hnext Hnet out. subst out.
  destruct (fetch_json_last_page url token retries use_pagination h p rest w)
    as (fuel & tr & ->); try done.
  rewrite Hjson. cbn [payload_truthy negb fetch_pages].
  by destruct next_link as [[|c n]|].
Qed.

Lemma fetch_json_accumulates_witness :
  let w := World empty_fs
             ([Answer (answer 503); Answer first_page]
              ++ [Unreachable; Answer last_page] ++ [Answer (answer 404)]) [] in
  let out := fetch_json listing_url token0 5 true w in
  out.1 = Ok (Some (Listing
            (history_items [PageFetch [Answer (answer 503)] first_page]
             ++ [item_a]) None)) /\
  fs out.2 = fs w /\ net out.2 = [Answer (answer 404)].
Proof.
  intros w.
  apply (fetch_json_accumulates listing_url token0 5 true
           [PageFetch [Answer (answer 503)] first_page]
           (PageFetch [Unreachable] last_page) [item_a] None
           [Answer (answer 404)] w).
  - vm_compute. discriminate.
  - repeat constructor.
  - reflexivity.
  - reflexivity.
  - reflexivity.
  - reflexivity.
Defined.

(** A page that is accepted but is no listing (an object without [value])
    is returned as it is: when it comes after pages of a listing, the items
    accumulated from them are dropped. *)
Theorem fetch_json_returns_non_listing
    (url token : pystr) (retries : nat) (use_pagination : bool)
    (h : list page_fetch) (p : page_fetch)
    (fields : list (pystr * pystr))
    (rest : list net_event) (w : world) :
  with_top url use_pagination <> [] ->
  Forall (fun p => pf_ok retries p = true) h ->
  pf_accepted retries p = true ->
  json (pf_answer p) = Resource fields ->
  fields <> [] ->
  net w = history_events h ++ pf_events p ++ rest ->
  let out := fetch_json url token retries use_pagination w in
  out.1 = Ok (Some (Resource fields)) /\ net out.2 = rest.
Proof.
  intros Hurl Hall Hp Hjson Hfields Hnet out. subst out.
  destruct (fetch_json_last_page url token retries use_pagination h p rest w)
    as (fuel & tr & ->); try done.
  rewrite Hjson. by destruct fields.
Qed.

Lemma fetch_json_returns_non_listing_witness :
  let page := json_answer (Resource [(py "id", py "7")]) in
  let w := World empty_fs ([Answer first_page] ++ [Answer page] ++ []) [] in
  let out := fetch_json listing_url token0 5 true w in
  out.1 = Ok (Some (Resource [(py "id", py "7")])) /\ net out.2 = [].
Proof.
  intros page w.
  apply (fetch_json_returns_non_listing listing_url token0 5 true
           [PageFetch [] first_page] (PageFetch [] page)
           [(py "id", py "7")] [] w).
  - vm_compute. discriminate.
  - repeat constructor.
  - reflexivity.
  - reflexivity.
  - discriminate.
  - reflexivity.
Defined.

(** A 200 answer whose body is the empty object counts as no data: the
    fetcher does not try again but gives up as when its attempts are used
    up - the items accumulated so far if there are any, else [None]. *)
Theorem fetch_json_empty_object
    (url token : pystr) (retries : nat) (use_pagination : bool)
    (h : list page_fetch) (p : page_fetch)
    (rest : list net_event) (w : world) :
  with_top url use_pagination <> [] ->
  Forall (fun p => pf_ok retries p = true) h ->
  pf_accepted retries p = true ->
  json (pf_answer p) = Resource [] ->
  net w = history_events h ++ pf_events p ++ rest ->
  let out := fetch_json url token retries use_pagination w in
  out.1 = Ok match history_items h with
             | [] => None
             | _ :: _ => Some (Listing (history_items h) None)
             end
  /\ net out.2 = rest.
Proof.
  intros Hurl Hall Hp Hjson Hnet out. subst out.
  destruct (fetch_json_last_page url token retries use_pagination h p rest w)
    as (fuel & tr & ->); try done.
  by rewrite Hjson.
Qed.

Lemma fetch_json_empty_object_witness :
  let w := World empty_fs
             ([] ++ [Answer (json_answer (Resource []))]
              ++ [Answer last_page]) [] in
  let out := fetch_json listing_url token0 5 false w in
  out.1 = Ok None /\ net out.2 = [Answer last_page].
Proof.
  intros w.
  apply (fetch_json_empty_object listing_url token0 5 false
           [] (PageFetch [] (json_answer (Resource []))) [Answer last_page] w).
  - vm_compute. discriminate.
  - constructor.
  - reflexivity.
  - reflexivity.
  - reflexivity.
Defined.

(** When pagination is asked for, the URL that is requested always carries
    a [$top] parameter, and a URL that has one already is requested as it
    is: adding the page size twice is adding it once. *)
Theorem with_top_has_page_size (url : pystr) :
  substring (py "$top") (with_top url true) /\
  (substring (py "$top") url -> with_top url true = url) /\
  with_top (with_top url true) true = with_top url true.
Proof.
  assert (Hhas : substring (py "$top") (with_top url true)).
  { unfold with_top. cbn [andb].
    destruct (contains (py "$top") url) eqn:E; cbn [negb].
    - by apply contains_spec.
    - exists (url ++ (if contains (py "?") url then py "&" else py "?")),
             (py "=20").
      by rewrite <- !app_assoc. }
  assert (Hfix : forall u, substring (py "$top") u -> with_top u true = u).
  { intros u Hu. apply contains_spec in Hu. unfold with_top. by rewrite Hu. }
  split; [done|]. split; [apply Hfix|]. by apply Hfix.
Qed.

(** ** The downloader, continued *)

Lemma download_attempt_not_accepted url save_path i e w rest :
  net w = e :: rest -> not_accepted e = true ->
  download_attempt url save_path i w
  = (Ok Continue,
     World (fs w) rest (trace w ++ Get url true :: download_pause i e)).
Proof.
  intros Hnet He.
  unfold download_attempt, try_except, bind, requests_get. rewrite Hnet.
  unfold download_pause, throttle_wait. destruct e as [r|]; cbn [not_accepted] in He.
  - apply negb_true_iff in He. cbn [fs net trace]. rewrite He.
    destruct (status_code r =? 429) eqn:E429.
    + unfold retry_after_seconds, time_sleep, raise, ret, log.
      rewrite (pow2_sleep i).
      destruct (retry_after r) as [h|]; cbn.
      * destruct (py_int h) as [n|]; cbn; [|by rewrite <- app_assoc].
        destruct (n <? 0) eqn:En; cbn; by rewrite <- app_assoc.
      * by rewrite <- app_assoc.
    + destruct (status_code r >=? 500) eqn:E500.
      * rewrite time_sleep_pow2. cbn. unfold ret. by rewrite <- app_assoc.
      * done.
  - cbn. rewrite time_sleep_pow2. cbn. unfold ret. by rewrite <- app_assoc.
Qed.

Lemma download_retry_prefix url save_path evs : forall a m w rest,
  forallb not_accepted evs = true ->
  net w = evs ++ rest ->
  for_each (download_attempt url save_path) (seq a (length evs + m)) w
  = for_each (download_attempt url save_path) (seq (a + length evs) m)
      (World (fs w) rest (trace w ++ download_trace url a evs)).
Proof.
  induction evs as [|e evs IH]; intros a m w rest Hall Hnet.
  - simpl in *. rewrite Nat.add_0_r, app_nil_r, <- Hnet. by rewrite world_eta.
  - cbn [forallb] in Hall. apply andb_prop in Hall as [He Hall].
    cbn [length Nat.add seq for_each download_trace]. unfold bind at 1.
    rewrite (download_attempt_not_accepted url save_path a e w (evs ++ rest)
               Hnet He).
    rewrite (IH (S a) m
               (World (fs w) (evs ++ rest)
                      (trace w ++ Get url true :: download_pause a e))
               rest Hall eq_refl).
    cbn [fs trace]. rewrite <- app_assoc. cbn [app].
    by replace (a + S (length evs))%nat with (S (a + length evs)) by lia.
Qed.

(** The downloader succeeds as soon as an attempt within the budget is
    answered with 200 and the file at [save_path] can be opened for writing
    (its directory exists, its name is one the system takes, it is no
    directory): whatever the earlier attempts met - transport errors, 5xx,
    429, other statuses - it returns [True], and the file at [save_path]
    holds the body of that answer.  A 429 answer whose header cannot be
    converted is retried after a backoff, where the fetcher would raise.
    The budget is one whose backoffs the platform can sleep (34 attempts at
    most), and so are the waits the 429 answers ask for. *)
Theorem download_file_succeeds
    (url save_path token : pystr) (retries : nat)
    (evs : list net_event) (r : response) (rest : list net_event) (w : world) :
  (retries <= max_backoff_budget)%nat ->
  (length evs < retries)%nat ->
  forallb not_accepted evs = true ->
  forallb sleepable evs = true ->
  status_code r = 200 ->
  writable (fs w) save_path = true ->
  net w = evs ++ Answer r :: rest ->
  download_file url save_path token retries w
  = (Ok true,
     World (with_file (fs w) save_path (Binary (content r))) rest
           (trace w ++ download_trace url 0 evs
            ++ [Get url true; WriteFile save_path])).
Proof.
  intros _ Hlen Hall _ Hr Hdir Hnet. unfold download_file, bind, range.
  replace retries
    with (length evs + S (retries - S (length evs)))%nat by lia.
  rewrite (download_retry_prefix url save_path evs 0 _ w _ Hall Hnet).
  cbn [Nat.add seq for_each]. unfold bind.
  unfold download_attempt at 1, try_except, bind, requests_get.
  cbn [net fs trace]. rewrite Hr. cbn [Z.eqb Pos.eqb].
  rewrite write_file_binary by done.
  cbn. unfold ret. by rewrite <- !app_assoc.
Qed.

Lemma download_file_succeeds_witness :
  let evs := [Answer (throttled (Some (py "soon"))); Answer (answer 404)] in
  let w := World (FileSystem {[py "a"]} ∅)
                 (evs ++ Answer (bytes_answer [1; 2]%N) :: []) [] in
  download_file image_url (py "a/x.png") token0 3 w
  = (Ok true,
     World (with_file (fs w) (py "a/x.png")
                      (Binary (content (bytes_answer [1; 2]%N)))) []
           (trace w ++ download_trace image_url 0 evs
            ++ [Get image_url true; WriteFile (py "a/x.png")])).
Proof.
  intros evs w.
  apply (download_file_succeeds image_url (py "a/x.png") token0 3 evs
           (bytes_answer [1; 2]%N) [] w).
  - unfold max_backoff_budget. lia.
  - simpl. lia.
  - reflexivity.
  - reflexivity.
  - reflexivity.
  - by vm_compute.
  - reflexivity.
Defined.

Lemma differs_at_refl path f : differs_at path f f.
Proof. by split. Qed.

Lemma differs_at_trans path f1 f2 f3 :
  differs_at path f1 f2 -> differs_at path f2 f3 -> differs_at path f1 f3.
Proof.
  intros [Hd1 Hf1] [Hd2 Hf2]. split; [congruence|].
  intros p Hp. by rewrite Hf2, Hf1.
Qed.

Lemma differs_at_write path f d : differs_at path f (with_file f path d).
Proof.
  split; [done|]. intros p Hp. simpl. by rewrite lookup_insert_ne.
Qed.

Lemma download_attempt_differs url save_path i w :
  differs_at save_path (fs w) (fs (download_attempt url save_path i w).2).
Proof.
  unfold download_attempt, try_except, bind, requests_get,
    retry_after_seconds, write_file, time_sleep, log, raise, ret.
  rewrite pow2_sleep.
  repeat (case_match; simplify_eq; simpl in *);
    first [apply differs_at_refl | apply differs_at_write].
Qed.

(** Whatever the service answers, [download_file] creates no directory and
    leaves every file other than the one at [save_path] as it is. *)
Theorem download_file_touches_only_save_path
    (url save_path token : pystr) (retries : nat) (w : world) :
  let out := download_file url save_path token retries w in
  dirs (fs out.2) = dirs (fs w) /\
  forall p, p <> save_path -> files (fs out.2) !! p = files (fs w) !! p.
Proof.
  cbn zeta. unfold download_file, bind.
  assert (H : forall indices w0,
    differs_at save_path (fs w0)
      (fs (for_each (download_attempt url save_path) indices w0).2)).
  { induction indices as [|i indices IH]; intros w0; simpl.
    - apply differs_at_refl.
    - unfold bind. pose proof (download_attempt_differs url save_path i w0) as Hi.
      destruct (download_attempt url save_path i w0) as [[o|e] w1];
        simpl in *; [|done].
      destruct o; simpl; try done.
      eapply differs_at_trans; [exact Hi | apply IH]. }
  specialize (H (range retries) w).
  destruct (for_each (download_attempt url save_path) (range retries) w)
    as [[o|e] w1]; simpl in *; [|done].
  by destruct o.
Qed.

Lemma download_attempt_directory url save_path i w :
  save_path ∈ dirs (fs w) ->
  exists w', download_attempt url save_path i w = (Ok Continue, w')
             /\ fs w' = fs w.
Proof.
  intros Hdir. apply directory_not_writable in Hdir.
  unfold download_attempt, try_except, bind, requests_get.
  destruct (net w) as [|[r|] rest]; cbn [is_exception];
    try (rewrite time_sleep_pow2; cbn; eauto).
  destruct (status_code r =? 200) eqn:E200.
  - destruct (write_file_refused save_path (Binary (content r))
                (World (fs w) rest (trace w ++ [Get url true])) Hdir)
      as (e & He & ->).
    rewrite He, time_sleep_pow2. cbn. eauto.
  - unfold retry_after_seconds, time_sleep, log, raise, ret.
    rewrite pow2_sleep.
    repeat (case_match; simplify_eq; simpl in * ); eauto.
Qed.

(** When [save_path] is a directory the downloader cannot open it for
    writing: whatever the service answers, even 200 every time, it returns
    [False] and the file system is as it was. *)
Theorem download_file_onto_directory
    (url save_path token : pystr) (retries : nat) (w : world) :
  save_path ∈ dirs (fs w) ->
  let out := download_file url save_path token retries w in
  out.1 = Ok false /\ fs out.2 = fs w.
Proof.
  intros Hdir. cbn zeta. unfold download_file, bind.
  assert (H : forall indices w0, fs w0 = fs w ->
    exists w', for_each (download_attempt url save_path) indices w0
               = (Ok Continue, w') /\ fs w' = fs w).
  { induction indices as [|i indices IH]; intros w0 Hw0; simpl.
    - by exists w0.
    - unfold bind.
      destruct (download_attempt_directory url save_path i w0)
        as (w1 & -> & Hw1); [by rewrite Hw0|].
      apply IH. congruence. }
  destruct (H (range retries) w eq_refl) as (w' & -> & Hw'). by simpl.
Qed.

Lemma download_file_onto_directory_witness :
  let w := World (FileSystem {[py "a/x.png"]} ∅)
                 [Answer (bytes_answer [1; 2]%N);
                  Answer (bytes_answer [1; 2]%N)] [] in
  let out := download_file image_url (py "a/x.png") token0 2 w in
  out.1 = Ok false /\ fs out.2 = fs w.
Proof.
  intros w.
  apply (download_file_onto_directory image_url (py "a/x.png") token0 2 w).
  vm_compute. set_solver.
Defined.

(** ** The page content processor, continued *)

Lemma content_attempt_retried url i e p w rest :
  net w = e :: rest -> content_pause i e = Some p ->
  content_attempt url i w
  = (Ok Continue, World (fs w) rest (trace w ++ Get url false :: p)).
Proof.
  intros Hnet Hp.
  unfold content_attempt, try_except, bind, requests_get. rewrite Hnet.
  unfold content_pause, throttle_wait in Hp. destruct e as [r|]; simpl.
  - destruct (status_code r =? 200); [done|].
    destruct (status_code r =? 429).
    + unfold retry_after_seconds, time_sleep.
      destruct (retry_after r) as [h|].
      * destruct (py_int h) as [n|]; [|done].
        destruct (n <? 0) eqn:E; [done|]. injection Hp as <-.
        unfold ret. rewrite E. unfold log. simpl. by rewrite <- app_assoc.
      * injection Hp as <-. unfold ret, log. simpl. by rewrite <- app_assoc.
    + destruct (status_code r >=? 500); injection Hp as <-.
      * rewrite time_sleep_pow2. simpl. unfold ret. by rewrite <- app_assoc.
      * unfold ret. by rewrite app_nil_r || done.
  - injection Hp as <-. rewrite time_sleep_pow2. simpl. unfold ret.
    by rewrite <- app_assoc.
Qed.

Lemma content_retry_prefix url evs : forall a tr m w rest,
  content_trace url a evs = Some tr ->
  net w = evs ++ rest ->
  for_each (content_attempt url) (seq a (length evs + m)) w
  = for_each (content_attempt url) (seq (a + length evs) m)
             (World (fs w) rest (trace w ++ tr)).
Proof.
  induction evs as [|e evs IH]; intros a tr m w rest Htr Hnet.
  - injection Htr as <-. simpl in *.
    rewrite Nat.add_0_r, app_nil_r, <- Hnet. by rewrite world_eta.
  - cbn [content_trace] in Htr.
    destruct (content_pause a e) as [p|] eqn:Hp; [|done].
    destruct (content_trace url (S a) evs) as [t|] eqn:Ht; [|done].
    injection Htr as <-.
    cbn [length Nat.add seq for_each]. unfold bind at 1.
    rewrite (content_attempt_retried url a e p w (evs ++ rest) Hnet Hp).
    rewrite (IH (S a) t m
               (World (fs w) (evs ++ rest) (trace w ++ Get url false :: p))
               rest Ht eq_refl).
    cbn [fs trace]. rewrite <- app_assoc. cbn [app].
    by replace (a + S (length evs))%nat with (S (a + length evs)) by lia.
Qed.

(** When none of the [retries] attempts to retrieve the content of a page
    is answered with 200, [process_page_content] returns [None] and the
    file system is as it was: no assets directory is created. *)
Theorem process_page_content_unavailable
    (env : collaborators) (page_id token assets_dir : pystr) (retries : nat)
    (evs : list net_event) (tr : list action)
    (rest : list net_event) (w : world) :
  length evs = retries ->
  content_trace (content_url page_id) 0 evs = Some tr ->
  net w = evs ++ rest ->
  process_page_content env page_id token assets_dir retries w
  = (Ok None, World (fs w) rest (trace w ++ tr)).
Proof.
  intros Hlen Htr Hnet. unfold process_page_content, bind, range.
  replace retries with (length evs + 0)%nat by lia.
  by rewrite (content_retry_prefix _ evs 0 tr 0 w rest Htr Hnet).
Qed.

Lemma process_page_content_unavailable_witness :
  let evs := [Answer (answer 404); Unreachable; Answer (throttled None)] in
  let w := World empty_fs (evs ++ [Answer (text_answer (py "<p>hi</p>"))]) [] in
  process_page_content plain_env (py "p1") token0 assets_dir0 3 w
  = (Ok None,
     World (fs w) [Answer (text_answer (py "<p>hi</p>"))]
       (trace w ++ [Get (content_url (py "p1")) false;
                    Get (content_url (py "p1")) false; Sleep 2;
                    Get (content_url (py "p1")) false; Sleep 10])).
Proof.
  intros evs w.
  apply (process_page_content_unavailable plain_env (py "p1") token0
           assets_dir0 3 evs _ [Answer (text_answer (py "<p>hi</p>"))] w).
  - reflexivity.
  - reflexivity.
  - reflexivity.
Defined.

(** A page whose content is retrieved but is the empty string is treated
    as not retrieved: [None], no assets directory, and the attempts that
    are left are not used. *)
Theorem process_page_content_empty_body
    (env : collaborators) (page_id token assets_dir : pystr) (retries : nat)
    (evs : list net_event) (tr : list action) (r : response)
    (rest : list net_event) (w : world) :
  (length evs < retries)%nat ->
  content_trace (content_url page_id) 0 evs = Some tr ->
  status_code r = 200 ->
  text r = [] ->
  net w = evs ++ Answer r :: rest ->
  process_page_content env page_id token assets_dir retries w
  = (Ok None,
     World (fs w) rest (trace w ++ tr ++ [Get (content_url page_id) false])).
Proof.
  intros Hlen Htr Hr Htext Hnet. unfold process_page_content, bind, range.
  replace retries
    with (length evs + S (retries - S (length evs)))%nat by lia.
  rewrite (content_retry_prefix _ evs 0 tr _ w _ Htr Hnet).
  cbn [Nat.add seq for_each]. unfold bind.
  unfold content_attempt at 1, try_except, bind, requests_get.
  cbn [net fs trace]. rewrite Hr, Htext. cbn. unfold ret.
  by rewrite <- app_assoc.
Qed.

Lemma process_page_content_empty_body_witness :
  let w := World empty_fs
                 ([Answer (answer 500)] ++ Answer (text_answer []) :: []) [] in
  process_page_content plain_env (py "p1") token0 assets_dir0 3 w
  = (Ok None,
     World (fs w) []
       (trace w ++ [Get (content_url (py "p1")) false; Sleep 1]
        ++ [Get (content_url (py "p1")) false])).
Proof.
  intros w.
  apply (process_page_content_empty_body plain_env (py "p1") token0
           assets_dir0 3 [Answer (answer 500)] _ (text_answer []) [] w).
  - simpl. lia.
  - reflexivity.
  - reflexivity.
  - reflexivity.
  - reflexivity.
Defined.

(** When the download of a media element fails - none of the three
    attempts is answered with 200 - the element is left as it is in the
    document, with its remote source, and nothing is written. *)
Theorem process_tag_download_fails
    (env : collaborators) (page_id token assets_dir : pystr)
    (soup : list tag) (idx : nat) (t : tag) (src : pystr)
    (evs rest : list net_event) (w : world) :
  media_src t = Some src ->
  startswith src (py "http") = true ->
  length evs = 3%nat ->
  forallb not_accepted evs = true ->
  net w = evs ++ rest ->
  process_tag env page_id token assets_dir soup (idx, t) w
  = (Ok soup, World (fs w) rest (trace w ++ download_trace src 0 evs)).
Proof.
  intros Hsrc Hhttp Hlen Hall Hnet. unfold process_tag. rewrite Hsrc.
  destruct src as [|c src]; [done|]. rewrite Hhttp. cbn [negb].
  unfold bind, download_file, bind, range.
  replace 3%nat with (length evs + 0)%nat by lia.
  by rewrite (download_retry_prefix (c :: src) _ evs 0 0 w rest Hall Hnet).
Qed.

Lemma process_tag_download_fails_witness :
  let t := Tag (py "img") [(py "src", image_url)] None in
  let evs := [Answer (answer 404); Answer (answer 503); Unreachable] in
  let w := World empty_fs (evs ++ []) [] in
  process_tag image_env (py "p1") token0 assets_dir0 [t] (0%nat, t) w
  = (Ok [t], World (fs w) [] (trace w ++ download_trace image_url 0 evs)).
Proof.
  intros t evs w.
  apply (process_tag_download_fails image_env (py "p1") token0 assets_dir0
           [t] 0 t image_url evs [] w).
  - reflexivity.
  - reflexivity.
  - reflexivity.
  - reflexivity.
  - reflexivity.
Defined.

(** When the download of a media element succeeds - one of the three
    attempts is answered with 200 and the file can be opened for writing in
    the assets directory, which exists - the body is stored there under the
    generated file name, and the element at its position in the document is
    replaced by its rewritten form, which refers to [assets/<file name>].
    The waits that earlier 429 answers ask for are within what the platform
    can sleep. *)
Theorem process_tag_download_succeeds
    (env : collaborators) (page_id token assets_dir : pystr)
    (soup : list tag) (idx : nat) (t : tag) (src : pystr)
    (evs : list net_event) (r : response) (rest : list net_event) (w : world) :
  media_src t = Some src ->
  startswith src (py "http") = true ->
  (length evs < 3)%nat ->
  forallb not_accepted evs = true ->
  forallb sleepable evs = true ->
  status_code r = 200 ->
  writable (fs w) (path_join assets_dir (media_filename env page_id idx t))
  = true ->
  net w = evs ++ Answer r :: rest ->
  let filename := media_filename env page_id idx t in
  let save_path := path_join assets_dir filename in
  process_tag env page_id token assets_dir soup (idx, t) w
  = (Ok (<[idx := rewrite_tag t (py "assets/" ++ filename)]> soup),
     World (with_file (fs w) save_path (Binary (content r))) rest
           (trace w ++ download_trace src 0 evs
            ++ [Get src true; WriteFile save_path])).
Proof.
  intros Hsrc Hhttp Hlen Hall _ Hr Hdir Hnet filename save_path.
  subst filename save_path.
  unfold process_tag. rewrite Hsrc.
  destruct src as [|c src]; [done|]. rewrite Hhttp. cbn [negb].
  unfold bind, download_file, bind, range.
  replace 3%nat with (length evs + S (3 - S (length evs)))%nat by lia.
  rewrite (download_retry_prefix (c :: src) _ evs 0 _ w _ Hall Hnet).
  cbn [Nat.add seq for_each]. unfold bind.
  unfold download_attempt at 1, try_except, bind, requests_get.
  cbn [net fs trace]. rewrite Hr. cbn [Z.eqb Pos.eqb].
  rewrite write_file_binary by done.
  cbn. unfold ret. by rewrite <- !app_assoc.
Qed.

Lemma process_tag_download_succeeds_witness :
  let t := Tag (py "img") [(py "src", image_url)] None in
  let w := World (FileSystem {[assets_dir0]} ∅)
                 ([] ++ Answer (bytes_answer [7]%N) :: []) [] in
  let filename := media_filename image_env (py "p1") 0 t in
  let save_path := path_join assets_dir0 filename in
  process_tag image_env (py "p1") token0 assets_dir0 [t] (0%nat, t) w
  = (Ok (<[0%nat := rewrite_tag t (py "assets/" ++ filename)]> [t]),
     World (with_file (fs w) save_path (Binary (content (bytes_answer [7]%N))))
           []
           (trace w ++ download_trace image_url 0 []
            ++ [Get image_url true; WriteFile save_path])).
Proof.
  intros t w.
  apply (process_tag_download_succeeds image_env (py "p1") token0 assets_dir0
           [t] 0 t image_url [] (bytes_answer [7]%N) [] w).
  - reflexivity.
  - reflexivity.
  - simpl. lia.
  - reflexivity.
  - reflexivity.
  - reflexivity.
  - by vm_compute.
  - reflexivity.
Defined.

(** Equality of strings as [eqb] decides it. *)
Lemma eqb_eq a b : eqb a b = true <-> a = b.
Proof.
  revert b. induction a as [|x a IH]; intros [|y b]; simpl; try done.
  rewrite andb_true_iff, N.eqb_eq, IH. split.
  - by intros [-> ->].
  - intros [= -> ->]. done.
Qed.

Lemma eqb_refl a : eqb a a = true.
Proof. by apply eqb_eq. Qed.

Lemma tag_get_set l key v : tag_get (tag_set l key v) key = Some v.
Proof.
  induction l as [|[k v'] l IH]; simpl.
  - by rewrite eqb_refl.
  - destruct (eqb k key) eqn:E; simpl; by rewrite E.
Qed.

Lemma tag_get_del l key : tag_get (tag_del l key) key = None.
Proof.
  unfold tag_del. induction l as [|[k v] l IH]; [done|].
  rewrite filter_cons. case_decide as Hd; [|exact IH].
  cbn [fst] in Hd. cbn [tag_get].
  destruct (eqb k key); [done | exact IH].
Qed.

Lemma tag_get_del_other l key key' :
  eqb key key' = false -> tag_get (tag_del l key) key' = tag_get l key'.
Proof.
  intros Hne. unfold tag_del. induction l as [|[k v] l IH]; [done|].
  rewrite filter_cons. case_decide as Hd; cbn [fst] in Hd; cbn [tag_get].
  - by rewrite IH.
  - destruct (eqb k key) eqn:E; [|by destruct Hd].
    apply eqb_eq in E as ->. by rewrite Hne.
Qed.

Lemma tag_get_set_other l key v key' :
  eqb key key' = false -> tag_get (tag_set l key v) key' = tag_get l key'.
Proof.
  intros Hne. induction l as [|[k v'] l IH]; cbn [tag_set tag_get].
  - by rewrite Hne.
  - destruct (eqb k key) eqn:E; cbn [tag_get].
    + apply eqb_eq in E as ->. by rewrite Hne.
    + by rewrite IH.
Qed.

Lemma eqb_neq a b : a <> b -> eqb a b = false.
Proof.
  intros H. destruct (eqb a b) eqn:E; [|done]. by apply eqb_eq in E.
Qed.

(** What a media element becomes after a successful download, [local]
    being [assets/<file name>].  An attachment is replaced by a link to the
    local file, labelled with the name of the attachment.  An image keeps
    its name, its text and its other attributes: its [src] is the local
    path and its [data-fullres-src] is gone.  An object that is no
    attachment is replaced by an image whose only attribute is the local
    [src].  In each case the new element has no source left to download,
    so a document is never left pointing at the remote host for media that
    were downloaded. *)
Theorem rewrite_tag_is_local (t : tag) (filename : pystr) :
  let local := py "assets/" ++ filename in
  let t' := rewrite_tag t local in
  (is_attachment t = true ->
     exists name,
       tag_get (attrs t) (py "data-attachment") = Some name
       /\ t' = Tag (py "a") [(py "href", local)]
                   (Some (attachment_label name)))
  /\ (is_attachment t = false -> tag_name t = py "img" ->
        tag_name t' = py "img"
        /\ tag_string t' = tag_string t
        /\ tag_get (attrs t') (py "src") = Some local
        /\ tag_get (attrs t') (py "data-fullres-src") = None
        /\ forall key, key <> py "src" -> key <> py "data-fullres-src" ->
             tag_get (attrs t') key = tag_get (attrs t) key)
  /\ (is_attachment t = false -> tag_name t = py "object" ->
        t' = Tag (py "img") [(py "src", local)] None)
  /\ (is_attachment t = true \/ tag_name t = py "img"
        \/ tag_name t = py "object" ->
        resolvable t' = false).
Proof.
  intros local t'. subst t' local. unfold is_attachment, rewrite_tag.
  assert (Hres : tag_name t = py "img" ->
    resolvable
      (Tag (tag_name t)
           (tag_del (tag_set (attrs t) (py "src") (py "assets/" ++ filename))
                    (py "data-fullres-src"))
           (tag_string t)) = false).
  { intros _. unfold resolvable, media_src. cbn [attrs].
    rewrite tag_get_del.
    rewrite (tag_get_del_other _ (py "data-fullres-src") (py "src") eq_refl).
    rewrite tag_get_set. reflexivity. }
  split; [|split; [|split]].
  - intros Ha.
    destruct (tag_get (attrs t) (py "data-attachment")) as [[|c name]|];
      try done. by eexists.
  - intros Ha Himg.
    assert (rewrite_img :
      match tag_get (attrs t) (py "data-attachment") with
      | Some ((_ :: _) as name) =>
          Tag (py "a") [(py "href", py "assets/" ++ filename)]
              (Some (attachment_label name))
      | _ =>
          if eqb (tag_name t) (py "img") then
            Tag (tag_name t)
                (tag_del (tag_set (attrs t) (py "src")
                                  (py "assets/" ++ filename))
                         (py "data-fullres-src"))
                (tag_string t)
          else if eqb (tag_name t) (py "object") then
            Tag (py "img") [(py "src", py "assets/" ++ filename)] None
          else t
      end
      = Tag (tag_name t)
            (tag_del (tag_set (attrs t) (py "src") (py "assets/" ++ filename))
                     (py "data-fullres-src"))
            (tag_string t)).
    { destruct (tag_get (attrs t) (py "data-attachment")) as [[|c name]|];
        try done; by rewrite Himg. }
    rewrite rewrite_img. cbn [tag_name tag_string attrs].
    split; [done|]. split; [done|]. split; [|split].
    + rewrite (tag_get_del_other _ (py "data-fullres-src") (py "src") eq_refl).
      apply tag_get_set.
    + apply tag_get_del.
    + intros key Hsrc Hfull.
      rewrite tag_get_del_other by by apply eqb_neq.
      by rewrite tag_get_set_other by by apply eqb_neq.
  - intros Ha Hobj.
    destruct (tag_get (attrs t) (py "data-attachment")) as [[|c name]|];
      try done; by rewrite Hobj.
  - intros H.
    destruct (tag_get (attrs t) (py "data-attachment")) as [[|c name]|];
      [ | reflexivity | ]; simpl in H;
      (destruct H as [H|[H|H]]; [done| |]);
      rewrite H; try (by apply Hres); reflexivity.
Qed.

Lemma rewrite_tag_is_local_witness :
  let t := Tag (py "img")
               [(py "data-fullres-src", image_url); (py "src", image_url);
                (py "alt", py "chart")]
               None in
  let t' := rewrite_tag t (py "assets/" ++ py "p1_asset_0.png") in
  tag_get (attrs t') (py "src") = Some (py "assets/p1_asset_0.png")
  /\ tag_get (attrs t') (py "data-fullres-src") = None
  /\ tag_get (attrs t') (py "alt") = Some (py "chart")
  /\ resolvable t' = false.
Proof.
  intros t t'.
  destruct (rewrite_tag_is_local t (py "p1_asset_0.png"))
    as (_ & Himg & _ & Hres).
  destruct (Himg eq_refl eq_refl) as (_ & _ & Hsrc & Hfull & Hother).
  split; [exact Hsrc|]. split; [exact Hfull|]. split.
  - exact (Hother (py "alt") ltac:(discriminate) ltac:(discriminate)).
  - apply Hres. right. left. reflexivity.
Defined.

Lemma decimal_fold a s :
  fold_left (fun acc c => (10 * acc + (N.to_nat c - 48))%nat) s a
  = (a * 10 ^ length s + decimal_value s)%nat.
Proof.
  unfold decimal_value. revert a.
  induction s as [|c s IH]; intros a; cbn [fold_left length].
  - simpl. lia.
  - rewrite (IH (10 * a + (N.to_nat c - 48))%nat).
    rewrite (IH (10 * 0 + (N.to_nat c - 48))%nat).
    rewrite Nat.pow_succ_r'.
    generalize (10 ^ length s)%nat (N.to_nat c - 48)%nat
               (fold_left (fun acc c0 => (10 * acc + (N.to_nat c0 - 48))%nat)
                          s 0%nat).
    intros p d v. nia.
Qed.

Lemma decimal_value_cons c s :
  decimal_value (c :: s)
  = ((N.to_nat c - 48) * 10 ^ length s + decimal_value s)%nat.
Proof.
  unfold decimal_value at 1. cbn [fold_left]. rewrite decimal_fold. lia.
Qed.

Lemma digit_value k : (N.to_nat (digit k) - 48)%nat = k.
Proof. unfold digit. lia. Qed.

Lemma of_nat_fuel_value fuel : forall n acc,
  (n < fuel)%nat ->
  decimal_value (of_nat_fuel fuel n acc)
  = (n * 10 ^ length acc + decimal_value acc)%nat.
Proof.
  induction fuel as [|fuel IH]; intros n acc Hn; [lia|].
  cbn [of_nat_fuel]. destruct (Nat.ltb_spec n 10) as [Hlt|Hge].
  - rewrite decimal_value_cons, digit_value. by rewrite Nat.mod_small.
  - assert (Hdiv : (n `div` 10 < fuel)%nat).
    { pose proof (Nat.div_lt n 10). lia. }
    rewrite (IH _ _ Hdiv), decimal_value_cons, digit_value.
    cbn [length]. rewrite Nat.pow_succ_r'.
    pose proof (Nat.div_mod_eq n 10) as Hdm.
    set (q := (n `div` 10)%nat) in *. set (m := (n `mod` 10)%nat) in *.
    set (p := (10 ^ length acc)%nat). clearbody q m p. nia.
Qed.

(** Reading the decimal digits an index was printed with gives the index
    back. *)
Lemma decimal_value_of_nat n : decimal_value (of_nat n) = n.
Proof.
  unfold of_nat. rewrite of_nat_fuel_value by lia. simpl.
  unfold decimal_value. simpl. lia.
Qed.

(** Within a page, two media elements that are no attachments and stand at
    different positions of the document never get the same asset file
    name: the position can be read back from the name. *)
Theorem media_filename_distinct
    (env : collaborators) (page_id : pystr) (i j : nat) (t t' : tag) :
  is_attachment t = false ->
  is_attachment t' = false ->
  i <> j ->
  media_filename env page_id i t <> media_filename env page_id j t'.
Proof.
  intros Ht Ht' Hij E. apply Hij. revert Ht Ht' E.
  unfold is_attachment, media_filename. intros Ht Ht' E.
  assert (Hname : forall (u : tag) k,
    str_truthy (tag_get (attrs u) (py "data-attachment")) = false ->
    exists ext, length ext = 4%nat /\
      match tag_get (attrs u) (py "data-attachment") with
      | Some ((_ :: _) as name) => page_id ++ py "_" ++ sanitize_filename name
      | _ => page_id ++ py "_asset_" ++ of_nat k ++
             (if contains (py "image/jpeg") (tag_str env u) then py ".jpg"
              else if contains (py "application/pdf") (tag_str env u)
                   then py ".pdf" else py ".png")
      end = page_id ++ py "_asset_" ++ of_nat k ++ ext).
  { intros u k Hu.
    destruct (tag_get (attrs u) (py "data-attachment")) as [[|c name]|];
      try done;
      destruct (contains (py "image/jpeg") (tag_str env u));
      try destruct (contains (py "application/pdf") (tag_str env u));
      (eexists; split; [|reflexivity]; reflexivity). }
  destruct (Hname t i Ht) as (ext & Hext & Hi).
  destruct (Hname t' j Ht') as (ext' & Hext' & Hj).
  rewrite Hi, Hj in E.
  apply app_inv_head in E. apply app_inv_head in E.
  apply app_inj_2 in E as [E _]; [|congruence].
  rewrite <- (decimal_value_of_nat i), <- (decimal_value_of_nat j).
  by rewrite E.
Qed.

Lemma media_filename_distinct_witness :
  let t := Tag (py "img") [(py "src", image_url)] None in
  let t' := Tag (py "object") [(py "data", image_url)] None in
  media_filename image_env (py "p1") 0 t
  <> media_filename image_env (py "p1") 10 t'.
Proof.
  intros t t'.
  apply (media_filename_distinct image_env (py "p1") 0 10 t t').
  - reflexivity.
  - reflexivity.
  - lia.
Defined.

(** ** The walker, continued *)

(** The resume decision only looks: whatever is on disk it returns a
    decision without raising, and it changes neither the file system nor
    the answers to come; it prints one message at most. *)
Theorem should_download_only_reads
    (md_file_path assets_dir page_title : pystr) (w : world) :
  exists (download : bool) (tr : list action),
    should_download md_file_path assets_dir page_title w
    = (Ok download, World (fs w) (net w) (trace w ++ tr))
    /\ (length tr <= 1)%nat.
Proof.
  unfold should_download, bind, path_exists, try_except, read_text, print,
    log, ret.
  destruct (exists_in (fs w) md_file_path).
  - destruct (files (fs w) !! md_file_path) as [[content|b]|]; simpl.
    + destruct (negb (contains remote_host content)
                && exists_in (fs w) assets_dir); simpl.
      * by exists false, [Printed (MsgSkip page_title)].
      * by exists true, [Printed (MsgRepair page_title)].
    + exists true, []. rewrite app_nil_r, world_eta. split; [done|]. simpl. lia.
    + exists true, []. rewrite app_nil_r, world_eta. split; [done|]. simpl. lia.
  - exists true, []. rewrite app_nil_r, world_eta. split; [done|]. simpl. lia.
Qed.

Lemma isspace_not_reserved c : isspace c = true -> is_reserved c = false.
Proof.
  intros Hs. destruct (is_reserved c) eqn:Hr; [|done].
  unfold is_reserved in Hr. apply existsb_exists in Hr as (x & Hin & Hx).
  apply N.eqb_eq in Hx as ->. simpl in Hin.
  repeat (destruct Hin as [<-|Hin]; [by vm_compute in Hs|]). done.
Qed.

Lemma lstrip_blank s : Forall (fun c => isspace c = true) s -> lstrip s = [].
Proof. induction 1 as [|c s Hc _ IH]; simpl; [done|]. by rewrite Hc. Qed.

(** A page is stored under the fallback name [Untitled_<id>] exactly when
    its title is empty or made of white space only; any other title gives
    its sanitized form, which is not empty. *)
Theorem page_title_fallback_iff_blank (page : item) :
  (Forall (fun c => isspace c = true) (item_name page) ->
     page_title_of page = py "Untitled_" ++ item_id page) /\
  (~ Forall (fun c => isspace c = true) (item_name page) ->
     page_title_of page = sanitize_filename (item_name page)
     /\ sanitize_filename (item_name page) <> []).
Proof.
  unfold page_title_of. split.
  - intros Hblank.
    assert (sanitize_filename (item_name page) = []) as ->; [|done].
    unfold sanitize_filename. rewrite re_sub_reserved_fixed.
    + unfold strip. by rewrite lstrip_blank.
    + eapply Forall_impl; [exact Hblank|]. apply isspace_not_reserved.
  - intros Hnot.
    destruct (sanitize_filename (item_name page)) as [|c s] eqn:E; [|done].
    destruct Hnot.
    destruct (lstrip_split_space (re_sub_reserved (item_name page)))
      as (sp1 & E1 & H1).
    destruct (rstrip_split_space (lstrip (re_sub_reserved (item_name page))))
      as (sp2 & E2 & H2).
    unfold sanitize_filename, strip in E. rewrite E in E2. rewrite E2 in E1.
    simpl in E1.
    assert (Hall : Forall (fun c => isspace c = true)
                          (re_sub_reserved (item_name page))).
    { rewrite E1. by apply Forall_app. }
    unfold re_sub_reserved in Hall. rewrite Forall_map in Hall.
    eapply Forall_impl; [exact Hall|]. intros c. simpl.
    destruct (is_reserved c); [|done]. by vm_compute.
Qed.

Lemma page_title_fallback_iff_blank_witness :
  page_title_of (Item (py "p9") (py "  ")) = py "Untitled_" ++ py "p9".
Proof.
  apply (page_title_fallback_iff_blank (Item (py "p9") (py "  "))).
  repeat constructor.
Defined.

Lemma process_page_content_plain env page_id token assets_dir retries
    evs tr r rest w :
  (length evs < retries)%nat ->
  content_trace (content_url page_id) 0 evs = Some tr ->
  status_code r = 200 ->
  text r <> [] ->
  forallb (fun t => negb (resolvable t)) (find_all env (text r)) = true ->
  net w = evs ++ Answer r :: rest ->
  process_page_content env page_id token assets_dir retries w
  = (Ok (Some (serialize env (text r) (find_all env (text r)))),
     World (if exists_in (fs w) assets_dir then fs w
            else with_dirs (fs w) assets_dir)
           rest (trace w ++ tr ++ [Get (content_url page_id) false])).
Proof.
  intros Hlen Htr Hr Htext Htags Hnet.
  assert (Hget :
    for_each (content_attempt (content_url page_id)) (range retries) w
    = (Ok (Break (text r)),
       World (fs w) rest (trace w ++ tr ++ [Get (content_url page_id) false]))).
  { unfold range.
    replace retries
      with (length evs + S (retries - S (length evs)))%nat by lia.
    rewrite (content_retry_prefix _ evs 0 tr _ w _ Htr Hnet).
    cbn [Nat.add seq for_each]. unfold bind.
    unfold content_attempt, try_except, bind, requests_get.
    cbn [net fs trace]. rewrite Hr. cbn [Z.eqb Pos.eqb]. unfold ret.
    by rewrite <- app_assoc. }
  unfold process_page_content, bind. rewrite Hget.
  destruct (text r) as [|c html]; [done|].
  unfold path_exists, makedirs. cbn [fs net trace].
  destruct (exists_in (fs w) assets_dir) eqn:He.
  - unfold ret at 1.
    by rewrite process_media_unresolvable by by apply enumerate_unresolvable.
  - cbv beta iota. cbn [fs net trace]. rewrite He.
    by rewrite process_media_unresolvable by by apply enumerate_unresolvable.
Qed.

(** A page without output file whose content is retrieved and holds no
    media element to download is written, and is Synced afterwards as long
    as the converted text does not mention the remote host: visiting the
    page again skips it.  The output file can be written: the directory of
    the section exists, the name made of the title is one the system takes,
    the assets directory is there or can be made, and the text can be
    encoded.  The waits that 429 answers ask for before the content is
    retrieved are within what the platform can sleep. *)
Theorem process_page_then_synced
    (env : collaborators) (token sec_path : pystr) (page : item)
    (evs : list net_event) (tr : list action) (r : response)
    (rest : list net_event) (w : world) :
  let md_path := md_path_of sec_path page in
  let assets := assets_of sec_path in
  let processed := serialize env (text r) (find_all env (text r)) in
  exists_in (fs w) md_path = false ->
  dir_ready (fs w) assets = true ->
  writable (ensured (fs w) assets) md_path = true ->
  (length evs < 3)%nat ->
  content_trace (content_url (item_id page)) 0 evs = Some tr ->
  forallb sleepable evs = true ->
  status_code r = 200 ->
  text r <> [] ->
  forallb (fun t => negb (resolvable t)) (find_all env (text r)) = true ->
  processed <> [] ->
  encodable (md env processed) = true ->
  contains remote_host (md env processed) = false ->
  net w = evs ++ Answer r :: rest ->
  exists w',
    process_page env token sec_path assets page w = (Ok tt, w')
    /\ files (fs w') !! md_path = Some (Text (md env processed))
    /\ net w' = rest
    /\ process_page env token sec_path assets page w'
       = (Ok tt, logged w' (Printed (MsgSkip (page_title_of page)))).
Proof.
  intros md_path assets processed Habsent _ Hwritable Hlen Htr _ Hr Htext
    Htags Hproc Henc Hclean Hnet.
  set (f1 := ensured (fs w) assets) in *.
  exists (World (with_file f1 md_path (Text (md env processed))) rest
                (trace w ++ [Printed (MsgDownloadPage (page_title_of page))]
                 ++ tr ++ [Get (content_url (item_id page)) false]
                 ++ [WriteFile md_path])).
  assert (Hsynced :
    page_synced (with_file f1 md_path (Text (md env processed))) sec_path page
    = true).
  { unfold page_synced. fold md_path assets. simpl.
    rewrite lookup_insert_eq, Hclean. simpl.
    apply exists_in_with_file, exists_in_ensured. }
  split; [|split; [|split]].
  - unfold process_page. fold md_path assets. unfold bind at 1.
    rewrite (should_download_absent _ _ _ w Habsent). cbn [negb].
    unfold synchronize_page, bind at 1, print, log.
    unfold bind at 1, try_except, bind at 1.
    erewrite (process_page_content_plain env (item_id page) token assets 3
                evs tr r rest); cbn [fs net trace]; try done.
    fold (ensured (fs w) assets). fold processed f1. unfold ret at 1.
    destruct processed as [|c p] eqn:Hp; [done|].
    rewrite write_file_text by done.
    cbn [fs net trace]. by rewrite <- !app_assoc.
  - simpl. by rewrite lookup_insert_eq.
  - done.
  - exact (process_page_synced env token sec_path assets page
             (World (with_file f1 md_path (Text (md env processed))) rest
                    (trace w
                     ++ [Printed (MsgDownloadPage (page_title_of page))]
                     ++ tr ++ [Get (content_url (item_id page)) false]
                     ++ [WriteFile md_path]))
             Hsynced).
Qed.

Lemma process_page_then_synced_witness :
  let r := text_answer (py "<p>hello</p>") in
  let w := World (FileSystem {[py "E/N/S"]} ∅)
                 ([Answer (answer 503)] ++ Answer r :: []) [] in
  exists w',
    process_page plain_env token0 (py "E/N/S") (assets_of (py "E/N/S"))
                 page_plan w = (Ok tt, w')
    /\ files (fs w') !! md_path_of (py "E/N/S") page_plan
       = Some (Text (md plain_env
                        (serialize plain_env (text r)
                                   (find_all plain_env (text r)))))
    /\ net w' = []
    /\ process_page plain_env token0 (py "E/N/S") (assets_of (py "E/N/S"))
                    page_plan w'
       = (Ok tt, logged w' (Printed (MsgSkip (page_title_of page_plan)))).
Proof.
  intros r w.
  apply (process_page_then_synced plain_env token0 (py "E/N/S") page_plan
           [Answer (answer 503)]
           [Get (content_url (item_id page_plan)) false; Sleep 1] r [] w).
  - by vm_compute.
  - by vm_compute.
  - by vm_compute.
  - simpl. lia.
  - reflexivity.
  - reflexivity.
  - reflexivity.
  - discriminate.
  - reflexivity.
  - discriminate.
  - reflexivity.
  - reflexivity.
  - reflexivity.
Defined.

(** What makes [fetch_json] raise does not stop the walk when it happens
    while the content of a page is retrieved: a 429 answer with a header
    that cannot be used raises inside [process_page_content], the walker
    catches it and passes on to the next page; nothing is written. *)
Theorem process_page_survives_bad_header
    (env : collaborators) (token sec_path assets_path : pystr) (page : item)
    (r : response) (rest : list net_event) (w : world) :
  exists_in (fs w) (md_path_of sec_path page) = false ->
  status_code r = 429 ->
  throttle_wait (Answer r) = None ->
  net w = Answer r :: rest ->
  process_page env token sec_path assets_path page w
  = (Ok tt,
     World (fs w) rest
           (trace w ++ [Printed (MsgDownloadPage (page_title_of page));
                        Get (content_url (item_id page)) false])).
Proof.
  intros Habsent Hr Hwait Hnet.
  unfold process_page. fold (md_path_of sec_path page). unfold bind at 1.
  rewrite (should_download_absent _ _ _ w Habsent). cbn [negb].
  unfold synchronize_page, bind at 1, print, log.
  unfold bind at 1, try_except at 1, bind at 1.
  unfold process_page_content, bind at 1.
  cbn [range seq for_each]. unfold bind at 1.
  unfold content_attempt at 1, try_except, bind at 1, requests_get.
  cbn [fs net trace]. rewrite Hnet.
  unfold throttle_wait in Hwait. rewrite Hr in *. cbn [Z.eqb Pos.eqb] in *.
  unfold bind at 1, retry_after_seconds, time_sleep, raise, ret.
  destruct (retry_after r) as [h|]; [|done].
  destruct (py_int h) as [n|]; cbn.
  - destruct (n <? 0) eqn:En; [|done]. cbn. by rewrite <- app_assoc.
  - by rewrite <- app_assoc.
Qed.

Lemma process_page_survives_bad_header_witness :
  let r := throttled (Some (py "Wed, 21 Oct 2015 07:28:00 GMT")) in
  let w := World empty_fs [Answer r; Answer (text_answer (py "<p>hi</p>"))] [] in
  process_page plain_env token0 (py "E/N/S") (py "E/N/S/assets") page_plan w
  = (Ok tt,
     World (fs w) [Answer (text_answer (py "<p>hi</p>"))]
           (trace w ++ [Printed (MsgDownloadPage (page_title_of page_plan));
                        Get (content_url (item_id page_plan)) false])).
Proof.
  intros r w.
  apply (process_page_survives_bad_header plain_env token0 (py "E/N/S")
           (py "E/N/S/assets") page_plan r
           [Answer (text_answer (py "<p>hi</p>"))] w).
  - reflexivity.
  - reflexivity.
  - reflexivity.
  - reflexivity.
Defined.



(** ** The token *)

(** [get_access_token] returns a token exactly when one of its three calls
    of the device flow yields a result with an access token and every call
    before it was pending or raised: a result that is neither a token nor
    pending ends the program at once, and so does a third call without
    token. *)
Theorem get_access_token_token_iff
    (script : nat -> Auth.acquire_event) (t : pystr) :
  (Auth.get_access_token true script).1 = Auth.Token t <->
  exists i, (i < 3)%nat /\
    (exists pending, script i = Auth.Acquired (Some t) pending) /\
    forall j, (j < i)%nat ->
      script j = Auth.Acquired None true \/ script j = Auth.AcquireError.
Proof.
  unfold Auth.get_access_token, Auth.max_retries, range. cbn [negb seq].
  split.
  - cbn [Auth.acquire_loop].
    destruct (script 0%nat) as [[t0|] [|]|] eqn:E0; cbn [fst];
      try (intros [= <-]; exists 0%nat; split; [lia|];
           split; [by eexists|]; intros j Hj; lia);
      try discriminate;
      (destruct (script 1%nat) as [[t1|] [|]|] eqn:E1; cbn [fst];
       try (intros [= <-]; exists 1%nat; split; [lia|];
            split; [by eexists|]; intros j Hj;
            assert (j = 0%nat) as -> by lia; rewrite E0; tauto);
       try discriminate;
       (destruct (script 2%nat) as [[t2|] [|]|] eqn:E2; cbn [fst];
        try (intros [= <-]; exists 2%nat; split; [lia|];
             split; [by eexists|]; intros j Hj;
             assert (j = 0 \/ j = 1)%nat as [-> | ->] by lia;
             [rewrite E0 | rewrite E1]; tauto);
        try discriminate)).
  - intros (i & Hi & [pending Hti] & Hbefore).
    assert (Hstep : forall j, (j < i)%nat -> forall rest slept,
      Auth.acquire_loop (j :: rest) script slept
      = Auth.acquire_loop rest script
          (match script j with
           | Auth.AcquireError => slept ++ [2]
           | _ => slept
           end)).
    { intros j Hj rest slept. cbn [Auth.acquire_loop].
      destruct (Hbefore j Hj) as [-> | ->]; done. }
    assert (Hhit : forall rest slept,
      (Auth.acquire_loop (i :: rest) script slept).1 = Auth.Token t).
    { intros rest slept. cbn [Auth.acquire_loop]. by rewrite Hti. }
    destruct i as [|[|[|i]]]; [| | |lia].
    + apply Hhit.
    + rewrite Hstep by lia. apply Hhit.
    + rewrite Hstep by lia. rewrite Hstep by lia. apply Hhit.
Qed.

Lemma acquire_loop_sleeps script attempts : forall slept,
  (Auth.acquire_loop attempts script slept).2
  = slept ++ flat_map (sleep_after script) (calls_made attempts script).
Proof.
  induction attempts as [|i rest IH]; intros slept;
    cbn [Auth.acquire_loop calls_made flat_map].
  - by rewrite app_nil_r.
  - unfold sleep_after at 1, raised.
    destruct (script i) as [[t|] [|]|]; cbn [snd flat_map app];
      rewrite ?app_nil_r; try done.
    rewrite IH. by rewrite <- app_assoc.
Qed.

Lemma calls_made_length script attempts :
  (length (calls_made attempts script) <= length attempts)%nat.
Proof.
  induction attempts as [|i rest IH]; cbn [calls_made length]; [done|].
  destruct (script i) as [[t|] [|]|]; cbn [length]; lia.
Qed.

(** However the device flow behaves, [get_access_token] sleeps two seconds
    after each call that raised and at no other time: the sleeps are, call
    after call among the calls it makes, one sleep of two seconds for a
    call that raised and none for a call that returned a result, pending
    or not.  It makes three calls at most and stops at the first result
    that holds a token or is not pending; without a user code it makes no
    call and raises. *)
Theorem get_access_token_sleeps
    (user_code_present : bool) (script : nat -> Auth.acquire_event) :
  let calls :=
    if user_code_present then calls_made (range Auth.max_retries) script
    else [] in
  (Auth.get_access_token user_code_present script).2
  = flat_map (sleep_after script) calls
  /\ length (Auth.get_access_token user_code_present script).2
     = length (filter (fun i => raised script i = true) calls)
  /\ (length calls <= 3)%nat
  /\ (user_code_present = false ->
        Auth.get_access_token user_code_present script
        = (Auth.FlowError, [])).
Proof.
  cbn zeta. unfold Auth.get_access_token.
  assert (Hcount : forall l,
    length (flat_map (sleep_after script) l)
    = length (filter (fun i => raised script i = true) l)).
  { induction l as [|i l IH]; [done|].
    cbn [flat_map]. rewrite length_app, IH, filter_cons. unfold sleep_after.
    case_decide as Hi; [by rewrite Hi|].
    by destruct (raised script i). }
  destruct user_code_present; cbn [negb].
  - rewrite acquire_loop_sleeps. cbn [app].
    split; [done|]. split; [apply Hcount|]. split.
    + pose proof (calls_made_length script (range Auth.max_retries)) as H.
      unfold range, Auth.max_retries in *. by rewrite length_seq in H.
    + done.
  - cbn [snd flat_map length]. rewrite filter_nil. cbn [length].
    split; [done|]. split; [done|]. split; [lia|done].
Qed.

(** ** Two runs of the walker *)

(** *** The first run *)

Lemma ensure_dir_ensured path w :
  ensure_dir path w = (Ok tt, World (ensured (fs w) path) (net w) (trace w)).
Proof.
  unfold ensure_dir, ensured, bind, path_exists, makedirs.
  destruct (exists_in (fs w) path) eqn:He.
  - unfold ret. by rewrite world_eta.
  - by rewrite He.
Qed.

Lemma retried_ok_spec evs :
  retried_ok evs = true ->
  (length evs < 3)%nat /\ forallb not_accepted evs = true.
Proof.
  unfold retried_ok. intros H. apply andb_prop in H as [H _].
  apply andb_prop in H as [Hlen Hall]. apply Nat.ltb_lt in Hlen. done.
Qed.

(** A download that succeeds within its three attempts. *)
Lemma process_tag_stored env page_id token assets_dir soup idx t evs b rest w :
  resolvable t = true ->
  (length evs < 3)%nat ->
  forallb not_accepted evs = true ->
  writable (fs w) (path_join assets_dir (media_filename env page_id idx t))
  = true ->
  net w = evs ++ Answer (bytes_answer b) :: rest ->
  exists tr,
    process_tag env page_id token assets_dir soup (idx, t) w
    = (Ok (<[idx := rewrite_tag t (py "assets/"
                                   ++ media_filename env page_id idx t)]> soup),
       World (with_file (fs w)
                (path_join assets_dir (media_filename env page_id idx t))
                (Binary b))
             rest (trace w ++ tr)).
Proof.
  unfold resolvable. intros Hres Hlen Hall Hw Hnet. unfold process_tag.
  destruct (media_src t) as [[|c src]|]; try done.
  rewrite Hres. cbn [negb].
  unfold bind, download_file, bind, range.
  replace 3%nat with (length evs + S (3 - S (length evs)))%nat by lia.
  rewrite (download_retry_prefix (c :: src) _ evs 0 _ w _ Hall Hnet).
  cbn [Nat.add seq for_each]. unfold bind.
  unfold download_attempt at 1, try_except, bind, requests_get.
  cbn [net fs trace status_code bytes_answer Z.eqb Pos.eqb content].
  rewrite write_file_binary by done. cbn [fs net trace]. unfold ret.
  eexists. by rewrite <- !app_assoc.
Qed.

Lemma process_media_stored env page_id token assets_dir protected media_data
    media :
  forall soup w soup' f' evs rest,
  stored_media env page_id assets_dir protected media_data media soup (fs w)
  = Some (soup', f', evs) ->
  net w = evs ++ rest ->
  exists tr,
    process_media env page_id token assets_dir media soup w
    = (Ok soup', World f' rest (trace w ++ tr)).
Proof.
  induction media as [|[idx t] media IH];
    intros soup w soup' f' evs rest Hrun Hnet;
    cbn [stored_media process_media] in *.
  - injection Hrun as <- <- <-. exists []. simpl in Hnet.
    unfold ret. by rewrite app_nil_r, <- Hnet, world_eta.
  - unfold bind. destruct (resolvable t) eqn:Hres.
    + cbv zeta in Hrun.
      match type of Hrun with
      | (if ?c then _ else _) = _ => destruct c eqn:Hc; [|done]
      end.
      apply andb_prop in Hc as [Hc _]. apply andb_prop in Hc as [Hretried Hw].
      apply retried_ok_spec in Hretried as [Hlen Hall].
      match type of Hrun with
      | match ?m with _ => _ end = _ =>
          destruct m as [[[s1 f1] e1]|] eqn:Hrec; [|done]
      end.
      injection Hrun as <- <- <-. rewrite <- app_assoc in Hnet.
      cbn [app] in Hnet.
      destruct (process_tag_stored env page_id token assets_dir soup idx t
                  (media_data idx).1 (media_data idx).2 (e1 ++ rest) w
                  Hres Hlen Hall Hw Hnet) as [tr1 ->].
      destruct (IH _ (World (with_file (fs w)
                        (path_join assets_dir
                                   (media_filename env page_id idx t))
                        (Binary (media_data idx).2))
                      (e1 ++ rest) (trace w ++ tr1))
                  _ _ _ rest Hrec eq_refl) as [tr2 ->].
      exists (tr1 ++ tr2). cbn [trace]. by rewrite app_assoc.
    + rewrite (process_tag_unresolvable _ _ _ _ _ _ _ _ Hres).
      exact (IH _ _ _ _ _ _ Hrun Hnet).
Qed.

(** The content of a page retrieved within the three attempts, and its
    media stored. *)
Lemma process_page_content_stored env page_id token assets_dir protected
    media_data retried tr0 html soup f' evs rest w :
  (length retried < 3)%nat ->
  content_trace (content_url page_id) 0 retried = Some tr0 ->
  html <> [] ->
  stored_media env page_id assets_dir protected media_data
               (enumerate (find_all env html)) (find_all env html)
               (ensured (fs w) assets_dir)
  = Some (soup, f', evs) ->
  net w = retried ++ Answer (text_answer html) :: evs ++ rest ->
  exists tr,
    process_page_content env page_id token assets_dir 3 w
    = (Ok (Some (serialize env html soup)), World f' rest (trace w ++ tr)).
Proof.
  intros Hlen Htr Hhtml Hrun Hnet.
  assert (Hget :
    for_each (content_attempt (content_url page_id)) (range 3) w
    = (Ok (Break html),
       World (fs w) (evs ++ rest)
             (trace w ++ tr0 ++ [Get (content_url page_id) false]))).
  { unfold range.
    replace 3%nat
      with (length retried + S (3 - S (length retried)))%nat by lia.
    rewrite (content_retry_prefix _ retried 0 tr0 _ w _ Htr Hnet).
    cbn [Nat.add seq for_each]. unfold bind.
    unfold content_attempt, try_except, bind, requests_get.
    cbn [net fs trace status_code text_answer Z.eqb Pos.eqb text].
    unfold ret. by rewrite <- app_assoc. }
  unfold process_page_content, bind at 1. rewrite Hget.
  destruct html as [|ch html]; [done|].
  unfold bind at 1, path_exists. cbn [fs net trace].
  set (w1 := World (ensured (fs w) assets_dir) (evs ++ rest)
                   (trace w ++ tr0 ++ [Get (content_url page_id) false])).
  destruct (process_media_stored env page_id token assets_dir protected
              media_data _ _ w1 _ _ _ rest Hrun eq_refl) as [tr Hmedia].
  exists ((tr0 ++ [Get (content_url page_id) false]) ++ tr).
  unfold ensured in w1. subst w1. unfold bind, makedirs, ret.
  destruct (exists_in (fs w) assets_dir) eqn:He.
  - rewrite Hmedia. cbn [trace]. by rewrite <- !app_assoc.
  - cbn [fs net trace]. rewrite He.
    rewrite Hmedia. cbn [trace]. by rewrite <- !app_assoc.
Qed.

Lemma should_download_not_synced sec_path page w :
  page_synced (fs w) sec_path page = false ->
  exists tr,
    should_download (md_path_of sec_path page) (assets_of sec_path)
                    (page_title_of page) w
    = (Ok true, World (fs w) (net w) (trace w ++ tr)).
Proof.
  unfold page_synced. intros H.
  destruct (files (fs w) !! md_path_of sec_path page) as [[content|b]|]
    eqn:Hfile.
  - rewrite (should_download_text _ _ _ content w Hfile), H.
    by eexists.
  - exists []. rewrite should_download_unreadable.
    + by rewrite app_nil_r, world_eta.
    + by apply (exists_in_file _ _ (Binary b)).
    + intros content. by rewrite Hfile.
  - exists []. rewrite app_nil_r, world_eta.
    destruct (exists_in (fs w) (md_path_of sec_path page)) eqn:He.
    + apply should_download_unreadable; [done|].
      intros content. by rewrite Hfile.
    + by apply should_download_absent.
Qed.

(** The visit of a page goes as [page_run] says. *)
Lemma process_page_run env token protected c sec_path page f' evs rest w :
  page_run env protected c sec_path page (fs w) = Some (f', evs) ->
  net w = evs ++ rest ->
  exists tr,
    process_page env token sec_path (assets_of sec_path) page w
    = (Ok tt, World f' rest (trace w ++ tr)).
Proof.
  unfold page_run. intros Hrun Hnet.
  destruct (page_synced (fs w) sec_path page) eqn:Hsynced.
  - injection Hrun as <- <-. simpl in Hnet.
    rewrite (process_page_synced _ _ _ _ _ _ Hsynced). unfold logged.
    rewrite Hnet. by eexists.
  - cbv zeta in Hrun.
    match type of Hrun with
    | (if ?c then _ else _) = _ => destruct c eqn:Hc; [|done]
    end.
    apply andb_prop in Hc as [Hc _]. apply andb_prop in Hc as [Hc Hhtml].
    apply andb_prop in Hc as [Hretried Htr].
    apply negb_true_iff in Hhtml.
    apply retried_ok_spec in Hretried as [Hlen _].
    apply bool_decide_eq_true in Htr as [tr0 Htr].
    match type of Hrun with
    | match ?m with _ => _ end = _ =>
        destruct m as [[[soup f1] e1]|] eqn:Hmedia; [|done]
    end.
    match type of Hrun with
    | (if ?c then _ else _) = _ => destruct c eqn:Hc; [|done]
    end.
    apply andb_prop in Hc as [Hc Hwritable].
    apply andb_prop in Hc as [Hc Henc].
    apply andb_prop in Hc as [Hproc _]. apply negb_true_iff in Hproc.
    injection Hrun as <- <-. rewrite <- app_assoc in Hnet. cbn [app] in Hnet.
    destruct (should_download_not_synced sec_path page w Hsynced)
      as [trd Hdecide].
    unfold process_page.
    fold (md_path_of sec_path page) (assets_of sec_path).
    unfold bind at 1. rewrite Hdecide. cbn [negb].
    unfold synchronize_page, bind at 1, print, log. cbn [fs net trace].
    unfold bind at 1, try_except, bind at 1.
    set (w1 := World (fs w) (net w)
                 ((trace w ++ trd)
                  ++ [Printed (MsgDownloadPage (page_title_of page))])).
    destruct (process_page_content_stored env (item_id page) token
                (assets_of sec_path) protected (pd_media (c page))
                (pd_retried (c page)) tr0
                (pd_html (c page)) soup f1 e1 rest w1)
      as [tr1 Hcontent];
      [done|done|by intros E; rewrite E in Hhtml|done|done|].
    rewrite Hcontent. unfold ret. cbv beta iota. subst w1. cbn [trace].
    destruct (serialize env (pd_html (c page)) soup) as [|ch processed]
      eqn:Hser; [done|].
    rewrite write_file_text by done. cbn [fs net trace].
    eexists. by rewrite <- !app_assoc.
Qed.

Lemma for_in_turn {A} (body : A -> M unit)
    (visit : A -> filesystem -> option (filesystem * list net_event)) :
  (forall x w f' evs rest,
     visit x (fs w) = Some (f', evs) -> net w = evs ++ rest ->
     exists tr, body x w = (Ok tt, World f' rest (trace w ++ tr))) ->
  forall l w f' evs rest,
    in_turn visit l (fs w) = Some (f', evs) -> net w = evs ++ rest ->
    exists tr, for_ l body w = (Ok tt, World f' rest (trace w ++ tr)).
Proof.
  intros Hbody. induction l as [|x l IH]; intros w f' evs rest Hrun Hnet;
    cbn [in_turn for_] in *.
  - injection Hrun as <- <-. exists []. simpl in Hnet.
    unfold ret. by rewrite app_nil_r, <- Hnet, world_eta.
  - destruct (visit x (fs w)) as [[f1 e1]|] eqn:Hx; [|done].
    destruct (in_turn visit l f1) as [[f2 e2]|] eqn:Hl; [|done].
    injection Hrun as <- <-. rewrite <- app_assoc in Hnet.
    destruct (Hbody x w f1 e1 _ Hx Hnet) as [tr1 Hrun1].
    destruct (IH (World f1 (e2 ++ rest) (trace w ++ tr1)) f2 e2 rest Hl eq_refl)
      as [tr2 Hrun2].
    unfold bind. rewrite Hrun1, Hrun2. exists (tr1 ++ tr2). cbn [trace].
    by rewrite app_assoc.
Qed.

Lemma listed_walk_run token path url use_pagination body l visit :
  url <> [] ->
  (forall x w f' evs rest,
     visit x (fs w) = Some (f', evs) -> net w = evs ++ rest ->
     exists tr, body x w = (Ok tt, World f' rest (trace w ++ tr))) ->
  forall w f' evs rest,
    listed_run path l visit (fs w) = Some (f', evs) ->
    net w = evs ++ rest ->
    exists tr,
      listed_walk token path url use_pagination body w
      = (Ok tt, World f' rest (trace w ++ tr)).
Proof.
  intros Hurl Hbody w f' evs rest Hrun Hnet. unfold listed_run in Hrun.
  destruct (dir_ready (fs w) path && listing_ok l) eqn:Hc; [|done].
  apply andb_prop in Hc as [_ Hok].
  destruct (in_turn visit (listing_items l) (ensured (fs w) path))
    as [[f1 e1]|] eqn:Hl; [|done].
  injection Hrun as <- <-. rewrite <- app_assoc in Hnet.
  unfold listed_walk, bind at 1. rewrite ensure_dir_ensured.
  unfold bind at 1.
  rewrite (fetch_json_listing url token 5 use_pagination l _ (e1 ++ rest));
    [|lia|done|done|done].
  cbn [fs net trace].
  destruct (for_in_turn body visit Hbody (listing_items l)
              (World (ensured (fs w) path) (e1 ++ rest)
                     (trace w ++ listing_trace (with_top url use_pagination) l))
              f1 e1 rest Hl eq_refl) as [tr ->].
  eexists. cbn [trace]. by rewrite <- app_assoc.
Qed.

Lemma process_section_run env token protected r c nb sec w f' evs rest :
  section_run env protected r c nb sec (fs w) = Some (f', evs) ->
  net w = evs ++ rest ->
  exists tr,
    process_section env token (nb_path_of nb) sec w
    = (Ok tt, World f' rest (trace w ++ tr)).
Proof.
  intros Hrun Hnet.
  change (process_section env token (nb_path_of nb) sec)
    with (listed_walk token (sec_path_of nb sec) (pages_url sec) true
            (process_page env token (sec_path_of nb sec)
                          (assets_of (sec_path_of nb sec)))).
  eapply listed_walk_run; [apply api_nonempty| |exact Hrun|exact Hnet].
  intros page w1 f1 e1 rest1. apply process_page_run.
Qed.

Lemma process_notebook_run env token protected r c nb w f' evs rest :
  notebook_run env protected r c nb (fs w) = Some (f', evs) ->
  net w = evs ++ rest ->
  exists tr,
    process_notebook env token nb w = (Ok tt, World f' rest (trace w ++ tr)).
Proof.
  intros Hrun Hnet.
  change (process_notebook env token nb)
    with (listed_walk token (nb_path_of nb) (sections_url nb) false
            (process_section env token (nb_path_of nb))).
  eapply listed_walk_run; [apply api_nonempty| |exact Hrun|exact Hnet].
  intros sec w1 f1 e1 rest1. apply process_section_run.
Qed.

Lemma main_run env token r c w f' evs rest :
  successful_run env r c (fs w) = Some (f', evs) ->
  net w = evs ++ rest ->
  exists tr, main env token w = (Ok tt, World f' rest (trace w ++ tr)).
Proof.
  intros Hrun Hnet.
  change (main env token)
    with (listed_walk token EXPORT_DIR notebooks_url false
            (process_notebook env token)).
  eapply listed_walk_run; [apply api_nonempty| |exact Hrun|exact Hnet].
  intros nb w1 f1 e1 rest1. apply process_notebook_run.
Qed.

(** *** What the first run leaves *)

Lemma grows_refl protected f : grows protected f f.
Proof. by split. Qed.

Lemma grows_trans protected f1 f2 f3 :
  grows protected f1 f2 -> grows protected f2 f3 -> grows protected f1 f3.
Proof. intros [He1 Hc1] [He2 Hc2]. split; auto. Qed.

Lemma grows_ensured protected f path : grows protected f (ensured f path).
Proof.
  unfold ensured. destruct (exists_in f path); [apply grows_refl|].
  split; [|done]. intros p. unfold exists_in, with_dirs. simpl.
  rewrite !orb_true_iff. intros [H|H]; [left|by right].
  apply bool_decide_eq_true in H. apply bool_decide_eq_true. set_solver.
Qed.

Lemma grows_binary protected f path b :
  ~ In path protected -> grows protected f (with_file f path (Binary b)).
Proof.
  intros Hout. split.
  - intros p. apply exists_in_with_file.
  - intros p Hp. unfold clean_text, with_file. simpl.
    rewrite lookup_insert_ne; [done|]. by intros ->.
Qed.

Lemma grows_text protected f path out :
  contains remote_host out = false ->
  grows protected f (with_file f path (Text out)).
Proof.
  intros Hclean. split.
  - intros p. apply exists_in_with_file.
  - intros p _. unfold clean_text, with_file. simpl.
    destruct (decide (path = p)) as [->|Hne].
    + rewrite lookup_insert_eq. by rewrite Hclean.
    + by rewrite lookup_insert_ne.
Qed.

Lemma stored_media_grows env page_id assets_dir protected media_data media :
  forall soup f soup' f' evs,
  stored_media env page_id assets_dir protected media_data media soup f
  = Some (soup', f', evs) ->
  grows protected f f'.
Proof.
  induction media as [|[idx t] media IH]; intros soup f soup' f' evs Hrun;
    cbn [stored_media] in Hrun.
  - injection Hrun as <- <- <-. apply grows_refl.
  - destruct (resolvable t); [|by eapply IH].
    cbv zeta in Hrun.
    match type of Hrun with
    | (if ?c then _ else _) = _ => destruct c eqn:Hc; [|done]
    end.
    apply andb_prop in Hc as [_ Hout]. apply negb_true_iff in Hout.
    apply bool_decide_eq_false in Hout.
    match type of Hrun with
    | match ?m with _ => _ end = _ =>
        destruct m as [[[s1 f1] e1]|] eqn:Hrec; [|done]
    end.
    injection Hrun as <- <- <-.
    eapply grows_trans; [|by eapply IH].
    apply grows_binary. by rewrite <- list_elem_of_In.
Qed.

Lemma page_synced_clean f sec_path page :
  page_synced f sec_path page
  = clean_text f (md_path_of sec_path page)
    && exists_in f (assets_of sec_path).
Proof.
  unfold page_synced, clean_text.
  by destruct (files f !! md_path_of sec_path page) as [[content|b]|].
Qed.

Lemma page_synced_grows protected f f' sec_path page :
  In (md_path_of sec_path page) protected ->
  grows protected f f' ->
  page_synced f sec_path page = true -> page_synced f' sec_path page = true.
Proof.
  intros Hin [He Hc]. rewrite !page_synced_clean, !andb_true_iff.
  intros [H1 H2]. auto.
Qed.

(** A page that has been visited is Synced. *)
Lemma page_run_synced env protected c sec_path page f f' evs :
  page_run env protected c sec_path page f = Some (f', evs) ->
  grows protected f f' /\ page_synced f' sec_path page = true.
Proof.
  unfold page_run. intros Hrun.
  destruct (page_synced f sec_path page) eqn:Hsynced.
  - injection Hrun as <- <-. split; [apply grows_refl|done].
  - cbv zeta in Hrun.
    match type of Hrun with
    | (if ?c then _ else _) = _ => destruct c eqn:Hc; [|done]
    end.
    match type of Hrun with
    | match ?m with _ => _ end = _ =>
        destruct m as [[[soup f1] e1]|] eqn:Hmedia; [|done]
    end.
    match type of Hrun with
    | (if ?c then _ else _) = _ => destruct c eqn:Hc2; [|done]
    end.
    apply andb_prop in Hc2 as [Hc2 _]. apply andb_prop in Hc2 as [Hc2 _].
    apply andb_prop in Hc2 as [_ Hclean]. apply negb_true_iff in Hclean.
    injection Hrun as <- <-.
    pose proof (stored_media_grows _ _ _ _ _ _ _ _ _ _ _ Hmedia) as Hg.
    split.
    + eapply grows_trans; [apply grows_ensured|].
      eapply grows_trans; [exact Hg|]. by apply grows_text.
    + rewrite page_synced_clean. apply andb_true_iff. split.
      * unfold clean_text, with_file. simpl.
        by rewrite lookup_insert_eq, Hclean.
      * apply exists_in_with_file. destruct Hg as [He _]. apply He.
        apply exists_in_ensured.
Qed.

Lemma in_turn_post {A} protected
    (visit : A -> filesystem -> option (filesystem * list net_event))
    (Q : A -> filesystem -> Prop) :
  forall l,
  (forall x, In x l -> forall f f' evs,
     visit x f = Some (f', evs) -> grows protected f f' /\ Q x f') ->
  (forall x, In x l -> forall f f',
     grows protected f f' -> Q x f -> Q x f') ->
  forall f f' evs,
    in_turn visit l f = Some (f', evs) ->
    grows protected f f' /\ forall x, In x l -> Q x f'.
Proof.
  induction l as [|x l IH]; intros Hvisit Hmono f f' evs Hrun;
    cbn [in_turn] in Hrun.
  - injection Hrun as <- <-. split; [apply grows_refl|]. by intros x [].
  - destruct (visit x f) as [[f1 e1]|] eqn:Hx; [|done].
    destruct (in_turn visit l f1) as [[f2 e2]|] eqn:Hl; [|done].
    injection Hrun as <- <-.
    destruct (Hvisit x (or_introl eq_refl) f f1 e1 Hx) as [Hg1 Hq].
    destruct (IH (fun y Hy => Hvisit y (or_intror Hy))
                 (fun y Hy => Hmono y (or_intror Hy)) f1 f2 e2 Hl)
      as [Hg2 Hall].
    split; [by eapply grows_trans|].
    intros y [<-|Hy]; [|by apply Hall].
    by apply (Hmono x (or_introl eq_refl) f1 f2).
Qed.

Lemma listed_run_post protected path l visit (Q : item -> filesystem -> Prop) :
  (forall x, In x (listing_items l) -> forall f f' evs,
     visit x f = Some (f', evs) -> grows protected f f' /\ Q x f') ->
  (forall x, In x (listing_items l) -> forall f f',
     grows protected f f' -> Q x f -> Q x f') ->
  forall f f' evs,
    listed_run path l visit f = Some (f', evs) ->
    grows protected f f' /\ listing_ok l = true
    /\ forall x, In x (listing_items l) -> Q x f'.
Proof.
  intros Hvisit Hmono f f' evs Hrun. unfold listed_run in Hrun.
  destruct (dir_ready f path && listing_ok l) eqn:Hc; [|done].
  apply andb_prop in Hc as [_ Hok].
  destruct (in_turn visit (listing_items l) (ensured f path))
    as [[f1 e1]|] eqn:Hl; [|done].
  injection Hrun as <- <-.
  destruct (in_turn_post protected visit Q _ Hvisit Hmono _ _ _ Hl)
    as [Hg Hall].
  split; [|done]. eapply grows_trans; [apply grows_ensured|exact Hg].
Qed.

Lemma md_path_listed r nb sec page :
  In nb (listing_items (notebooks r)) ->
  In sec (listing_items (sections_of r nb)) ->
  In page (listing_items (pages_of r nb sec)) ->
  In (md_path_of (sec_path_of nb sec) page) (md_paths r).
Proof.
  intros Hnb Hsec Hpage. unfold md_paths.
  apply in_flat_map. exists nb. split; [done|].
  apply in_flat_map. exists sec. split; [done|].
  by apply in_map.
Qed.

Lemma section_synced_grows r f f' nb sec :
  In nb (listing_items (notebooks r)) ->
  In sec (listing_items (sections_of r nb)) ->
  grows (md_paths r) f f' ->
  section_synced r f nb sec = true -> section_synced r f' nb sec = true.
Proof.
  intros Hnb Hsec Hg. unfold section_synced. rewrite !andb_true_iff.
  intros [Hok Hall]. split; [done|].
  rewrite forallb_forall in *. intros page Hpage.
  eapply page_synced_grows; [|exact Hg|by apply Hall].
  by apply md_path_listed.
Qed.

Lemma notebook_synced_grows r f f' nb :
  In nb (listing_items (notebooks r)) ->
  grows (md_paths r) f f' ->
  notebook_synced r f nb = true -> notebook_synced r f' nb = true.
Proof.
  intros Hnb Hg. unfold notebook_synced. rewrite !andb_true_iff.
  intros [Hok Hall]. split; [done|].
  rewrite forallb_forall in *. intros sec Hsec.
  eapply section_synced_grows; [done|done|exact Hg|by apply Hall].
Qed.

Lemma section_run_synced env r c nb sec f f' evs :
  In nb (listing_items (notebooks r)) ->
  In sec (listing_items (sections_of r nb)) ->
  section_run env (md_paths r) r c nb sec f = Some (f', evs) ->
  grows (md_paths r) f f' /\ section_synced r f' nb sec = true.
Proof.
  intros Hnb Hsec Hrun. unfold section_run in Hrun.
  edestruct (listed_run_post (md_paths r) (sec_path_of nb sec)
               (pages_of r nb sec)
               (page_run env (md_paths r) c (sec_path_of nb sec))
               (fun page f => page_synced f (sec_path_of nb sec) page = true))
    as (Hg & Hok & Hall); [| |exact Hrun|].
  - intros page _ f0 f1 e1. apply page_run_synced.
  - intros page Hpage f0 f1. apply page_synced_grows.
    by apply md_path_listed.
  - split; [done|]. unfold section_synced. rewrite Hok. simpl.
    by apply forallb_forall.
Qed.

Lemma notebook_run_synced env r c nb f f' evs :
  In nb (listing_items (notebooks r)) ->
  notebook_run env (md_paths r) r c nb f = Some (f', evs) ->
  grows (md_paths r) f f' /\ notebook_synced r f' nb = true.
Proof.
  intros Hnb Hrun. unfold notebook_run in Hrun.
  edestruct (listed_run_post (md_paths r) (nb_path_of nb) (sections_of r nb)
               (section_run env (md_paths r) r c nb)
               (fun sec f => section_synced r f nb sec = true))
    as (Hg & Hok & Hall); [| |exact Hrun|].
  - intros sec Hsec f0 f1 e1. by apply section_run_synced.
  - intros sec Hsec f0 f1. by apply section_synced_grows.
  - split; [done|]. unfold notebook_synced. rewrite Hok. simpl.
    by apply forallb_forall.
Qed.

(** A successful run leaves every page Synced. *)
Lemma successful_run_synced env r c f f' evs :
  successful_run env r c f = Some (f', evs) -> all_synced r f' = true.
Proof.
  intros Hrun. unfold successful_run in Hrun.
  edestruct (listed_run_post (md_paths r) EXPORT_DIR (notebooks r)
               (notebook_run env (md_paths r) r c)
               (fun nb f => notebook_synced r f nb = true))
    as (Hg & Hok & Hall); [| |exact Hrun|].
  - intros nb Hnb f0 f1 e1. by apply notebook_run_synced.
  - intros nb Hnb f0 f1. by apply notebook_synced_grows.
  - unfold all_synced. rewrite Hok. simpl. by apply forallb_forall.
Qed.

(** C2, as the code has it.  Take a first run of the walker, from any file
    system, in which every listing is served and, for every page that is
    not Synced when it is visited, the content is retrieved and every media
    download succeeds, each within its three attempts, what is downloaded
    is stored, and the converted text, which does not hold
    [graph.microsoft.com], is written.  The run ends without interruption.
    A second run over the unchanged hierarchy, from the file system the
    first run has left, then downloads no media and writes no output file:
    it only fetches the listings and prints that it skips each page, and
    the files are as they were. *)
Theorem successful_run_then_second_run_skips
    (env : collaborators) (token : pystr) (r : remote) (c : item -> page_data)
    (f1 : filesystem) (answers rest : list net_event) (w : world) :
  successful_run env r c (fs w) = Some (f1, answers) ->
  net w = answers ++ rest ->
  (exists tr, main env token w = (Ok tt, World f1 rest (trace w ++ tr)))
  /\ forall (rest2 : list net_event) (tr2 : list action),
       exists f2,
         main env token (World f1 (remote_events r ++ rest2) tr2)
         = (Ok tt, World f2 rest2 (tr2 ++ skip_trace r))
         /\ extends f1 f2
         /\ forallb quiet (skip_trace r) = true.
Proof.
  intros Hrun Hnet. split.
  - by eapply main_run.
  - intros rest2 tr2.
    apply (main_skips_synced env token r rest2
             (World f1 (remote_events r ++ rest2) tr2)); [|done].
    by eapply successful_run_synced.
Qed.

(** The first run retrieves the content of the page Plan at the second
    attempt and stores its image at the third; the second run finds the
    page Synced. *)
Lemma successful_run_then_second_run_skips_witness :
  let answers :=
    remote_events small_remote
    ++ [Answer (answer 503); Answer (text_answer (py "<img>"));
        Unreachable; Answer (answer 404); Answer (bytes_answer [1; 2]%N)] in
  let w := World empty_fs (answers ++ []) [] in
  let f1 :=
    FileSystem
      {[py "OneNote_Export"; py "OneNote_Export/Work";
        py "OneNote_Export/Work/Ideas"; assets_dir0]}
      {[plan_md := Text (py "<img src=assets/p1_asset_0.png>");
        py "OneNote_Export/Work/Ideas/assets/p1_asset_0.png"
        := Binary [1; 2]%N]} in
  (exists tr, main image_env token0 w = (Ok tt, World f1 [] (trace w ++ tr)))
  /\ forall (rest2 : list net_event) (tr2 : list action),
       exists f2,
         main image_env token0
              (World f1 (remote_events small_remote ++ rest2) tr2)
         = (Ok tt, World f2 rest2 (tr2 ++ skip_trace small_remote))
         /\ extends f1 f2
         /\ forallb quiet (skip_trace small_remote) = true.
Proof.
  intros answers w f1.
  apply (successful_run_then_second_run_skips image_env token0 small_remote
           image_page f1 answers [] w).
  - vm_compute. reflexivity.
  - reflexivity.
Defined.
